(** * auto-hh-bot: a shallow embedding of the chat controller and its helpers

    The development follows the Python sources:
    - [settings_utils.py]: the per-user key/value settings table;
    - [claude_client.py]: the cover-letter generator (an external call);
    - [tg_register.py]: rendering helpers and the webhook controller.

    Python [str] values are sequences of Unicode code points, persistent
    tables are lists of rows, and handlers run in a state-and-exception
    monad whose state survives a raised exception, as in Python. *)

From Stdlib Require Import ZArith NArith List Bool Lia String Ascii Permutation.
From Stdlib Require Import DecimalZ.
Import ListNotations.

Local Open Scope Z_scope.

(** ** Python strings *)

(** A Python [str] is a sequence of code points. *)
Definition pystr := list N.

Module Utf8.
(** String literals of this file are UTF-8 byte strings; [decode] turns
    them into code points so that [len], slicing and [strip] count
    characters the way Python does. *)

Definition cont (a : ascii) : N := N.land (N_of_ascii a) 63.

Fixpoint decode_bytes (l : list ascii) : pystr :=
  match l with
  | [] => []
  | a :: r =>
      let b := N_of_ascii a in
      if (b <? 128)%N then b :: decode_bytes r
      else if (b <? 224)%N then
        match r with
        | c1 :: r' => (N.land b 31 * 64 + cont c1)%N :: decode_bytes r'
        | _ => [b]
        end
      else if (b <? 240)%N then
        match r with
        | c1 :: c2 :: r' =>
            (N.land b 15 * 4096 + cont c1 * 64 + cont c2)%N :: decode_bytes r'
        | _ => [b]
        end
      else
        match r with
        | c1 :: c2 :: c3 :: r' =>
            (N.land b 7 * 262144 + cont c1 * 4096 + cont c2 * 64 + cont c3)%N
              :: decode_bytes r'
        | _ => [b]
        end
  end.

Definition decode (s : string) : pystr := decode_bytes (list_ascii_of_string s).
End Utf8.

Definition u (s : string) : pystr := Utf8.decode s.

Definition pystr_eqb (a b : pystr) : bool :=
  if list_eq_dec N.eq_dec a b then true else false.

(** [len(s)] *)
Definition len {A} (l : list A) : Z := Z.of_nat (List.length l).

(** [s[:n]] for a non-negative [n]. *)
Definition slice_to {A} (n : nat) (l : list A) : list A := firstn n l.

(** [s.startswith(p)] *)
Fixpoint startswith (s p : pystr) : bool :=
  match p, s with
  | [], _ => true
  | _ :: _, [] => false
  | c :: p', d :: s' => N.eqb c d && startswith s' p'
  end.

(** [str.isspace] on one character: the code points Python treats as
    whitespace in [str.strip()] and [str.split()]. *)
Definition is_space (c : N) : bool :=
  ((9 <=? c) && (c <=? 13) || (28 <=? c) && (c <=? 32) || (c =? 133) || (c =? 160)
   || (c =? 5760) || (8192 <=? c) && (c <=? 8202) || (c =? 8232) || (c =? 8233)
   || (c =? 8239) || (c =? 8287) || (c =? 12288))%N.

Fixpoint lstrip (s : pystr) : pystr :=
  match s with
  | c :: r => if is_space c then lstrip r else s
  | [] => []
  end.

Definition rstrip (s : pystr) : pystr := rev (lstrip (rev s)).

(** [s.strip()] *)
Definition strip (s : pystr) : pystr := rstrip (lstrip s).

Definition comma : N := 44.

(** [s.split(",")]: always at least one piece. *)
Fixpoint split_comma (s : pystr) : list pystr :=
  match s with
  | [] => [[]]
  | c :: r =>
      if (c =? comma)%N then [] :: split_comma r
      else match split_comma r with
           | p :: ps => (c :: p) :: ps
           | [] => [[c]]
           end
  end.

(** [",".join(parts)] *)
Fixpoint join_comma (parts : list pystr) : pystr :=
  match parts with
  | [] => []
  | [p] => p
  | p :: ps => p ++ comma :: join_comma ps
  end.

(** [sep.join(parts)] for an arbitrary separator. *)
Fixpoint join (sep : pystr) (parts : list pystr) : pystr :=
  match parts with
  | [] => []
  | [p] => p
  | p :: ps => p ++ sep ++ join sep ps
  end.

(** [s.replace(old, "")] for a non-empty [old]. *)
Fixpoint remove_all_fuel (fuel : nat) (old s : pystr) : pystr :=
  match fuel with
  | O => s
  | S f =>
      match s with
      | [] => []
      | c :: r =>
          if startswith s old then remove_all_fuel f old (skipn (List.length old) s)
          else c :: remove_all_fuel f old r
      end
  end.

Definition remove_all (old s : pystr) : pystr :=
  remove_all_fuel (S (List.length s)) old s.

(** [needle in s] *)
Fixpoint contains (s needle : pystr) : bool :=
  startswith s needle ||
  match s with
  | [] => false
  | _ :: r => contains r needle
  end.

Definition underscore : N := 95.

(** [s.split("_")[-1]]: what follows the last underscore. *)
Fixpoint after_last_underscore (s : pystr) : pystr :=
  match s with
  | [] => []
  | c :: r =>
      if existsb (N.eqb underscore) r then after_last_underscore r
      else if (c =? underscore)%N then r
      else s
  end.

(** [s.split("_", 1)[1]]: what follows the first underscore;
    [IndexError] when there is none. *)
Fixpoint after_first_underscore (s : pystr) : option pystr :=
  match s with
  | [] => None
  | c :: r => if (c =? underscore)%N then Some r else after_first_underscore r
  end.

(** [s.replace("_", " ")] *)
Definition underscores_to_spaces (s : pystr) : pystr :=
  map (fun c => if (c =? underscore)%N then 32%N else c) s.

(** [s.split("\n")[0]] *)
Fixpoint first_line (s : pystr) : pystr :=
  match s with
  | [] => []
  | c :: r => if (c =? 10)%N then [] else c :: first_line r
  end.

(** [html.escape(s)], quotes included. *)
Definition html_escape (s : pystr) : pystr :=
  flat_map (fun c =>
              if (c =? 38)%N then u "&amp;"
              else if (c =? 60)%N then u "&lt;"
              else if (c =? 62)%N then u "&gt;"
              else if (c =? 34)%N then u "&quot;"
              else if (c =? 39)%N then u "&#x27;"
              else [c]) s.

Definition is_ascii_digit (c : N) : bool := ((48 <=? c) && (c <=? 57))%N.

(** ** Decimal text of integers: [str(n)] and [int(s)] *)

Fixpoint uint_chars (d : Decimal.uint) : pystr :=
  match d with
  | Decimal.Nil => []
  | Decimal.D0 d => 48%N :: uint_chars d
  | Decimal.D1 d => 49%N :: uint_chars d
  | Decimal.D2 d => 50%N :: uint_chars d
  | Decimal.D3 d => 51%N :: uint_chars d
  | Decimal.D4 d => 52%N :: uint_chars d
  | Decimal.D5 d => 53%N :: uint_chars d
  | Decimal.D6 d => 54%N :: uint_chars d
  | Decimal.D7 d => 55%N :: uint_chars d
  | Decimal.D8 d => 56%N :: uint_chars d
  | Decimal.D9 d => 57%N :: uint_chars d
  end.

(** [str(z)] for a Python [int]. *)
Definition str_of_int (z : Z) : pystr :=
  match Z.to_int z with
  | Decimal.Pos d => uint_chars d
  | Decimal.Neg d => 45%N :: uint_chars d
  end.

Fixpoint chars_uint (s : pystr) : option Decimal.uint :=
  match s with
  | [] => Some Decimal.Nil
  | c :: r =>
      match chars_uint r with
      | None => None
      | Some d =>
          if (c =? 48)%N then Some (Decimal.D0 d)
          else if (c =? 49)%N then Some (Decimal.D1 d)
          else if (c =? 50)%N then Some (Decimal.D2 d)
          else if (c =? 51)%N then Some (Decimal.D3 d)
          else if (c =? 52)%N then Some (Decimal.D4 d)
          else if (c =? 53)%N then Some (Decimal.D5 d)
          else if (c =? 54)%N then Some (Decimal.D6 d)
          else if (c =? 55)%N then Some (Decimal.D7 d)
          else if (c =? 56)%N then Some (Decimal.D8 d)
          else if (c =? 57)%N then Some (Decimal.D9 d)
          else None
      end
  end.

(** Underscores of an [int] literal: single, and only between digits. *)
Fixpoint drop_underscores (prev_digit : bool) (s : pystr) : option pystr :=
  match s with
  | [] => if prev_digit then Some [] else None
  | c :: r =>
      if (c =? 95)%N then
        if prev_digit then
          match r with
          | [] => None
          | _ => drop_underscores false r
          end
        else None
      else
        match drop_underscores true r with
        | Some r' => Some (c :: r')
        | None => None
        end
  end.

Definition unsigned_of_chars (s : pystr) : option Z :=
  match drop_underscores false s with
  | Some ds =>
      match chars_uint ds with
      | Some d => Some (Z.of_uint d)
      | None => None
      end
  | None => None
  end.

(** [int(s)] for a [str] argument in base ten: surrounding whitespace is
    ignored, a sign is allowed, digits may be grouped by single
    underscores.  [None] stands for [ValueError].  Only the ASCII digits
    are recognised. *)
Definition int_of_str (s : pystr) : option Z :=
  match strip s with
  | [] => None
  | c :: r =>
      if (c =? 45)%N then option_map Z.opp (unsigned_of_chars r)
      else if (c =? 43)%N then unsigned_of_chars r
      else unsigned_of_chars (c :: r)
  end.

(** ** Exceptions and fallible pure code *)

Inductive exn :=
| KeyError (key : pystr)
| AttributeError
| TypeError
| ValueError
| IndexError
| NameError
| RuntimeError (msg : pystr)
| HTTPException (status_code : Z) (detail : pystr)
| TelegramBadRequest (msg : pystr)
| OperationalError (msg : pystr)
| UpstreamError (what : pystr).

Definition result (A : Type) : Type := exn + A.

Notation "'let?' x ':=' e 'in' k" :=
  (match e with inl err => inl err | inr x => k end)
  (at level 10, x pattern, e at level 100, k at level 200).

(** ** JSON values as Python objects *)

(** What [json.loads] produces, fractional numbers apart: the job board
    sends integers wherever this program formats a number. *)
#[warnings="-register-all"]
Inductive json :=
| JNull
| JBool (b : bool)
| JInt (z : Z)
| JStr (s : pystr)
| JList (items : list json)
| JDict (fields : list (pystr * json)).

Definition pydict := list (pystr * json).

Fixpoint dict_lookup (d : pydict) (k : pystr) : option json :=
  match d with
  | [] => None
  | (k', v) :: r => if pystr_eqb k' k then Some v else dict_lookup r k
  end.

(** [d.get(k)] and [d.get(k, default)] on a dict. *)
Definition dict_get (d : pydict) (k : pystr) (default : json) : json :=
  match dict_lookup d k with Some v => v | None => default end.

(** [d[k]] on a dict. *)
Definition dict_item (d : pydict) (k : pystr) : result json :=
  match dict_lookup d k with Some v => inr v | None => inl (KeyError k) end.

(** [x.get(k, default)] on an arbitrary object: only dicts have [get]. *)
Definition py_get (x : json) (k : pystr) (default : json) : result json :=
  match x with
  | JDict d => inr (dict_get d k default)
  | _ => inl AttributeError
  end.

(** [x[k]] with a string key on an arbitrary object. *)
Definition py_item (x : json) (k : pystr) : result json :=
  match x with
  | JDict d => dict_item d k
  | _ => inl TypeError
  end.

(** [bool(x)] *)
Definition truthy (x : json) : bool :=
  match x with
  | JNull => false
  | JBool b => b
  | JInt z => negb (z =? 0)
  | JStr s => match s with [] => false | _ => true end
  | JList l => match l with [] => false | _ => true end
  | JDict d => match d with [] => false | _ => true end
  end.

(** [x or y] *)
Definition py_or (x y : json) : json := if truthy x then x else y.

Definition is_dict (x : json) : bool :=
  match x with JDict _ => true | _ => false end.

(** ** Library functions taken as given

    [repr] of a string and [textwrap.wrap] depend on the Unicode
    database and on a large regular expression; [str.isdigit] needs the
    database outside ASCII, as does [str.lower]; the iteration order of a [set] of strings
    depends on the interpreter's hash seed.  They are parameters of the
    model. *)
Class PyLib := {
  repr_str : pystr -> pystr;
  textwrap_wrap : pystr -> nat -> list pystr;
  unicode_digit : N -> bool;
  (** [str.lower] on one character outside ASCII *)
  unicode_lower : N -> pystr;
  (** [urllib.parse.quote_plus(s, safe='')] *)
  quote_plus : pystr -> pystr;
  (** the order in which a [set] holding these elements is iterated *)
  set_iter : list pystr -> list pystr;
  set_iter_perm : forall l, Permutation (set_iter l) l
}.

Section Python.
Context `{PyLib}.

(** [repr(x)] *)
Fixpoint py_repr (x : json) : pystr :=
  match x with
  | JNull => u "None"
  | JBool true => u "True"
  | JBool false => u "False"
  | JInt z => str_of_int z
  | JStr s => repr_str s
  | JList l => u "[" ++ join (u ", ") (map py_repr l) ++ u "]"
  | JDict d =>
      u "{" ++ join (u ", ")
                 (map (fun kv => repr_str (fst kv) ++ u ": " ++ py_repr (snd kv)) d)
        ++ u "}"
  end.

(** [str(x)], which is what an f-string placeholder inserts. *)
Definition py_str (x : json) : pystr :=
  match x with
  | JStr s => s
  | _ => py_repr x
  end.

(** [s.isdigit()] *)
Definition isdigit_char (c : N) : bool :=
  if (c <? 128)%N then is_ascii_digit c else unicode_digit c.

Definition isdigit (s : pystr) : bool :=
  match s with
  | [] => false
  | _ => forallb isdigit_char s
  end.

(** [s.lower()] *)
Definition lower (s : pystr) : pystr :=
  flat_map (fun c =>
              if (c <? 128)%N then
                if ((65 <=? c) && (c <=? 90))%N then [(c + 32)%N] else [c]
              else unicode_lower c) s.

(** [int(x)] *)
Definition py_int (x : json) : result Z :=
  match x with
  | JInt z => inr z
  | JBool b => inr (if b then 1 else 0)
  | JStr s => match int_of_str s with
              | Some z => inr z
              | None => inl ValueError
              end
  | _ => inl TypeError
  end.
End Python.

(** ** Rendering helpers of [tg_register.py] *)

Definition lt_sign : N := 60.
Definition gt_sign : N := 62.

(** The text after the first [>] of [s], if there is one. *)
Fixpoint after_gt (s : pystr) : option pystr :=
  match s with
  | [] => None
  | c :: r => if (c =? gt_sign)%N then Some r else after_gt r
  end.

(** [re.sub(r"<[^>]+>", "", s)]: a match starts at a [<], needs at least
    one character other than [>] and ends at the first [>] that follows;
    matches are removed from left to right. *)
Fixpoint sub_tags (fuel : nat) (s : pystr) : pystr :=
  match fuel with
  | O => s
  | S f =>
      match s with
      | [] => []
      | c :: r =>
          if (c =? lt_sign)%N then
            match r with
            | [] => [c]
            | d :: r' =>
                if (d =? gt_sign)%N then c :: sub_tags f r
                else match after_gt r' with
                     | Some rest => sub_tags f rest
                     | None => c :: sub_tags f r
                     end
            end
          else c :: sub_tags f r
      end
  end.

(** [strip_html(text)]: [re.sub(r"<[^>]+>", "", text or "")].  A truthy
    argument that is not a string makes [re.sub] raise [TypeError]. *)
Definition strip_html (text : json) : result pystr :=
  match py_or text (JStr []) with
  | JStr s => inr (sub_tags (List.length s) s)
  | _ => inl TypeError
  end.

Definition newline : N := 10.
Definition ellipsis : pystr := u "…".

Section Rendering.
Context `{PyLib}.

(** [wrap_long(text, width=60)] *)
Definition wrap_long (text : pystr) : pystr :=
  join [newline] (textwrap_wrap text 60).

(** The salary line of [format_vacancy], from [v.get("salary")]. *)
Definition salary_line (salary : json) : pystr :=
  match salary with
  | JDict s =>
      let fr := dict_get s (u "from") JNull in
      let to := dict_get s (u "to") JNull in
      let cur := dict_get s (u "currency") (JStr []) in
      if truthy fr && truthy to then
        py_str fr ++ u "–" ++ py_str to ++ u " " ++ py_str cur
      else if truthy fr then u "от " ++ py_str fr ++ u " " ++ py_str cur
      else if truthy to then u "до " ++ py_str to ++ u " " ++ py_str cur
      else u "не указана"
  | _ => u "не указана"
  end.

(** The text [format_vacancy] takes as the description. *)
Definition raw_description (v : pydict) : json :=
  match dict_get v (u "snippet") JNull with
  | JDict snip =>
      let resp := py_or (dict_get snip (u "responsibility") JNull) (JStr []) in
      let req := py_or (dict_get snip (u "requirement") JNull) (JStr []) in
      JStr (strip (py_str resp ++ newline :: py_str req))
  | snip =>
      py_or (py_or snip (dict_get v (u "description") (JStr []))) (JStr [])
  end.

(** The description block: [wrap_long(full[:1200])] and an ellipsis
    when [len(full) > 1200]. *)
Definition description_block (full : pystr) : pystr :=
  wrap_long (slice_to 1200 full)
    ++ (if len full >? 1200 then ellipsis else []).

(** The caption f-string of [format_vacancy]. *)
Definition caption_text (title company : json) (salary descr : pystr) (url : json)
  : pystr :=
  u "💼 <b>" ++ py_str title ++ u "</b>" ++ [newline]
  ++ [newline] ++ u "🏢 <i>" ++ py_str company ++ u "</i>" ++ [newline]
  ++ [newline] ++ u "💰 ЗП: " ++ salary ++ [newline]
  ++ [newline] ++ descr ++ [newline]
  ++ [newline] ++ u "<a href='" ++ py_str url ++ u "'>Открыть на hh.ru</a>".

(** [format_vacancy(v)]: the caption and the logo URL. *)
Definition format_vacancy (v : pydict) : result (pystr * json) :=
  let? title := dict_item v (u "name") in
  let? company :=
    py_get (dict_get v (u "employer") (JDict [])) (u "name") (JStr (u "Без названия")) in
  let? logo_urls :=
    py_get (dict_get v (u "employer") (JDict [])) (u "logo_urls") (JDict []) in
  let? logo := py_get logo_urls (u "240") JNull in
  let salary := salary_line (dict_get v (u "salary") JNull) in
  let? full := strip_html (raw_description v) in
  let descr := description_block full in
  let? url := dict_item v (u "url") in
  inr (caption_text title company salary descr url, logo).
End Rendering.

(** ** State and exceptions

    A computation takes a state and yields a value or an exception
    together with the state reached: what was written before an
    exception stays written. *)

Definition M (S A : Type) : Type := S -> result A * S.

Definition ret {S A} (a : A) : M S A := fun s => (inr a, s).

Definition bind {S A B} (m : M S A) (k : A -> M S B) : M S B :=
  fun s => match m s with
           | (inr a, s') => k a s'
           | (inl e, s') => (inl e, s')
           end.

Definition raise {S A} (e : exn) : M S A := fun s => (inl e, s).

Definition get_state {S} : M S S := fun s => (inr s, s).

Definition modify {S} (f : S -> S) : M S unit := fun s => (inr tt, f s).

(** [try: m  except Exception as e: h e] *)
Definition try_except {S A} (m : M S A) (h : exn -> M S A) : M S A :=
  fun s => match m s with
           | (inr a, s') => (inr a, s')
           | (inl e, s') => h e s'
           end.

(** [try: m  finally: f] *)
Definition try_finally {S A} (m : M S A) (f : M S unit) : M S A :=
  fun s => match m s with
           | (r, s') => match f s' with
                        | (inr _, s'') => (r, s'')
                        | (inl e, s'') => (inl e, s'')
                        end
           end.

Definition lift_result {S A} (r : result A) : M S A := fun s => (r, s).

Definition eval {S A} (m : M S A) (s : S) : result A := fst (m s).
Definition exec {S A} (m : M S A) (s : S) : S := snd (m s).

Declare Scope monad_scope.
Delimit Scope monad_scope with monad.
Notation "x <- m ;; k" := (bind m (fun x => k))
  (at level 61, m at next level, right associativity) : monad_scope.
Notation "m ;; k" := (bind m (fun _ => k))
  (at level 61, right associativity) : monad_scope.
Local Open Scope monad_scope.

(** ** The persistent store ([tg_users.db]) *)

Record setting_row := { s_user : Z; s_key : pystr; s_value : option pystr }.

(** [jobs_json] is kept decoded: the column holds [json.dumps] of this
    list and every reader applies [json.loads] to it. *)
Record pending_row := { p_user : Z; p_jobs : list json; p_cursor : Z }.

Record favorite_row := {
  f_user : Z; f_vacancy : Z; f_title : pystr; f_url : option pystr
}.

Record user_row := { u_chat : Z; u_settings_msg : option Z }.

Record token_row := { t_user : Z; t_access : pystr }.

Record Store := {
  users : list user_row;
  (** whether [users] already has the column [settings_msg_id] *)
  users_has_msg_col : bool;
  user_tokens : list token_row;
  user_settings : list setting_row;
  pending_jobs : list pending_row;
  user_favorites : list favorite_row
}.

Definition empty_store : Store :=
  {| users := []; users_has_msg_col := false; user_tokens := [];
     user_settings := []; pending_jobs := []; user_favorites := [] |}.

Definition with_settings (d : Store) (t : list setting_row) : Store :=
  {| users := users d; users_has_msg_col := users_has_msg_col d;
     user_tokens := user_tokens d; user_settings := t;
     pending_jobs := pending_jobs d; user_favorites := user_favorites d |}.

Definition with_pending (d : Store) (t : list pending_row) : Store :=
  {| users := users d; users_has_msg_col := users_has_msg_col d;
     user_tokens := user_tokens d; user_settings := user_settings d;
     pending_jobs := t; user_favorites := user_favorites d |}.

Definition with_favorites (d : Store) (t : list favorite_row) : Store :=
  {| users := users d; users_has_msg_col := users_has_msg_col d;
     user_tokens := user_tokens d; user_settings := user_settings d;
     pending_jobs := pending_jobs d; user_favorites := t |}.

Definition with_users (d : Store) (t : list user_row) (col : bool) : Store :=
  {| users := t; users_has_msg_col := col;
     user_tokens := user_tokens d; user_settings := user_settings d;
     pending_jobs := pending_jobs d; user_favorites := user_favorites d |}.

(** *** [settings_utils.py] *)

Definition setting_at (uid : Z) (key : pystr) (r : setting_row) : bool :=
  (s_user r =? uid) && pystr_eqb (s_key r) key.

(** [INSERT OR REPLACE INTO user_settings (tg_user, key, value)]: the rows
    in conflict on the primary key [(tg_user, key)] go, the new row is
    added. *)
Definition insert_or_replace_setting (uid : Z) (key : pystr) (value : option pystr)
    (t : list setting_row) : list setting_row :=
  filter (fun r => negb (setting_at uid key r)) t
    ++ [{| s_user := uid; s_key := key; s_value := value |}].

(** [SELECT value FROM user_settings WHERE tg_user = ? AND key = ?],
    [fetchone()], then [row[0] if row else None]. *)
Definition select_setting (uid : Z) (key : pystr) (t : list setting_row) : option pystr :=
  match find (setting_at uid key) t with
  | Some r => s_value r
  | None => None
  end.

Definition pending_key : pystr := u "pending".

Definition set_pending (tg_user : Z) (field : option pystr) : M Store unit :=
  modify (fun d => with_settings d
                     (insert_or_replace_setting tg_user pending_key field (user_settings d))).

Definition get_pending (tg_user : Z) : M Store (option pystr) :=
  d <- get_state ;; ret (select_setting tg_user pending_key (user_settings d)).

Definition save_user_setting (tg_user : Z) (key value : pystr) : M Store unit :=
  modify (fun d => with_settings d
                     (insert_or_replace_setting tg_user key (Some value) (user_settings d))).

Definition get_user_setting (tg_user : Z) (key : pystr) : M Store (option pystr) :=
  d <- get_state ;; ret (select_setting tg_user key (user_settings d)).

(** [x or ""] for an optional string. *)
Definition or_empty (x : option pystr) : pystr :=
  match x with Some s => s | None => [] end.

(** *** The other tables *)

(** [INSERT OR IGNORE INTO users(chat_id) VALUES (?)] *)
Definition ensure_user (uid : Z) : M Store unit :=
  modify (fun d =>
            if existsb (fun r => u_chat r =? uid) (users d) then d
            else with_users d (users d ++ [{| u_chat := uid; u_settings_msg := None |}])
                   (users_has_msg_col d)).

(** [get_user_token]: the access token, [None] without a row. *)
Definition get_user_token (tg_user : Z) : M Store (option pystr) :=
  d <- get_state ;;
  ret (option_map t_access (find (fun r => t_user r =? tg_user) (user_tokens d))).

Definition no_such_column : exn :=
  OperationalError (u "no such column: settings_msg_id").

Definition exn_text (e : exn) : pystr :=
  match e with
  | KeyError k => k
  | RuntimeError m | TelegramBadRequest m | OperationalError m | UpstreamError m => m
  | HTTPException _ m => m
  | _ => []
  end.

(** [SELECT settings_msg_id FROM users WHERE chat_id = ?] *)
Definition select_settings_msg_id (uid : Z) : M Store (option Z) :=
  d <- get_state ;;
  if users_has_msg_col d then
    ret (match find (fun r => u_chat r =? uid) (users d) with
         | Some r => u_settings_msg r
         | None => None
         end)
  else raise no_such_column.

(** [UPDATE users SET settings_msg_id = ? WHERE chat_id = ?] *)
Definition update_settings_msg_id (msg_id uid : Z) : M Store unit :=
  d <- get_state ;;
  if users_has_msg_col d then
    modify (fun d => with_users d
                       (map (fun r => if u_chat r =? uid
                                      then {| u_chat := uid; u_settings_msg := Some msg_id |}
                                      else r) (users d))
                       true)
  else raise no_such_column.

(** [ALTER TABLE users ADD COLUMN settings_msg_id INTEGER] *)
Definition add_settings_msg_column : M Store unit :=
  modify (fun d => with_users d (users d) true).

(** [INSERT INTO pending_jobs ... ON CONFLICT(tg_user) DO UPDATE SET
    jobs_json = excluded.jobs_json, cursor = 0], on the table. *)
Definition upsert_pending_row (uid : Z) (jobs : list json) (t : list pending_row)
  : list pending_row :=
  let fresh := {| p_user := uid; p_jobs := jobs; p_cursor := 0 |} in
  if existsb (fun r => p_user r =? uid) t
  then map (fun r => if p_user r =? uid then fresh else r) t
  else t ++ [fresh].

Definition upsert_pending_jobs (uid : Z) (jobs : list json) : M Store unit :=
  modify (fun d => with_pending d (upsert_pending_row uid jobs (pending_jobs d))).

(** [SELECT jobs_json, cursor FROM pending_jobs WHERE tg_user = ?] *)
Definition pending_row_of (t : list pending_row) (uid : Z) : option pending_row :=
  find (fun r => p_user r =? uid) t.

Definition select_pending_jobs (uid : Z) : M Store (option pending_row) :=
  d <- get_state ;; ret (pending_row_of (pending_jobs d) uid).

(** [UPDATE pending_jobs SET cursor = ? WHERE tg_user = ?], on the table. *)
Definition set_pending_cursor (cur uid : Z) (t : list pending_row)
  : list pending_row :=
  map (fun r => if p_user r =? uid
                then {| p_user := p_user r; p_jobs := p_jobs r; p_cursor := cur |}
                else r) t.

Definition update_pending_cursor (cur uid : Z) : M Store unit :=
  modify (fun d => with_pending d (set_pending_cursor cur uid (pending_jobs d))).

(** [DELETE FROM pending_jobs WHERE tg_user = ?], on the table. *)
Definition delete_pending_row (uid : Z) (t : list pending_row) : list pending_row :=
  filter (fun r => negb (p_user r =? uid)) t.

Definition delete_pending_jobs (uid : Z) : M Store unit :=
  modify (fun d => with_pending d (delete_pending_row uid (pending_jobs d))).

(** [SELECT vacancy_id, title, url FROM user_favorites WHERE tg_user = ?
    ORDER BY rowid DESC] *)
Definition select_favorites (uid : Z) : M Store (list (Z * pystr * option pystr)) :=
  d <- get_state ;;
  ret (rev (map (fun r => (f_vacancy r, f_title r, f_url r))
              (filter (fun r => f_user r =? uid) (user_favorites d)))).

(** [INSERT OR IGNORE INTO user_favorites(tg_user, vacancy_id, title, url)] *)
Definition insert_favorite (uid vac_id : Z) (title : pystr) (url : option pystr)
  : M Store unit :=
  modify (fun d =>
            if existsb (fun r => (f_user r =? uid) && (f_vacancy r =? vac_id))
                 (user_favorites d)
            then d
            else with_favorites d
                   (user_favorites d ++
                    [{| f_user := uid; f_vacancy := vac_id; f_title := title;
                        f_url := url |}])).

(** [DELETE FROM user_favorites WHERE tg_user = ? AND vacancy_id = ?] *)
Definition delete_favorite (uid fid : Z) : M Store unit :=
  modify (fun d => with_favorites d
                     (filter (fun r => negb ((f_user r =? uid) && (f_vacancy r =? fid)))
                        (user_favorites d))).

(** *** Settings helpers of [tg_register.py] *)

(** Python sets of strings, as duplicate-free lists. *)
Definition set_mem (x : pystr) (s : list pystr) : bool := existsb (pystr_eqb x) s.
Definition set_add (x : pystr) (s : list pystr) : list pystr :=
  if set_mem x s then s else s ++ [x].
Definition set_remove (x : pystr) (s : list pystr) : list pystr :=
  filter (fun y => negb (pystr_eqb x y)) s.
Definition set_of_list (l : list pystr) : list pystr :=
  fold_left (fun s x => set_add x s) l [].

Definition nonempty (s : pystr) : bool :=
  match s with [] => false | _ => true end.

(** [{v.strip() for v in curr.split(",") if v.strip()}] *)
Definition parse_multi (curr : pystr) : list pystr :=
  set_of_list (filter nonempty (map strip (split_comma curr))).

Section Settings.
Context `{PyLib}.

Definition toggle_multi_value (user_id : Z) (key value : pystr)
  : M Store (list pystr) :=
  stored <- get_user_setting user_id key ;;
  let curr := or_empty stored in
  let items := parse_multi curr in
  let items :=
    if set_mem value items then set_remove value items else set_add value items in
  save_user_setting user_id key (join_comma (set_iter items)) ;;
  ret items.
End Settings.

Definition jobs_page_key : pystr := u "jobs_page".

(** [int(x or 0)] for an optional stored string. *)
Definition int_or_zero (x : option pystr) : result Z :=
  match x with
  | None | Some [] => inr 0
  | Some s => match int_of_str s with
              | Some z => inr z
              | None => inl ValueError
              end
  end.

Definition next_jobs_page (uid : Z) : M Store Z :=
  stored <- get_user_setting uid jobs_page_key ;;
  curr <- lift_result (int_or_zero stored) ;;
  let new := if curr <? 19 then curr + 1 else 0 in
  save_user_setting uid jobs_page_key (str_of_int new) ;;
  ret curr.

(** ** The chat platform, the job board and the language model

    Everything outside the process is reached through requests.  The
    answers are not computed here: an environment gives them. *)

Record button := { b_text : pystr; b_callback : option pystr; b_url : option pystr }.

Definition markup := list (list button).

Definition cb_button (text data : pystr) : button :=
  {| b_text := text; b_callback := Some data; b_url := None |}.

Record entity := { e_type : pystr; e_url : option pystr }.

Record message := {
  message_id : Z;
  chat_id : Z;
  from_id : Z;
  text : option pystr;
  caption : option pystr;
  html_text : option pystr;
  caption_html : option pystr;
  entities : list entity;
  caption_entities : list entity
}.

Record callback_query := {
  cq_id : pystr;
  cq_from : Z;
  cq_data : pystr;
  cq_message : message
}.

(** [types.Update]: a button press, a message, or anything else. *)
Inductive update :=
| CallbackUpdate (call : callback_query)
| MessageUpdate (msg : message)
| OtherUpdate.

Inductive request :=
| SendMessage (chat : Z) (body : pystr) (reply_markup : option markup)
    (parse_mode : option pystr)
| SendPhoto (chat : Z) (photo : json) (body : pystr) (parse_mode : option pystr)
    (reply_markup : option markup)
| EditMessageText (body : pystr) (chat mid : Z) (reply_markup : option markup)
    (parse_mode : option pystr)
| EditMessageReplyMarkup (chat mid : Z) (reply_markup : option markup)
| EditMessageMedia (photo : json) (body : pystr) (chat mid : Z) (reply_markup : markup)
| DeleteMessage (chat mid : Z)
| AnswerCallbackQuery (id : pystr) (note : option pystr) (show_alert : bool)
| HhGetVacancies (token : option pystr) (keyword : pystr) (per_page page : Z)
| HhGetResumeText (token : option pystr) (resume_id : pystr)
| HhRespondToVacancy (token : option pystr) (vacancy_id : json) (resume_id : pystr)
    (cover_letter : pystr)
| HhAreaName (region : option pystr)
| BuildResumeKeyboard (uid : Z)
| FetchVacancies (uid : Z)
| MessagesCreate (model : pystr) (max_tokens : Z) (temperature_tenths : Z)
    (prompt : pystr)
| LogWarning (vacancy_id : json) (error : exn).

Inductive reply :=
| RNone
| RMessage (mid : Z)
| RJson (j : json)
| RText (s : pystr)
| RMarkup (m : markup).

(** *** Keyboards *)

(** [build_main_menu_keyboard()] *)
Definition build_main_menu_keyboard : markup :=
  [ [cb_button (u "🚀 Начать автоотклики (20)") (u "start_auto")];
    [cb_button (u "🕹 Ручной режим откликов") (u "start_manual")];
    [cb_button (u "⚙️ Настройка фильтров") (u "open_settings");
     cb_button (u "📄 Резюме") (u "open_resumes")];
    [cb_button (u "⭐️ Избранные вакансии") (u "open_favorites");
     cb_button (u "👁️ Мои фильтры") (u "show_filters")] ].

(** [build_settings_keyboard(with_back)] *)
Definition build_settings_keyboard (with_back : bool) : markup :=
  [ [cb_button (u "Регион") (u "filter_region");
     cb_button (u "График") (u "filter_schedule")];
    [cb_button (u "Формат работы") (u "filter_work_format");
     cb_button (u "ЗП") (u "filter_salary")];
    [cb_button (u "Тип занятости") (u "filter_employment_type");
     cb_button (u "Ключевое слово") (u "filter_keyword")] ]
  ++ (if with_back then [[cb_button (u "⬅️ В меню") (u "back_menu")]] else []).

Definition SCHEDULE_SUGGESTIONS : list pystr :=
  [u "полный день"; u "гибкий график"; u "сменный график"].
Definition WORK_FORMAT_SUGGESTIONS : list pystr :=
  [u "дистанционно"; u "офис"; u "гибрид"].
Definition EMPLOYMENT_TYPE_SUGGESTIONS : list pystr :=
  [u "полная"; u "частичная"; u "проектная"; u "стажировка"].

Definition MULTI_KEYS : list (pystr * list pystr) :=
  [ (u "schedule", SCHEDULE_SUGGESTIONS);
    (u "work_format", WORK_FORMAT_SUGGESTIONS);
    (u "employment_type", EMPLOYMENT_TYPE_SUGGESTIONS) ].

Fixpoint multi_key_values (keys : list (pystr * list pystr)) (k : pystr)
  : option (list pystr) :=
  match keys with
  | [] => None
  | (k', vs) :: r => if pystr_eqb k' k then Some vs else multi_key_values r k
  end.

(** [build_inline_suggestions(values, prefix, selected, with_back)] *)
Definition build_inline_suggestions (values : list pystr) (prefix : pystr)
    (selected : list pystr) (with_back : bool) : markup :=
  map (fun v => [cb_button ((if set_mem v selected then u "✅ " else []) ++ v)
                   (prefix ++ u "_" ++ v)]) values
  ++ (if with_back then [[cb_button (u "⬅️ Назад") (u "back_settings")]] else []).

(** The delete / previous / next row with a way back, as the favourites
    cards carry it. *)
Definition fav_keyboard (fid : Z) (back_label : pystr) : markup :=
  [ [cb_button (u "🗑 Удалить") (u "fav_del_" ++ str_of_int fid);
     cb_button (u "⬅️ Предыдущая") (u "fav_prev");
     cb_button (u "➡️ Следующая") (u "fav_next")];
    [cb_button back_label (u "back_menu")] ].

(** [build_fav_kb(fid)] *)
Definition build_fav_kb (fid : Z) : markup := fav_keyboard fid (u "↩️ Меню").

(** The card text of a favourite. *)
Definition fav_text (title : pystr) (url : option pystr) : pystr :=
  u "⭐️ <b>" ++ html_escape title ++ u "</b>" ++ [newline]
  ++ u "<a href='" ++ match url with Some s => s | None => u "None" end
  ++ u "'>Открыть на hh.ru</a>".

(** The process environment and the services behind the requests.
    [World] is whatever state those services have. *)
Class Env := {
  World : Type;
  respond : request -> World -> result reply * World;
  BOT_TOKEN : pystr;
  HH_CLIENT_ID : option pystr;
  REDIRECT_URI : option pystr
}.

(** Keys of the by-id cache: [str(v["id"])] and [int(v["id"])]. *)
Inductive idkey := KStr (s : pystr) | KInt (z : Z).

Definition idkey_eqb (a b : idkey) : bool :=
  match a, b with
  | KStr x, KStr y => pystr_eqb x y
  | KInt x, KInt y => x =? y
  | _, _ => false
  end.

Definition favorite := (Z * pystr * option pystr)%type.

(** [app.state]: the caches of the process. *)
Record AppState := {
  cursor : list (Z * list (pystr * Z));
  jobs_by_id : list (Z * list (idkey * json));
  jobs_cache : list (Z * list json);
  (** [None] until the attribute is first assigned *)
  favs_cache : option (list (Z * list favorite))
}.

Definition initial_app : AppState :=
  {| cursor := []; jobs_by_id := []; jobs_cache := []; favs_cache := None |}.

(** Dicts of the caches, as association lists. *)
Fixpoint assoc_get {K V} (eqb : K -> K -> bool) (m : list (K * V)) (k : K) : option V :=
  match m with
  | [] => None
  | (k', v) :: r => if eqb k' k then Some v else assoc_get eqb r k
  end.

Fixpoint assoc_set {K V} (eqb : K -> K -> bool) (m : list (K * V)) (k : K) (v : V)
  : list (K * V) :=
  match m with
  | [] => [(k, v)]
  | (k', v') :: r => if eqb k' k then (k, v) :: r else (k', v') :: assoc_set eqb r k v
  end.

Definition assoc_del {K V} (eqb : K -> K -> bool) (m : list (K * V)) (k : K)
  : list (K * V) :=
  filter (fun kv => negb (eqb (fst kv) k)) m.

(** [app.state.cursor.get(uid, {}).get(name, 0)] *)
Definition cursor_of (a : AppState) (uid : Z) (name : pystr) : Z :=
  match assoc_get Z.eqb (cursor a) uid with
  | Some d => match assoc_get pystr_eqb d name with Some c => c | None => 0 end
  | None => 0
  end.

(** [app.state.cursor.setdefault(uid, {})[name] = c] *)
Definition set_cursor (a : AppState) (uid : Z) (name : pystr) (c : Z) : AppState :=
  let d := match assoc_get Z.eqb (cursor a) uid with Some d => d | None => [] end in
  {| cursor := assoc_set Z.eqb (cursor a) uid (assoc_set pystr_eqb d name c);
     jobs_by_id := jobs_by_id a; jobs_cache := jobs_cache a;
     favs_cache := favs_cache a |}.

Definition set_jobs_cache (a : AppState) (uid : Z) (vs : list json) : AppState :=
  {| cursor := cursor a; jobs_by_id := jobs_by_id a;
     jobs_cache := assoc_set Z.eqb (jobs_cache a) uid vs;
     favs_cache := favs_cache a |}.

Definition set_jobs_by_id (a : AppState) (uid : Z) (d : list (idkey * json)) : AppState :=
  {| cursor := cursor a; jobs_by_id := assoc_set Z.eqb (jobs_by_id a) uid d;
     jobs_cache := jobs_cache a; favs_cache := favs_cache a |}.

Definition set_favs_cache (a : AppState) (c : option (list (Z * list favorite)))
  : AppState :=
  {| cursor := cursor a; jobs_by_id := jobs_by_id a; jobs_cache := jobs_cache a;
     favs_cache := c |}.

(** [l[i]] with Python's negative indices. *)
Definition list_index {A} (l : list A) (i : Z) : result A :=
  let j := if i <? 0 then len l + i else i in
  if j <? 0 then inl IndexError
  else match nth_error l (Z.to_nat j) with
       | Some x => inr x
       | None => inl IndexError
       end.

(** What a [for] loop over a JSON value visits. *)
Definition py_iter (x : json) : result (list json) :=
  match x with
  | JList l => inr l
  | JDict d => inr (map (fun kv => JStr (fst kv)) d)
  | JStr s => inr (map (fun c => JStr [c]) s)
  | _ => inl TypeError
  end.

(** [x[:n]] on a JSON value. *)
Definition py_slice_to (n : nat) (x : json) : result (list json) :=
  match x with
  | JList l => inr (firstn n l)
  | JStr s => inr (map (fun c => JStr [c]) (firstn n s))
  | _ => inl TypeError
  end.

Section Controller.
Context `{PyLib} `{Env}.

Record St := {
  db : Store;
  app : AppState;
  world : World;
  (** every request made so far, with its outcome *)
  trace : list (request * result reply)
}.

Definition initial_st (w : World) : St :=
  {| db := empty_store; app := initial_app; world := w; trace := [] |}.

(** Run a store operation inside a handler. *)
Definition on_db {A} (m : M Store A) : M St A :=
  fun st => match m (db st) with
            | (r, d) => (r, {| db := d; app := app st; world := world st;
                               trace := trace st |})
            end.

Definition get_app : M St AppState := fun st => (inr (app st), st).

Definition set_app (a : AppState) : M St unit :=
  fun st => (inr tt, {| db := db st; app := a; world := world st;
                        trace := trace st |}).

(** Send a request and record it with its outcome. *)
Definition perform (rq : request) : M St reply :=
  fun st => match respond rq (world st) with
            | (r, w) => (r, {| db := db st; app := app st; world := w;
                               trace := trace st ++ [(rq, r)] |})
            end.

(** [logger.warning("fail apply %s: %s", vacancy_id, e)] *)
Definition log_warning (vacancy_id : json) (e : exn) : M St unit :=
  fun st => (inr tt, {| db := db st; app := app st; world := world st;
                        trace := trace st ++ [(LogWarning vacancy_id e, inr RNone)] |}).

(** What a handler returns: [{"ok": True}], or nothing ([None]) when
    the function body ends without a [return]. *)
Inductive response := OkTrue | NoBody.

(** [build_job_kb(vac_id)] *)
Definition build_job_kb (vac_id : json) : markup :=
  [ [cb_button (u "✅ Откликнуться") (u "job_apply_" ++ py_str vac_id);
     cb_button (u "⭐️ В избранное") (u "job_fav_" ++ py_str vac_id)];
    [cb_button (u "⬅️ Предыдущая") (u "job_prev");
     cb_button (u "➡️ Следующая") (u "job_next")];
    [cb_button (u "↩️ Меню") (u "back_menu")] ].

Definition html_mode (html : bool) : option pystr :=
  if html then Some (u "HTML") else None.

(** The [message_id] of a sent message. *)
Definition sent_id (r : reply) : M St Z :=
  match r with
  | RMessage m => ret m
  | _ => raise AttributeError
  end.

(** *** [claude_client.py] *)

Definition MODEL : pystr := u "claude-3-haiku-20240307".

Definition cover_letter_prompt (vacancy resume : pystr) : pystr :=
  u "Ты – HR-ассистент. На основе описания вакансии и резюме кандидата "
  ++ u "напиши короткое (до 120 слов) сопроводительное письмо, подчеркивая "
  ++ u "релевантный опыт и мотивированность." ++ [newline; newline]
  ++ u "Описание вакансии:" ++ [newline] ++ vacancy ++ [newline; newline]
  ++ u "Резюме кандидата:" ++ [newline] ++ resume.

(** [resp.content[0]["text"].strip()], on what the request yields. *)
Definition cover_of_reply (r : reply) : result pystr :=
  match r with
  | RJson (JList (block :: _)) =>
      let? t := py_item block (u "text") in
      match t with
      | JStr s => inr (strip s)
      | _ => inl AttributeError
      end
  | RJson (JList []) => inl IndexError
  | _ => inl TypeError
  end.

Definition cover_letter_request (vacancy : json) (resume : pystr) : request :=
  MessagesCreate MODEL 300 3 (cover_letter_prompt (py_str vacancy) resume).

(** [generate_cover_letter(vacancy, resume)]: one request with
    [max_tokens=300] and [temperature=0.3]; the reply carries
    [resp.content]. *)
Definition generate_cover_letter (vacancy : json) (resume : pystr) : M St pystr :=
  r <- perform (cover_letter_request vacancy resume) ;;
  lift_result (cover_of_reply r).

(** *** Helpers of [tg_register.py] *)

(** [hh_api.HHApiClient(token) if token else hh_api.HHApiClient()] *)
Definition client_token (token : option pystr) : option pystr :=
  match token with
  | Some (c :: r) => Some (c :: r)
  | _ => None
  end.

Definition resume_key : pystr := u "resume".

Definition get_resume_summary (uid : Z) : M St pystr :=
  rid <- on_db (get_user_setting uid resume_key) ;;
  match rid with
  | None | Some [] => ret []
  | Some rid =>
      token <- on_db (get_user_token uid) ;;
      r <- perform (HhGetResumeText (client_token token) rid) ;;
      match r with
      | RText txt => ret (slice_to 1200 txt)
      | _ => raise TypeError
      end
  end.

Definition send_apply (uid : Z) (vacancy_id : json) (cover_letter : pystr)
  : M St unit :=
  token <- on_db (get_user_token uid) ;;
  resume_id <- on_db (get_user_setting uid resume_key) ;;
  match resume_id with
  | None | Some [] => raise (RuntimeError (u "Резюме не выбрано"))
  | Some resume_id =>
      perform (HhRespondToVacancy (client_token token) vacancy_id resume_id cover_letter) ;;
      ret tt
  end.

Definition not_modified : pystr := u "message is not modified".

Definition safe_edit_markup (m : message) (mk : option markup) : M St unit :=
  try_except
    (perform (EditMessageReplyMarkup (chat_id m) (message_id m) mk) ;; ret tt)
    (fun e => match e with
              | TelegramBadRequest err =>
                  if negb (contains err not_modified) then raise e else ret tt
              | _ => raise e
              end).

Definition safe_edit_text (m : message) (body : pystr) (mk : option markup)
    (html : bool) : M St unit :=
  try_except
    (perform (EditMessageText body (chat_id m) (message_id m) mk (html_mode html)) ;;
     ret tt)
    (fun e => match e with
              | TelegramBadRequest err =>
                  if negb (contains err not_modified) then raise e else ret tt
              | _ => raise e
              end).

Definition safe_edit_media (m : message) (photo_url : json) (body : pystr)
    (mk : markup) : M St unit :=
  try_except
    (perform (EditMessageMedia photo_url body (chat_id m) (message_id m) mk) ;; ret tt)
    (fun e => match e with
              | TelegramBadRequest err =>
                  if contains err not_modified then
                    safe_edit_text m body (Some mk) true
                  else if contains err (u "type of file")
                          || contains err (u "message content is not modified") then
                    perform (DeleteMessage (chat_id m) (message_id m)) ;;
                    perform (SendPhoto (chat_id m) photo_url body (Some (u "HTML"))
                            (Some mk)) ;;
                    ret tt
                  else raise e
              | _ => raise e
              end).

Definition get_settings_msg_id (uid : Z) : M St (option Z) :=
  try_except
    (on_db (select_settings_msg_id uid))
    (fun e => match e with
              | OperationalError err =>
                  if contains (lower err) (u "no such column") then
                    on_db add_settings_msg_column ;; ret None
                  else raise e
              | _ => raise e
              end).

Definition set_settings_msg_id (uid msg_id : Z) : M St unit :=
  try_except
    (on_db (update_settings_msg_id msg_id uid))
    (fun e => match e with
              | OperationalError err =>
                  if contains (lower err) (u "no such column") then
                    on_db add_settings_msg_column ;;
                    on_db (update_settings_msg_id msg_id uid)
                  else ret tt
              | _ => raise e
              end).

Definition safe_edit_text_by_id (uid : Z) (msg_id : option Z) (body : pystr)
    (mk : option markup) (html : bool) : M St unit :=
  match msg_id with
  | None =>
      r <- perform (SendMessage uid body mk None) ;;
      new_id <- sent_id r ;;
      set_settings_msg_id uid new_id
  | Some msg_id =>
      try_except
        (perform (EditMessageText body uid msg_id mk (html_mode html)) ;; ret tt)
        (fun e => match e with
                  | TelegramBadRequest err =>
                      if contains (lower err) (u "message to edit not found") then
                        r <- perform (SendMessage uid body mk None) ;;
                        new_id <- sent_id r ;;
                        set_settings_msg_id uid new_id
                      else if negb (contains (lower err) not_modified) then raise e
                      else ret tt
                  | _ => raise e
                  end)
  end.

Definition safe_delete (chat mid : Z) : M St unit :=
  try_except (perform (DeleteMessage chat mid) ;; ret tt) (fun _ => ret tt).

Definition answer_callback_query (id : pystr) (note : option pystr)
    (show_alert : bool) : M St unit :=
  perform (AnswerCallbackQuery id note show_alert) ;; ret tt.

Definition update_app (f : AppState -> AppState) : M St unit :=
  a <- get_app ;; set_app (f a).

Definition jobs_name : pystr := u "jobs".
Definition favs_name : pystr := u "favs".

(** One vacancy of [run_jobs], from a raw search item. *)
Definition normalize_vacancy (v : json) : result json :=
  let? snip1 := py_get v (u "snippet") (JDict []) in
  let? resp1 := py_get snip1 (u "responsibility") JNull in
  let resp_txt := py_or resp1 (JStr []) in
  let? snip2 := py_get v (u "snippet") (JDict []) in
  let? req1 := py_get snip2 (u "requirement") JNull in
  let req_txt := py_or req1 (JStr []) in
  let? stripped :=
    strip_html (JStr (strip (py_str resp_txt ++ newline :: py_str req_txt))) in
  let full_descr := match stripped with [] => u "нет описания" | _ => stripped end in
  let? id := py_item v (u "id") in
  let? name := py_item v (u "name") in
  let? url := py_item v (u "alternate_url") in
  let? salary := py_get v (u "salary") JNull in
  let? employer := py_get v (u "employer") JNull in
  inr (JDict [ (u "id", id); (u "name", name); (u "url", url);
               (u "salary", salary); (u "employer", employer);
               (u "snippet",
                JStr (if len full_descr >? 1200
                      then slice_to 1200 full_descr ++ ellipsis
                      else full_descr)) ]).

Fixpoint normalize_all (raw : list json) : result (list json) :=
  match raw with
  | [] => inr []
  | v :: r =>
      let? v' := normalize_vacancy v in
      let? r' := normalize_all r in
      inr (v' :: r')
  end.

(** [{str(v["id"]): v for v in vs}] *)
Fixpoint index_by_str (vs : list json) (acc : list (idkey * json))
  : result (list (idkey * json)) :=
  match vs with
  | [] => inr acc
  | v :: r =>
      let? id := py_item v (u "id") in
      index_by_str r (assoc_set idkey_eqb acc (KStr (py_str id)) v)
  end.

(** [{int(v["id"]): v for v in vs}] *)
Fixpoint index_by_int (vs : list json) (acc : list (idkey * json))
  : result (list (idkey * json)) :=
  match vs with
  | [] => inr acc
  | v :: r =>
      let? id := py_item v (u "id") in
      let? n := py_int id in
      index_by_int r (assoc_set idkey_eqb acc (KInt n) v)
  end.

(** [format_vacancy] applied to an arbitrary object. *)
Definition format_vacancy_of (job : json) : result (pystr * json) :=
  match job with
  | JDict d => format_vacancy d
  | _ => inl TypeError
  end.

(** Send a card: a photo with caption when there is a logo. *)
Definition send_card (uid : Z) (logo : json) (body : pystr) (kb : markup)
  : M St unit :=
  if truthy logo then
    perform (SendPhoto uid logo body (Some (u "HTML")) (Some kb)) ;; ret tt
  else
    perform (SendMessage uid body (Some kb) (Some (u "HTML"))) ;; ret tt.

Definition keyword_key : pystr := u "keyword".

Definition run_jobs (uid : Z) : M St unit :=
  token <- on_db (get_user_token uid) ;;
  page <- on_db (next_jobs_page uid) ;;
  keyword <- on_db (get_user_setting uid keyword_key) ;;
  r <- perform (HhGetVacancies (client_token token) (or_empty keyword) 20 page) ;;
  raw_vacs <- match r with
              | RJson body => lift_result (py_get body (u "items") (JList []))
              | _ => raise AttributeError
              end ;;
  if negb (truthy raw_vacs) then
    perform (SendMessage uid (u "По вашим фильтрам вакансий не найдено 😕") None None) ;;
    ret tt
  else
    items <- lift_result (py_iter raw_vacs) ;;
    vacancies <- lift_result (normalize_all items) ;;
    on_db (upsert_pending_jobs uid vacancies) ;;
    update_app (fun a => set_jobs_cache a uid vacancies) ;;
    by_str <- lift_result (index_by_str vacancies []) ;;
    by_id <- lift_result (index_by_int vacancies by_str) ;;
    update_app (fun a => set_jobs_by_id a uid by_id) ;;
    update_app (fun a => set_cursor a uid jobs_name 0) ;;
    first <- lift_result (list_index vacancies 0) ;;
    card <- lift_result (format_vacancy_of first) ;;
    first_id <- lift_result (py_item first (u "id")) ;;
    send_card uid (snd card) (fst card) (build_job_kb first_id).

Definition show_prev_job (call : callback_query) (uid : Z) : M St response :=
  a <- get_app ;;
  let jobs := match assoc_get Z.eqb (jobs_cache a) uid with
              | Some l => l | None => [] end in
  let cur := cursor_of a uid jobs_name in
  let cur := if cur >? 0 then cur - 1 else cur in
  update_app (fun a => set_cursor a uid jobs_name cur) ;;
  match jobs with
  | [] => answer_callback_query (cq_id call) (Some (u "Список пуст")) false ;;
          ret OkTrue
  | _ =>
      job <- lift_result (list_index jobs cur) ;;
      job_id <- lift_result (py_item job (u "id")) ;;
      let kb := build_job_kb job_id in
      card <- lift_result (format_vacancy_of job) ;;
      (if truthy (snd card)
       then safe_edit_media (cq_message call) (snd card) (fst card) kb
       else safe_edit_text (cq_message call) (fst card) (Some kb) true) ;;
      answer_callback_query (cq_id call) None false ;;
      ret OkTrue
  end.

Definition show_prev_fav (call : callback_query) (uid : Z) : M St response :=
  a <- get_app ;;
  match favs_cache a with
  | None => raise AttributeError
  | Some cache =>
      let favs := match assoc_get Z.eqb cache uid with
                  | Some l => l | None => [] end in
      let cur := cursor_of a uid favs_name in
      let cur := if cur >? 0 then cur - 1 else cur in
      update_app (fun a => set_cursor a uid favs_name cur) ;;
      match favs with
      | [] => answer_callback_query (cq_id call) (Some (u "Список пуст")) false ;;
              ret OkTrue
      | _ =>
          fav <- lift_result (list_index favs cur) ;;
          let '(fid, title, url) := fav in
          safe_edit_text (cq_message call) (fav_text title url)
            (Some (build_fav_kb fid)) true ;;
          answer_callback_query (cq_id call) None false ;;
          ret OkTrue
      end
  end.

Definition show_next_fav (call : callback_query) (uid : Z) : M St response :=
  a <- get_app ;;
  let cached := match favs_cache a with
                | Some cache => assoc_get Z.eqb cache uid
                | None => None
                end in
  (** [favs.pop(0)] changes the cached list itself *)
  let favs := match cached with Some l => tl l | None => [] end in
  match cached, favs_cache a with
  | Some (_ :: _), Some cache =>
      set_app (set_favs_cache a (Some (assoc_set Z.eqb cache uid favs)))
  | _, _ => ret tt
  end ;;
  match favs with
  | [] =>
      safe_edit_text (cq_message call) (u "⭐️ Избранное закончилось.") None false ;;
      answer_callback_query (cq_id call) (Some (u "Список пуст ✅")) false ;;
      a <- get_app ;;
      match favs_cache a with
      | None => raise AttributeError
      | Some cache =>
          set_app (set_favs_cache a (Some (assoc_del Z.eqb cache uid))) ;;
          ret OkTrue
      end
  | (fid, title, url) :: _ =>
      a <- get_app ;;
      match favs_cache a with
      | None => raise AttributeError
      | Some cache =>
          set_app (set_favs_cache a (Some (assoc_set Z.eqb cache uid favs))) ;;
          safe_edit_text (cq_message call) (fav_text title url)
            (Some (fav_keyboard fid (u "⬅️ Назад"))) true ;;
          answer_callback_query (cq_id call) None false ;;
          ret OkTrue
      end
  end.

(** [esc(v)] of [build_filters_summary] on a stored setting [or "—"]. *)
Definition esc_setting (x : option pystr) : pystr :=
  match x with
  | Some (c :: r) => html_escape (c :: r)
  | _ => u "—"
  end.

Definition build_filters_summary (uid : Z) : M St pystr :=
  region_raw <- on_db (get_user_setting uid (u "region")) ;;
  r <- perform (HhAreaName region_raw) ;;
  region <- match r with
            | RText (c :: t) => ret (html_escape (c :: t))
            | RText [] | RNone => ret (u "—")
            | RJson j => ret (if truthy j then html_escape (py_str j) else u "—")
            | _ => raise TypeError
            end ;;
  salary <- on_db (get_user_setting uid (u "salary")) ;;
  schedule <- on_db (get_user_setting uid (u "schedule")) ;;
  work_fmt <- on_db (get_user_setting uid (u "work_format")) ;;
  employ <- on_db (get_user_setting uid (u "employment_type")) ;;
  keyword <- on_db (get_user_setting uid keyword_key) ;;
  ret (u "<b>📋 Ваши действующие фильтры</b>" ++ [newline]
       ++ u "• Регион: " ++ region ++ [newline]
       ++ u "• ЗП ≥ " ++ esc_setting salary ++ [newline]
       ++ u "• График: " ++ esc_setting schedule ++ [newline]
       ++ u "• Формат работы: " ++ esc_setting work_fmt ++ [newline]
       ++ u "• Тип занятости: " ++ esc_setting employ ++ [newline]
       ++ u "• Ключевое слово: " ++ esc_setting keyword).

Definition build_oauth_url (tg_user : Z) : result pystr :=
  let client_id := match HH_CLIENT_ID with Some c => c | None => u "None" end in
  match REDIRECT_URI with
  | None => inl TypeError
  | Some rid =>
      inr (u "https://hh.ru/oauth/authorize?"
           ++ u "response_type=code&client_id=" ++ client_id
           ++ u "&redirect_uri=" ++ quote_plus rid
           ++ u "&state=" ++ str_of_int tg_user)
  end.

(** *** The webhook: button presses *)

Definition on_back_menu (call : callback_query) (uid : Z) : M St response :=
  try_except
    (perform (DeleteMessage uid (message_id (cq_message call))) ;; ret tt)
    (fun e => match e with TelegramBadRequest _ => ret tt | _ => raise e end) ;;
  smsg <- get_settings_msg_id uid ;;
  safe_edit_text_by_id uid smsg (u "📌 Главное меню:")
    (Some build_main_menu_keyboard) false ;;
  answer_callback_query (cq_id call) None false ;;
  ret OkTrue.

(** The loop of the [start_auto] branch, with its counter [sent]. *)
Fixpoint auto_apply_loop (uid : Z) (resume : pystr) (vacancies : list json)
    (sent : Z) : M St Z :=
  match vacancies with
  | [] => ret sent
  | v :: rest =>
      snippet <- lift_result (py_item v (u "snippet")) ;;
      vacancy <- (if truthy snippet then ret snippet
                  else lift_result (py_item v (u "name"))) ;;
      cover <- generate_cover_letter vacancy resume ;;
      sent <- try_except
                (id <- lift_result (py_item v (u "id")) ;;
                 send_apply uid id cover ;;
                 ret (sent + 1))
                (fun e =>
                   id <- lift_result (py_item v (u "id")) ;;
                   log_warning id e ;;
                   ret sent) ;;
      auto_apply_loop uid resume rest sent
  end.

Definition auto_report (sent : Z) : pystr :=
  u "🚀 Автоотклики отправлены: " ++ str_of_int sent ++ u "/20".

(** What [start_auto] does with the postings it has fetched: the loop,
    then the report. *)
Definition auto_apply_batch (uid : Z) (resume : pystr) (batch : list json)
  : M St response :=
  sent <- auto_apply_loop uid resume batch 0 ;;
  perform (SendMessage uid (auto_report sent) None None) ;;
  ret OkTrue.

(** [fetch_vacancies] has no definition in the sources at hand; its
    result is asked of the environment. *)
Definition on_start_auto (call : callback_query) (uid : Z) : M St response :=
  answer_callback_query (cq_id call) None false ;;
  r <- perform (FetchVacancies uid) ;;
  resume <- get_resume_summary uid ;;
  batch <- match r with
           | RJson vacancies => lift_result (py_slice_to 20 vacancies)
           | _ => raise TypeError
           end ;;
  auto_apply_batch uid resume batch.

Definition on_start_manual (call : callback_query) (uid : Z) : M St response :=
  answer_callback_query (cq_id call) None false ;;
  run_jobs uid ;;
  ret OkTrue.

Definition on_open_settings (call : callback_query) (uid : Z) : M St response :=
  smsg <- get_settings_msg_id uid ;;
  safe_edit_text_by_id uid smsg (u "Ваши фильтры:")
    (Some (build_settings_keyboard true)) false ;;
  answer_callback_query (cq_id call) None false ;;
  ret OkTrue.

(** [build_resume_keyboard] lives in [resume_utils], outside the
    sources at hand. *)
Definition on_open_resumes (call : callback_query) (uid : Z) : M St response :=
  r <- perform (BuildResumeKeyboard uid) ;;
  kb <- match r with
        | RMarkup m => ret (Some m)
        | RNone => ret None
        | _ => raise TypeError
        end ;;
  safe_edit_text (cq_message call) (u "📄 Ваши резюме:") kb false ;;
  ret OkTrue.

Definition on_open_favorites (call : callback_query) (uid : Z) : M St response :=
  favs <- on_db (select_favorites uid) ;;
  match favs with
  | [] =>
      answer_callback_query (cq_id call) (Some (u "Список пуст 🙂")) true ;;
      ret OkTrue
  | (fid, title, url) :: _ =>
      perform (DeleteMessage uid (message_id (cq_message call))) ;;
      perform (SendMessage uid (fav_text title url)
                         (Some (fav_keyboard fid (u "⬅️ Назад")))
                         (Some (u "HTML"))) ;;
      answer_callback_query (cq_id call) None false ;;
      update_app (fun a =>
                    let cache := match favs_cache a with
                                 | Some c => c | None => [] end in
                    set_favs_cache a (Some (assoc_set Z.eqb cache uid favs))) ;;
      ret OkTrue
  end.

(** [int(data.split("_")[-1])] *)
Definition trailing_int (data : pystr) : result Z :=
  match int_of_str (after_last_underscore data) with
  | Some z => inr z
  | None => inl ValueError
  end.

Definition on_fav_del (call : callback_query) (uid : Z) : M St response :=
  fid <- lift_result (trailing_int (cq_data call)) ;;
  on_db (delete_favorite uid fid) ;;
  a <- get_app ;;
  let favs := match favs_cache a with
              | Some cache => match assoc_get Z.eqb cache uid with
                              | Some l => l | None => [] end
              | None => []
              end in
  let favs := filter (fun f => negb (fst (fst f) =? fid)) favs in
  match favs_cache a with
  | None => raise AttributeError
  | Some cache => set_app (set_favs_cache a (Some (assoc_set Z.eqb cache uid favs)))
  end ;;
  answer_callback_query (cq_id call) (Some (u "Удалено")) false ;;
  show_next_fav call uid.

Definition on_show_filters (call : callback_query) (uid : Z) : M St response :=
  summary <- build_filters_summary uid ;;
  safe_edit_text (cq_message call) summary
    (Some [[cb_button (u "⬅️ В меню") (u "back_menu")]]) true ;;
  answer_callback_query (cq_id call) None false ;;
  ret OkTrue.

Definition on_back_settings (call : callback_query) (uid : Z) : M St response :=
  smsg <- get_settings_msg_id uid ;;
  safe_edit_text_by_id uid smsg (u "Ваши фильтры:")
    (Some (build_settings_keyboard true)) false ;;
  answer_callback_query (cq_id call) None false ;;
  ret OkTrue.

Definition ask_for (call : callback_query) (uid : Z) (field prompt : pystr)
  : M St response :=
  on_db (set_pending uid (Some field)) ;;
  safe_edit_text (cq_message call) prompt None false ;;
  ret OkTrue.

(** The [filter_...] block; [None] when it ends without returning. *)
Definition on_filter (call : callback_query) (uid : Z) : M St (option response) :=
  match after_first_underscore (cq_data call) with
  | None => raise IndexError
  | Some fkey =>
      if pystr_eqb fkey (u "region") then
        r <- ask_for call uid (u "region") (u "Введите название региона:") ;;
        ret (Some r)
      else if pystr_eqb fkey (u "salary") then
        r <- ask_for call uid (u "salary") (u "Введите минимальную зарплату (число):") ;;
        ret (Some r)
      else if pystr_eqb fkey (u "keyword") then
        r <- ask_for call uid (u "keyword") (u "Введите ключевое слово:") ;;
        ret (Some r)
      else match multi_key_values MULTI_KEYS fkey with
           | Some values =>
               selection <- on_db (get_user_setting uid fkey) ;;
               let sel_set := parse_multi (or_empty selection) in
               safe_edit_text (cq_message call)
                 (u "Выберите " ++ underscores_to_spaces fkey
                  ++ u " (можно несколько):")
                 (Some (build_inline_suggestions values (fkey ++ u "_suggest")
                          sel_set true))
                 false ;;
               ret (Some OkTrue)
           | None => ret None
           end
  end.

(** The first multi-value key [m] with [data.startswith(f"{m}_suggest_")]. *)
Fixpoint multi_suggest (keys : list (pystr * list pystr)) (data : pystr)
  : option (pystr * list pystr * pystr) :=
  match keys with
  | [] => None
  | (m, values) :: r =>
      let prefix := m ++ u "_suggest_" in
      if startswith data prefix
      then Some (m, values, skipn (List.length prefix) data)
      else multi_suggest r data
  end.

Definition on_multi_suggest (call : callback_query) (uid : Z)
    (m : pystr) (values : list pystr) (val : pystr) : M St response :=
  sel_set <- on_db (toggle_multi_value uid m val) ;;
  safe_edit_markup (cq_message call)
    (Some (build_inline_suggestions values (m ++ u "_suggest") sel_set true)) ;;
  answer_callback_query (cq_id call) (Some (u "✓")) false ;;
  ret OkTrue.

(** The stored region is the text of the number: the column is [TEXT]. *)
Definition on_region_suggest (call : callback_query) (uid : Z) : M St response :=
  area_id <- lift_result (trailing_int (cq_data call)) ;;
  on_db (save_user_setting uid (u "region") (str_of_int area_id)) ;;
  safe_edit_markup (cq_message call) None ;;
  answer_callback_query (cq_id call) (Some (u "Сохранено")) false ;;
  ret OkTrue.

Definition on_select_resume (call : callback_query) (uid : Z) : M St response :=
  on_db (save_user_setting uid resume_key (after_last_underscore (cq_data call))) ;;
  answer_callback_query (cq_id call) (Some (u "Резюме сохранено")) false ;;
  ret OkTrue.

Definition on_find_jobs (call : callback_query) (uid : Z) : M St response :=
  answer_callback_query (cq_id call) None false ;;
  perform
    (SendMessage uid
       (u "Окей! Нажмите /jobs, чтобы получить список вакансий по вашим фильтрам.")
       None None) ;;
  ret OkTrue.

(** The [while] loop of [job_next] that steps over entries that are
    not dicts; [fuel] bounds the number of steps. *)
Fixpoint skip_non_dicts (fuel : nat) (jobs : list json) (cur : Z) : result Z :=
  match fuel with
  | O => inr cur
  | S f =>
      if cur <? len jobs then
        let? job := list_index jobs cur in
        if negb (is_dict job) then skip_non_dicts f jobs (cur + 1) else inr cur
      else inr cur
  end.

Definition jobs_exhausted (call : callback_query) (uid : Z) : M St response :=
  answer_callback_query (cq_id call) (Some (u "Вакансии закончились ✅")) false ;;
  safe_edit_markup (cq_message call) None ;;
  on_db (delete_pending_jobs uid) ;;
  ret OkTrue.

Definition on_job_next (call : callback_query) (uid : Z) : M St response :=
  row <- on_db (select_pending_jobs uid) ;;
  match row with
  | None =>
      answer_callback_query (cq_id call) (Some (u "Список пуст.")) false ;;
      ret OkTrue
  | Some row =>
      let jobs := p_jobs row in
      let cur := p_cursor row + 1 in
      update_app (fun a => set_cursor a uid jobs_name cur) ;;
      if cur >=? len jobs then jobs_exhausted call uid
      else
        on_db (update_pending_cursor cur uid) ;;
        cur <- lift_result (skip_non_dicts (Z.to_nat (len jobs - cur)) jobs cur) ;;
        if cur >=? len jobs then jobs_exhausted call uid
        else
          on_db (update_pending_cursor cur uid) ;;
          update_app (fun a => set_cursor a uid jobs_name cur) ;;
          job <- lift_result (list_index jobs cur) ;;
          card <- lift_result (format_vacancy_of job) ;;
          job_id <- lift_result (py_item job (u "id")) ;;
          perform (DeleteMessage uid (message_id (cq_message call))) ;;
          send_card uid (snd card) (fst card) (build_job_kb job_id) ;;
          answer_callback_query (cq_id call) None false ;;
          ret OkTrue
  end.

(** The fallback scan of [job_apply_]: the first cached vacancy with
    [str(j["id"]) == vac_id]. *)
Fixpoint scan_jobs (jobs : list json) (vac_id : pystr) : result json :=
  match jobs with
  | [] => inr JNull
  | j :: r =>
      let? id := py_item j (u "id") in
      if pystr_eqb (py_str id) vac_id then inr j else scan_jobs r vac_id
  end.

Definition on_job_apply (call : callback_query) (uid : Z) : M St response :=
  let vac_id := after_last_underscore (cq_data call) in
  a <- get_app ;;
  let store := match assoc_get Z.eqb (jobs_by_id a) uid with
               | Some d => d | None => [] end in
  let job := match assoc_get idkey_eqb store (KStr vac_id) with
             | Some j => j | None => JNull end in
  job <- (if negb (truthy job) then
            lift_result
              (let? found :=
                 scan_jobs (match assoc_get Z.eqb (jobs_cache a) uid with
                            | Some l => l | None => [] end) vac_id in
               inr (match found with JNull => job | _ => found end))
          else ret job) ;;
  if negb (truthy job) then
    answer_callback_query (cq_id call) (Some (u "⛔️ Вакансия не найдена")) false ;;
    ret OkTrue
  else
    snippet <- lift_result (py_item job (u "snippet")) ;;
    vacancy_text <- (if truthy snippet then ret snippet
                     else lift_result (py_item job (u "name"))) ;;
    resume_text <- get_resume_summary uid ;;
    cover <- generate_cover_letter vacancy_text resume_text ;;
    send_apply uid (JStr vac_id) cover ;;
    answer_callback_query (cq_id call) (Some (u "🔔 Отклик + письмо отправлены!")) false ;;
    ret OkTrue.

(** [a or b] on optional strings. *)
Definition or_str (a b : option pystr) : option pystr :=
  match a with
  | Some (c :: r) => a
  | _ => b
  end.

Definition on_job_fav (call : callback_query) (uid : Z) : M St response :=
  vac_id <- lift_result (trailing_int (cq_data call)) ;;
  let m := cq_message call in
  let content_html :=
    or_empty (or_str (or_str (or_str (html_text m) (caption_html m)) (text m))
                (caption m)) in
  let title :=
    remove_all (u "</b>") (remove_all (u "<b>") (first_line content_html)) in
  let ents := match entities m with
              | [] => caption_entities m
              | es => es
              end in
  let url_ent := find (fun e => pystr_eqb (e_type e) (u "text_link")) ents in
  on_db (insert_favorite uid vac_id title
           (match url_ent with Some e => e_url e | None => Some [] end)) ;;
  answer_callback_query (cq_id call) (Some (u "⭐️ Добавлено в избранное")) false ;;
  ret OkTrue.

(** The rest of the callback chain after the [filter_...] block. *)
Definition on_callback_rest (call : callback_query) (uid : Z)
  : M St (option response) :=
  let data := cq_data call in
  match multi_suggest MULTI_KEYS data with
  | Some (m, values, val) =>
      r <- on_multi_suggest call uid m values val ;; ret (Some r)
  | None =>
      if startswith data (u "region_suggest_") then
        r <- on_region_suggest call uid ;; ret (Some r)
      else if startswith data (u "select_resume_") then
        r <- on_select_resume call uid ;; ret (Some r)
      else if pystr_eqb data (u "find_jobs") then
        r <- on_find_jobs call uid ;; ret (Some r)
      else if pystr_eqb data (u "job_prev") then
        r <- show_prev_job call uid ;; ret (Some r)
      else if pystr_eqb data (u "job_next") then
        r <- on_job_next call uid ;; ret (Some r)
      else if startswith data (u "job_apply_") then
        r <- on_job_apply call uid ;; ret (Some r)
      else if startswith data (u "job_fav_") then
        r <- on_job_fav call uid ;; ret (Some r)
      else ret None
  end.

(** The callback branch of [telegram_webhook]; [None] when no branch
    returned. *)
Definition on_callback (call : callback_query) : M St (option response) :=
  let uid := cq_from call in
  let data := cq_data call in
  on_db (ensure_user uid) ;;
  if pystr_eqb data (u "back_menu") then
    r <- on_back_menu call uid ;; ret (Some r)
  else if pystr_eqb data (u "start_auto") then
    r <- on_start_auto call uid ;; ret (Some r)
  else if pystr_eqb data (u "start_manual") then
    r <- on_start_manual call uid ;; ret (Some r)
  else if pystr_eqb data (u "open_settings") then
    r <- on_open_settings call uid ;; ret (Some r)
  else if pystr_eqb data (u "open_resumes") then
    r <- on_open_resumes call uid ;; ret (Some r)
  else if pystr_eqb data (u "open_favorites") then
    r <- on_open_favorites call uid ;; ret (Some r)
  else if pystr_eqb data (u "fav_prev") then
    r <- show_prev_fav call uid ;; ret (Some r)
  else if pystr_eqb data (u "fav_next") then
    r <- show_next_fav call uid ;; ret (Some r)
  else if startswith data (u "fav_del_") then
    r <- on_fav_del call uid ;; ret (Some r)
  else if startswith data (u "fav_del_") then
    (** the second [fav_del_] test of the source: never reached *)
    r <- on_fav_del call uid ;; ret (Some r)
  else if pystr_eqb data (u "show_filters") then
    r <- on_show_filters call uid ;; ret (Some r)
  else if pystr_eqb data (u "back_settings") then
    r <- on_back_settings call uid ;; ret (Some r)
  else if startswith data (u "filter_") then
    r <- on_filter call uid ;;
    match r with
    | Some r => ret (Some r)
    | None => on_callback_rest call uid
    end
  else on_callback_rest call uid.

(** *** The webhook: text messages *)

Definition intro : pystr :=
  u "<b>👋 Добро пожаловать!</b>" ++ [newline; newline]
  ++ u "Этот бот автоматически откликается на подходящие вакансии hh.ru по вашим фильтрам. "
  ++ u "Настройте регион, зарплату, график и выберите резюме — остальное я сделаю сам.".

Definition on_start (uid : Z) : M St response :=
  on_db (set_pending uid None) ;;
  token <- on_db (get_user_token uid) ;;
  match token with
  | None =>
      url <- lift_result (build_oauth_url uid) ;;
      perform
        (SendMessage uid
           (intro ++ [newline; newline]
            ++ u "<b>Шаг 1.</b> Нажмите кнопку ниже и дайте боту доступ к вашему аккаунту hh.ru.")
           (Some [[{| b_text := u "🚀 Начать автоотклики"; b_callback := None;
                      b_url := Some url |}]])
           (Some (u "HTML"))) ;;
      ret OkTrue
  | Some _ =>
      r <- perform
             (SendMessage uid
                (u "✅ Вы уже авторизованы." ++ [newline; newline] ++ intro)
                (Some build_main_menu_keyboard) (Some (u "HTML"))) ;;
      menu_id <- sent_id r ;;
      set_settings_msg_id uid menu_id ;;
      ret OkTrue
  end.

Definition on_jobs (uid : Z) : M St response :=
  on_db (set_pending uid None) ;;
  run_jobs uid ;;
  ret OkTrue.

Definition on_menu (uid : Z) : M St response :=
  on_db (set_pending uid None) ;;
  r <- perform (SendMessage uid (u "📌 Главное меню:")
                  (Some build_main_menu_keyboard) None) ;;
  menu_id <- sent_id r ;;
  set_settings_msg_id uid menu_id ;;
  ret OkTrue.

(** The [finally] clause: [if pending: await safe_delete(msg)].  The
    target is what [msg] names at that moment; [None] when that object
    has no identifiers and [msg.delete()] fails inside [safe_delete]. *)
Definition delete_on_exit (pending : option pystr) (target : option (Z * Z))
  : M St unit :=
  match pending with
  | Some (_ :: _) =>
      match target with
      | Some (chat, mid) => safe_delete chat mid
      | None => ret tt
      end
  | _ => ret tt
  end.

(** [/settings] rebinds [msg] to the message it has just sent, so from
    then on the [finally] clause deletes that one. *)
Definition on_settings (uid : Z) (pending : option pystr) (msg : message)
  : M St response :=
  r <- try_except
         (on_db (set_pending uid None) ;;
          perform (SendMessage uid (u "Ваши фильтры:")
                     (Some (build_settings_keyboard true)) None))
         (fun e =>
            delete_on_exit pending (Some (chat_id msg, message_id msg)) ;;
            raise e) ;;
  try_finally
    (new_id <- sent_id r ;;
     set_settings_msg_id uid new_id ;;
     ret OkTrue)
    (delete_on_exit pending
       (match r with RMessage new_id => Some (uid, new_id) | _ => None end)).

Definition store_pending_input (uid : Z) (key value : pystr) : M St response :=
  on_db (save_user_setting uid key value) ;;
  on_db (set_pending uid None) ;;
  msg_id <- get_settings_msg_id uid ;;
  safe_edit_text_by_id uid msg_id (u "Ваши фильтры:")
    (Some (build_settings_keyboard true)) false ;;
  ret OkTrue.

Definition pending_is (pending : option pystr) (field : pystr) : bool :=
  match pending with
  | Some p => pystr_eqb p field
  | None => false
  end.

(** The tests that follow the command block. *)
Definition on_pending_input (uid : Z) (pending : option pystr) (txt : pystr)
  : M St response :=
  if pending_is pending (u "region") then store_pending_input uid (u "region") txt
  else if pending_is pending (u "salary") && isdigit txt then
    store_pending_input uid (u "salary") txt
  else if pending_is pending (u "keyword") then
    store_pending_input uid (u "keyword") txt
  else ret NoBody.

Definition slash : N := 47.

(** The text branch of [telegram_webhook], for a message with text
    [raw]. *)
Definition on_text (msg : message) (raw : pystr) : M St response :=
  let uid := from_id msg in
  let txt := strip raw in
  pending <- on_db (get_pending uid) ;;
  on_db (ensure_user uid) ;;
  let cleanup := delete_on_exit pending (Some (chat_id msg, message_id msg)) in
  if startswith txt [slash] then
    if pystr_eqb txt (u "/start") then try_finally (on_start uid) cleanup
    else if pystr_eqb txt (u "/jobs") then try_finally (on_jobs uid) cleanup
    else if pystr_eqb txt (u "/menu") then try_finally (on_menu uid) cleanup
    else if pystr_eqb txt (u "/settings") then on_settings uid pending msg
    else try_finally (on_pending_input uid pending txt) cleanup
  else try_finally (on_pending_input uid pending txt) cleanup.

(** [telegram_webhook(request, token)], on the parsed update. *)
Definition telegram_webhook (token : pystr) (upd : update) : M St response :=
  if negb (pystr_eqb token BOT_TOKEN) then
    raise (HTTPException 403 (u "Invalid token"))
  else
    match upd with
    | CallbackUpdate call =>
        r <- on_callback call ;;
        match r with
        | Some r => ret r
        | None => ret NoBody
        end
    | MessageUpdate msg =>
        match text msg with
        | Some (c :: r) => on_text msg (c :: r)
        | _ => ret NoBody
        end
    | OtherUpdate => ret NoBody
    end.
End Controller.

(** * Sample surroundings

    Concrete library functions and services, used where a property is
    run on an example. *)

Module Sample.

(** Lines of at most [width] characters: what [textwrap.wrap] gives for
  text without whitespace or hyphens. *)
Fixpoint chunks (fuel width : nat) (s : pystr) : list pystr :=
match fuel, s with
| _, [] => []
| O, _ => [s]
| S f, _ => firstn width s :: chunks f width (skipn width s)
end.

Definition lib : PyLib :=
{| repr_str := fun s => 39%N :: s ++ [39%N];
   textwrap_wrap := fun s width => chunks (List.length s) width s;
   unicode_digit := fun _ => false;
   unicode_lower := fun c => [c];
   quote_plus := fun s => s;
   set_iter := fun l => l;
   set_iter_perm := fun l => Permutation_refl l |}.

(** Services that answer by a fixed policy; the world counts requests. *)
Definition env (policy : request -> nat -> result reply) : Env :=
{| World := nat;
   respond := fun rq n => (policy rq n, S n);
   BOT_TOKEN := u "4242:token";
   HH_CLIENT_ID := Some (u "client");
   REDIRECT_URI := Some (u "https://example.org/cb") |}.

Definition letter : json :=
JList [JDict [(u "text", JStr (u " Здравствуйте! ")); (u "type", JStr (u "text"))]].

(** Everything succeeds. *)
Definition all_well (rq : request) (n : nat) : result reply :=
match rq with
| SendMessage _ _ _ _ | SendPhoto _ _ _ _ _ => inr (RMessage (1000 + Z.of_nat n))
| MessagesCreate _ _ _ _ => inr (RJson letter)
| HhGetResumeText _ _ => inr (RText (u "Инженер, 5 лет опыта"))
| HhAreaName _ => inr (RText (u "Москва"))
| HhGetVacancies _ _ _ _ => inr (RJson (JDict [(u "items", JList [])]))
| FetchVacancies _ => inr (RJson (JList []))
| BuildResumeKeyboard _ => inr (RMarkup [])
| _ => inr RNone
end.

Definition posting (n : Z) : json :=
JDict [ (u "id", JStr (str_of_int n));
        (u "name", JStr (u "Инженер " ++ str_of_int n));
        (u "url", JStr (u "https://hh.ru/vacancy/" ++ str_of_int n));
        (u "salary", JNull);
        (u "employer", JNull);
        (u "snippet", JStr (u "Описание " ++ str_of_int n)) ].

(** Twenty postings, numbered 1 to 20. *)
Definition postings20 : list json :=
map (fun i => posting (Z.of_nat i)) (seq 1 20).

(** The job board refuses the applications to postings 3, 7 and 11. *)
Definition three_refused (rq : request) (n : nat) : result reply :=
match rq with
| HhRespondToVacancy _ (JStr id) _ _ =>
    if existsb (pystr_eqb id) [u "3"; u "7"; u "11"]
    then inl (UpstreamError (u "already applied"))
    else inr RNone
| _ => all_well rq n
end.

(** The language model fails on the letter for posting 3. *)
Definition model_down_for_third (rq : request) (n : nat) : result reply :=
match rq with
| MessagesCreate _ _ _ prompt =>
    if contains prompt (u "Описание 3" ++ [newline])
    then inl (UpstreamError (u "overloaded"))
    else inr (RJson letter)
| FetchVacancies _ => inr (RJson (JList postings20))
| _ => all_well rq n
end.

(** The fetch for [start_auto] yields the twenty postings; the job board
  refuses three of the applications. *)
Definition twenty_three_refused (rq : request) (n : nat) : result reply :=
match rq with
| FetchVacancies _ => inr (RJson (JList postings20))
| _ => three_refused rq n
end.

(** A raw search item, as the job board sends it. *)
Definition raw_item : json :=
JDict [ (u "id", JStr (u "501"));
        (u "name", JStr (u "Инженер"));
        (u "alternate_url", JStr (u "https://hh.ru/vacancy/501"));
        (u "salary", JDict [(u "from", JInt 100); (u "to", JInt 200);
                            (u "currency", JStr (u "RUR"))]);
        (u "employer", JDict [(u "name", JStr (u "ООО Ромашка"))]);
        (u "snippet", JDict [(u "responsibility", JStr (u "Писать <b>код</b>"));
                             (u "requirement", JStr (u "Опыт"))]) ].

(** The search finds exactly one posting. *)
Definition one_found (rq : request) (n : nat) : result reply :=
match rq with
| HhGetVacancies _ _ _ _ => inr (RJson (JDict [(u "items", JList [raw_item])]))
| _ => all_well rq n
end.

(** A store in which user 7 has chosen a resume. *)
Definition store_with_resume : Store :=
exec (save_user_setting 7 (u "resume") (u "r-1")) empty_store.

(** The state of a fresh process over the store [d]. *)
Definition start (policy : request -> nat -> result reply) (d : Store)
: @St (env policy) :=
@Build_St (env policy) d initial_app 0%nat [].

Definition some_message (mid uid : Z) (body : option pystr) : message :=
{| message_id := mid; chat_id := uid; from_id := uid; text := body;
   caption := None; html_text := body; caption_html := None;
   entities := []; caption_entities := [] |}.

Definition text_update (uid : Z) (body : pystr) : update :=
MessageUpdate (some_message 9 uid (Some body)).

(** A user for whom the field [field] is awaited. *)
Definition store_awaiting (uid : Z) (field : pystr) : Store :=
exec (set_pending uid (Some field)) empty_store.

Definition press (uid : Z) (data : pystr) : callback_query :=
{| cq_id := u "cb-1"; cq_from := uid; cq_data := data;
   cq_message := some_message 55 uid (Some (u "card")) |}.

(** The webhook with the sample library and services. *)
Definition webhook (policy : request -> nat -> result reply) (upd : update)
  (st : @St (env policy)) : result response * @St (env policy) :=
@telegram_webhook lib (env policy) (u "4242:token") upd st.

(** User 7 sends /jobs to a fresh process that finds one posting. *)
Definition after_jobs : @St (env one_found) :=
snd (webhook one_found (text_update 7 (u "/jobs")) (start one_found empty_store)).

(** A description of [n] letters. *)
Definition plain_description (n : nat) : pystr := repeat 97%N n.

Definition vacancy_described (d : pystr) : pydict :=
[ (u "id", JStr (u "1")); (u "name", JStr (u "Инженер"));
  (u "url", JStr (u "https://hh.ru/vacancy/1")); (u "snippet", JStr d) ].

End Sample.

(** * Vocabulary of the properties *)

Definition digit_char (c : N) : Prop := (48 <= c <= 57)%N.

(** The rows of [user_settings] for one [(user, key)] pair. *)
Definition setting_rows (d : Store) (uid : Z) (key : pystr) : list setting_row :=
  filter (setting_at uid key) (user_settings d).

(** The number [next_jobs_page] reads: [int(stored or 0)]. *)
Definition jobs_page_counter (d : Store) (uid : Z) : result Z :=
  int_or_zero (select_setting uid jobs_page_key (user_settings d)).

(** [n] successive calls of [next_jobs_page], with the pages returned. *)
Fixpoint next_jobs_pages (n : nat) (uid : Z) : M Store (list Z) :=
  match n with
  | O => ret []
  | S n' =>
      p <- next_jobs_page uid ;;
      ps <- next_jobs_pages n' uid ;;
      ret (p :: ps)
  end.

Definition salary_of (fr to cur : json) : json :=
  JDict [(u "from", fr); (u "to", to); (u "currency", cur)].

Definition placeholder : pystr := u "не указана".

(** A bound the salary line treats as absent: missing or equal to 0. *)
Definition zero_or_absent (d : pydict) (k : pystr) : Prop :=
  dict_lookup d k = None \/ dict_lookup d k = Some (JInt 0).

(** Text without [<] has no tag to remove. *)
Definition plain_text (s : pystr) : Prop := Forall (fun c => c <> lt_sign) s.

Definition comma_free (s : pystr) : Prop := Forall (fun c => c <> comma) s.

(** No whitespace at either end. *)
Definition stripped (s : pystr) : Prop := strip s = s.

Definition head_ok (s : pystr) : Prop :=
  match s with
  | [] => True
  | c :: _ => is_space c = false
  end.

(** What [parse_multi] keeps of a list of pieces. *)
Definition kept (pieces : list pystr) : list pystr :=
  filter nonempty (map strip pieces).

Definition same_set (a b : list pystr) : Prop := forall x, In x a <-> In x b.

(** The members of a parsed set are clean: not empty, without commas and
    without surrounding whitespace. *)
Definition clean (x : pystr) : Prop := x <> [] /\ comma_free x /\ stripped x.

(** The set of selected values stored for a multi-value key. *)
Definition selected (d : Store) (uid : Z) (key : pystr) : list pystr :=
  parse_multi (or_empty (select_setting uid key (user_settings d))).

(** The toggle itself, on a set. *)
Definition toggled (value : pystr) (items : list pystr) : list pystr :=
  if set_mem value items then set_remove value items else set_add value items.

(** ** Vocabulary of the auto-apply batch *)

Definition event := (request * result reply)%type.

Definition has_key (v : json) (k : pystr) : bool :=
  match v with
  | JDict d => match dict_lookup d k with Some _ => true | None => false end
  | _ => false
  end.

(** A posting the loop can read: a dict with the keys it subscripts. *)
Definition readable (v : json) : bool :=
  has_key v (u "snippet") && has_key v (u "name") && has_key v (u "id").

Definition field (v : json) (k : pystr) : json :=
  match py_item v k with inr x => x | inl _ => JNull end.

(** [v["snippet"] or v["name"]] *)
Definition letter_subject (v : json) : json :=
  if truthy (field v (u "snippet")) then field v (u "snippet") else field v (u "name").

(** The resume [send_apply] finds chosen, if any. *)
Definition chosen_resume (d : Store) (uid : Z) : option pystr :=
  match select_setting uid resume_key (user_settings d) with
  | Some (c :: r) => Some (c :: r)
  | _ => None
  end.

Definition token_of (d : Store) (uid : Z) : option pystr :=
  option_map t_access (find (fun r => t_user r =? uid) (user_tokens d)).

(** What the generator makes of the language model's answer. *)
Definition letter_of (g : result reply) : result pystr :=
  match g with
  | inl e => inl e
  | inr r => cover_of_reply r
  end.

Definition successes (flags : list bool) : Z :=
  Z.of_nat (List.length (filter (fun b => b) flags)).

Definition failures (flags : list bool) : Z :=
  Z.of_nat (List.length (filter negb flags)).

(** The texts of the messages sent. *)
Definition reports (tr : list event) : list pystr :=
  flat_map (fun ev => match fst ev with
                      | SendMessage _ body _ _ => [body]
                      | _ => []
                      end) tr.

(** The postings applications were submitted for. *)
Definition submissions (tr : list event) : list json :=
  flat_map (fun ev => match fst ev with
                      | HhRespondToVacancy _ id _ _ => [id]
                      | _ => []
                      end) tr.

(** The postings letters were requested for, by prompt. *)
Definition generations (tr : list event) : list pystr :=
  flat_map (fun ev => match fst ev with
                      | MessagesCreate _ _ _ prompt => [prompt]
                      | _ => []
                      end) tr.

Definition warnings (tr : list event) : list json :=
  flat_map (fun ev => match fst ev with
                      | LogWarning id _ => [id]
                      | _ => []
                      end) tr.

Section BatchEvents.
Context `{PyLib}.
Variables (d : Store) (uid : Z) (resume : pystr).

Definition letter_request (v : json) : request :=
  cover_letter_request (letter_subject v) resume.

Definition apply_request (v : json) (rid cover : pystr) : request :=
  HhRespondToVacancy (client_token (token_of d uid)) (field v (u "id")) rid cover.

(** The requests one posting gives rise to when its letter is
    generated, and whether the posting is counted as sent: one
    generation; one submission when a resume is chosen; a warning
    exactly when the posting is not counted. *)
Inductive posting_events (v : json) : bool -> list event -> Prop :=
| posting_sent : forall g cover rid r,
    cover_of_reply g = inr cover -> chosen_resume d uid = Some rid ->
    posting_events v true
      [ (letter_request v, inr g); (apply_request v rid cover, inr r) ]
| posting_refused : forall g cover rid e,
    cover_of_reply g = inr cover -> chosen_resume d uid = Some rid ->
    posting_events v false
      [ (letter_request v, inr g); (apply_request v rid cover, inl e);
        (LogWarning (field v (u "id")) e, inr RNone) ]
| posting_without_resume : forall g cover,
    cover_of_reply g = inr cover -> chosen_resume d uid = None ->
    posting_events v false
      [ (letter_request v, inr g);
        (LogWarning (field v (u "id")) (RuntimeError (u "Резюме не выбрано")),
         inr RNone) ].

(** The events of a run of postings, one after the other. *)
Inductive batch_events : list json -> list bool -> list event -> Prop :=
| batch_done : batch_events [] [] []
| batch_next : forall v vs b bs ev evs,
    posting_events v b ev -> batch_events vs bs evs ->
    batch_events (v :: vs) (b :: bs) (ev ++ evs).
End BatchEvents.

Section BatchOutcomes.
Context `{PyLib} `{Env}.
Variables (uid : Z) (resume : pystr) (vs : list json) (st : St).

(** The batch ran through [vs]: the requests made are those of the
    postings, one after the other, followed by the report of the number
    of postings counted as sent. *)
Definition batch_completed (out : result response * St) : Prop :=
  exists flags evs rep,
    batch_events (db st) uid resume vs flags evs /\
    trace (snd out)
    = trace st ++ evs
      ++ [(SendMessage uid (auto_report (successes flags)) None None, rep)] /\
    fst out = match rep with inl e => inl e | inr _ => inr OkTrue end /\
    generations evs
    = map (fun v => cover_letter_prompt (py_str (letter_subject v)) resume) vs /\
    (0 < successes flags -> submissions evs = map (fun v => field v (u "id")) vs) /\
    Z.of_nat (List.length (warnings evs)) = failures flags /\
    (List.length vs = 20%nat -> failures flags = 3 ->
     auto_report (successes flags) = u "🚀 Автоотклики отправлены: 17/20" /\
     List.length (generations evs) = 20%nat /\
     List.length (submissions evs) = 20%nat).

(** The batch stopped at the posting [v]: the letter for it could not be
    generated, the exception left the handler, nothing was reported. *)
Definition batch_aborted (out : result response * St) : Prop :=
  exists vs1 v vs2 flags evs g e,
    vs = vs1 ++ v :: vs2 /\
    batch_events (db st) uid resume vs1 flags evs /\
    trace (snd out) = trace st ++ evs ++ [(letter_request resume v, g)] /\
    letter_of g = inl e /\
    fst out = inl e.
End BatchOutcomes.

(** ** Vocabulary of observations on the store *)

(** A store operation that leaves an observation of the store alone. *)
Definition db_keeps {X A} (obs : Store -> X) (m : M Store A) : Prop :=
  forall d, obs (snd (m d)) = obs d.

(** The observation does not depend on the setting [(uid, key)]. *)
Definition blind_to_setting {X} (obs : Store -> X) (uid : Z) (key : pystr) : Prop :=
  forall d v,
    obs (with_settings d (insert_or_replace_setting uid key v (user_settings d)))
    = obs d.

(** The observation does not depend on [pending_jobs]. *)
Definition blind_to_pending_jobs {X} (obs : Store -> X) : Prop :=
  forall d t, obs (with_pending d t) = obs d.

(** The stored value of one setting. *)
Definition setting_of (uid : Z) (key : pystr) (d : Store) : option pystr :=
  select_setting uid key (user_settings d).

(** The commands the text branch knows. *)
Definition is_command (txt : pystr) : bool :=
  existsb (pystr_eqb txt) [u "/start"; u "/jobs"; u "/menu"; u "/settings"].

(** ** Vocabulary of the pending_jobs table *)

Definition cursor_in_range (r : pending_row) : Prop :=
  0 <= p_cursor r < len (p_jobs r).

(** One row per user, every cursor inside its list. *)
Definition pending_ok (t : list pending_row) : Prop :=
  NoDup (map p_user t) /\ Forall cursor_in_range t.

Definition points_at_dict (r : pending_row) : Prop :=
  exists job, list_index (p_jobs r) (p_cursor r) = inr job /\ is_dict job = true.

(** What [job_next] leaves of the row [row] when it returns: no row, or
    the same list with the cursor moved forward to a dict entry. *)
Definition advanced (row : pending_row) (t' : list pending_row) (uid : Z) : Prop :=
  pending_row_of t' uid = None \/
  exists row', pending_row_of t' uid = Some row' /\
               p_jobs row' = p_jobs row /\
               p_cursor row < p_cursor row' < len (p_jobs row') /\
               points_at_dict row'.

(** What the job-retrieval flow leaves of the table [t]: [t] itself, or
    [t] with the user's row replaced by a non-empty list at cursor 0. *)
Definition created_by_run_jobs (uid : Z) (t t' : list pending_row) : Prop :=
  t' = t \/ exists jobs, jobs <> [] /\ t' = upsert_pending_row uid jobs t.

Section Judgements.
Context `{PyLib} `{Env}.

(** A handler step that leaves an observation of the store alone,
    whatever its outcome. *)
Definition keeps {X A} (obs : Store -> X) (m : M St A) : Prop :=
  forall st, obs (db (snd (m st))) = obs (db st).

(** A step after which the observation has the value [v], whatever
    the outcome. *)
Definition ends_with {X A} (obs : Store -> X) (v : X) (m : M St A) : Prop :=
  forall st, obs (db (snd (m st))) = v.

(** From a table satisfying [P], the step ends with [Q] on return and
    with [R] on an exception. *)
Definition triple {A} (P : list pending_row -> Prop) (m : M St A)
    (Q : A -> list pending_row -> Prop) (R : list pending_row -> Prop) : Prop :=
  forall st, P (pending_jobs (db st)) ->
    match m st with
    | (inr a, st') => Q a (pending_jobs (db st'))
    | (inl _, st') => R (pending_jobs (db st'))
    end.

(** A handler under which a sound table stays sound. *)
Definition sound {A} (m : M St A) : Prop :=
  triple pending_ok m (fun _ => pending_ok) pending_ok.

(** The webhook applied to a sequence of requests. *)
Fixpoint serve (requests : list (pystr * update)) (st : St) : St :=
  match requests with
  | [] => st
  | (token, upd) :: rest => serve rest (snd (telegram_webhook token upd st))
  end.
End Judgements.

(** ** Vocabulary of the behaviour of the handlers *)

(** Whether [s] still holds a match of [<[^>]+>]: a [<], then a
    character other than [>], then a [>] somewhere after it. *)
Fixpoint has_tag (s : pystr) : bool :=
  match s with
  | [] => false
  | c :: r =>
      ((c =? lt_sign)%N &&
       match r with
       | d :: r' =>
           negb (d =? gt_sign)%N &&
           match after_gt r' with Some _ => true | None => false end
       | [] => false
       end)
      || has_tag r
  end.

(** What [run_jobs] stores as the snippet of a description [full]:
    [(full[:1200] + "…") if len(full) > 1200 else full]. *)
Definition stored_snippet (full : pystr) : pystr :=
  if len full >? 1200 then slice_to 1200 full ++ ellipsis else full.

(** The vacancy dict [run_jobs] builds. *)
Definition stored_vacancy (id name url salary employer : json) (full : pystr) : json :=
  JDict [ (u "id", id); (u "name", name); (u "url", url);
          (u "salary", salary); (u "employer", employer);
          (u "snippet", JStr (stored_snippet full)) ].

(** An employer value [format_vacancy] can read: a dict whose
    [logo_urls], if present, is a dict. *)
Definition employer_renders (employer : json) : bool :=
  match employer with
  | JDict e => is_dict (dict_get e (u "logo_urls") (JDict []))
  | _ => false
  end.

(** A raw search item [run_jobs] can turn into a vacancy: a dict whose
    [snippet], if present, is a dict, with an id, a name and a URL. *)
Definition item_storable (v : json) : bool :=
  match v with
  | JDict d =>
      is_dict (dict_get d (u "snippet") (JDict []))
      && has_key v (u "id") && has_key v (u "name") && has_key v (u "alternate_url")
  | _ => false
  end.

(** The callback data of the buttons of a markup, row by row. *)
Definition callback_data (mk : markup) : list pystr :=
  flat_map (fun row => flat_map (fun b => match b_callback b with
                                          | Some d => [d]
                                          | None => []
                                          end) row) mk.

(** [int(s)] as the handlers use it: [ValueError] when [s] is no number. *)
Definition int_of_text (s : pystr) : result Z :=
  match int_of_str s with
  | Some z => inr z
  | None => inl ValueError
  end.

(** The key [str(v["id"])] of the by-id cache. *)
Definition id_key `{PyLib} (v : json) : idkey := KStr (py_str (field v (u "id"))).

(** The primary key of [user_settings]: one row per [(tg_user, key)]. *)
Definition settings_keyed (t : list setting_row) : Prop :=
  NoDup (map (fun r => (s_user r, s_key r)) t).

(** The favourites of a user, newest first: what [open_favorites] reads. *)
Definition favourites_of (d : Store) (uid : Z) : list favorite :=
  rev (map (fun r => (f_vacancy r, f_title r, f_url r))
         (filter (fun r => f_user r =? uid) (user_favorites d))).

Definition fav_id (f : favorite) : Z := fst (fst f).

(** The [settings_msg_id] stored for a user, once the column exists. *)
Definition settings_msg_of (d : Store) (uid : Z) : option Z :=
  match find (fun r => u_chat r =? uid) (users d) with
  | Some r => u_settings_msg r
  | None => None
  end.

(** The user has a row in [users]. *)
Definition registered (d : Store) (uid : Z) : bool :=
  existsb (fun r => u_chat r =? uid) (users d).

(** ** Vocabulary of the requests a handler makes *)

(** The texts put on screen by editing a message. *)
Definition edits (tr : list event) : list pystr :=
  flat_map (fun ev => match fst ev with
                      | EditMessageText body _ _ _ _ => [body]
                      | _ => []
                      end) tr.

(** The notes shown in answer to a button press. *)
Definition notes (tr : list event) : list pystr :=
  flat_map (fun ev => match fst ev with
                      | AnswerCallbackQuery _ (Some note) _ => [note]
                      | _ => []
                      end) tr.

(** The favourites cached for a user, if any. *)
Definition cached_favs (a : AppState) (uid : Z) : option (list favorite) :=
  match favs_cache a with
  | Some cache => assoc_get Z.eqb cache uid
  | None => None
  end.

(** The card text of a cached favourite. *)
Definition fav_card (f : favorite) : pystr :=
  let '(_, title, url) := f in fav_text title url.

Section Requests.
Context `{Env}.

(** The state after a request: the services have moved on and the
    request is on record with its outcome. *)
Definition after (rq : request) (st : St) : St :=
  {| db := db st; app := app st; world := snd (respond rq (world st));
     trace := trace st ++ [(rq, fst (respond rq (world st)))] |}.

Definition outcome (rq : request) (st : St) : result reply :=
  fst (respond rq (world st)).
End Requests.

(** What [safe_edit_text] and [safe_edit_markup] make of the outcome of
    their request: "message is not modified" counts as success. *)
Definition forgiving (r : result reply) : result unit :=
  match r with
  | inr _ => inr tt
  | inl (TelegramBadRequest err) =>
      if negb (contains err not_modified) then inl (TelegramBadRequest err) else inr tt
  | inl e => inl e
  end.

(** The characters [html.escape] replaces, the ampersand apart. *)
Definition is_markup_char (c : N) : bool :=
  ((c =? 60) || (c =? 62) || (c =? 34) || (c =? 39))%N.

(** Text in which no tag can begin or end and no attribute can close. *)
Definition markup_free (s : pystr) : bool :=
  forallb (fun c => negb (is_markup_char c)) s.

Section Bounds.
Context `{Env}.

(** A computation that only adds to the record of requests, and adds
    events of which [select] picks at most [n] items. *)
Definition bounded {A X} (select : event -> list X) (n : nat) (m : M St A) : Prop :=
  forall st, exists evs,
    trace (snd (m st)) = trace st ++ evs /\
    (List.length (flat_map select evs) <= n)%nat.
End Bounds.

Definition select_generation (ev : event) : list pystr :=
  match fst ev with
  | MessagesCreate _ _ _ prompt => [prompt]
  | _ => []
  end.

Definition select_submission (ev : event) : list json :=
  match fst ev with
  | HhRespondToVacancy _ id _ _ => [id]
  | _ => []
  end.

Definition select_report (ev : event) : list pystr :=
  match fst ev with
  | SendMessage _ body _ _ => [body]
  | _ => []
  end.

(** Services for which the message to edit is gone; everything else
    succeeds. *)
Definition message_lost (rq : request) (n : nat) : result reply :=
  match rq with
  | EditMessageText _ _ _ _ _ =>
      inl (TelegramBadRequest (u "Bad Request: message to edit not found"))
  | _ => Sample.all_well rq n
  end.

(** The selection that counts no event: a bound under it says only that
    the record of requests grows. *)
Definition no_selection (ev : event) : list unit := [].

(** * Properties *)

(** ** Strings *)

Lemma pystr_eqb_eq a b : pystr_eqb a b = true <-> a = b.
Proof. unfold pystr_eqb. destruct (list_eq_dec N.eq_dec a b); split; congruence. Qed.

Lemma pystr_eqb_refl a : pystr_eqb a a = true.
Proof. now apply pystr_eqb_eq. Qed.

Lemma pystr_eqb_neq a b : pystr_eqb a b = false <-> a <> b.
Proof. unfold pystr_eqb. destruct (list_eq_dec N.eq_dec a b); split; congruence. Qed.

(** ** Decimal text *)

Lemma chars_uint_uint_chars d : chars_uint (uint_chars d) = Some d.
Proof. induction d; simpl; try rewrite IHd; reflexivity. Qed.

Lemma uint_chars_digits d : Forall digit_char (uint_chars d).
Proof. induction d; simpl; constructor; auto; unfold digit_char; lia. Qed.

Lemma drop_underscores_digits s :
  Forall digit_char s -> s <> [] -> forall b, drop_underscores b s = Some s.
Proof.
  induction 1 as [|c r Hc Hr IH]; intros Hne b; [congruence|].
  simpl. destruct (N.eqb_spec c 95) as [->|_].
  - unfold digit_char in Hc; lia.
  - destruct r as [|c' r'].
    + reflexivity.
    + rewrite IH by congruence. reflexivity.
Qed.

Lemma lstrip_head_not_space c r : is_space c = false -> lstrip (c :: r) = c :: r.
Proof. intros Hc; simpl; now rewrite Hc. Qed.

Lemma lstrip_no_space s : Forall (fun c => is_space c = false) s -> lstrip s = s.
Proof. destruct 1; [reflexivity|now apply lstrip_head_not_space]. Qed.

Lemma strip_no_space s : Forall (fun c => is_space c = false) s -> strip s = s.
Proof.
  intros Hs. unfold strip, rstrip. rewrite (lstrip_no_space s Hs).
  rewrite lstrip_no_space, rev_involutive; [reflexivity|].
  now apply Forall_rev.
Qed.

Lemma digit_not_space c : digit_char c -> is_space c = false.
Proof.
  unfold digit_char, is_space; intros Hc.
  repeat match goal with
         | |- context [(?a <=? ?b)%N] => destruct (N.leb_spec a b); try lia
         | |- context [(?a =? ?b)%N] => destruct (N.eqb_spec a b); try lia
         end; reflexivity.
Qed.

Lemma uint_chars_nonnil d : d <> Decimal.Nil -> uint_chars d <> [].
Proof. destruct d; simpl; congruence. Qed.

Lemma unsigned_of_uint_chars d :
  d <> Decimal.Nil -> unsigned_of_chars (uint_chars d) = Some (Z.of_uint d).
Proof.
  intros Hd. unfold unsigned_of_chars.
  rewrite drop_underscores_digits
    by (auto using uint_chars_digits, uint_chars_nonnil).
  now rewrite chars_uint_uint_chars.
Qed.

Lemma to_int_nonnil z :
  match Z.to_int z with Decimal.Pos d | Decimal.Neg d => d <> Decimal.Nil end.
Proof.
  destruct z; simpl; try discriminate; apply DecimalPos.Unsigned.to_uint_nonnil.
Qed.

(** [int(str(z)) == z] *)
Lemma int_of_str_of_int z : int_of_str (str_of_int z) = Some z.
Proof.
  pose proof (to_int_nonnil z) as Hnn.
  pose proof (DecimalZ.of_to z) as Hz.
  unfold int_of_str, str_of_int.
  destruct (Z.to_int z) as [d|d].
  - rewrite strip_no_space
      by (eapply Forall_impl; [apply digit_not_space|apply uint_chars_digits]).
    pose proof (uint_chars_digits d) as Hd.
    pose proof (unsigned_of_uint_chars d Hnn) as Hu.
    destruct (uint_chars d) as [|c r] eqn:E.
    + now apply uint_chars_nonnil in E.
    + apply Forall_inv in Hd. unfold digit_char in Hd.
      destruct (N.eqb_spec c 45); [lia|]. destruct (N.eqb_spec c 43); [lia|].
      rewrite Hu. simpl in Hz. now rewrite Hz.
  - rewrite strip_no_space.
    + simpl. rewrite (unsigned_of_uint_chars d Hnn). simpl.
      simpl in Hz. now rewrite Hz.
    + constructor; [reflexivity|].
      eapply Forall_impl; [apply digit_not_space|apply uint_chars_digits].
Qed.

(** ** The settings table *)

Lemma setting_at_refl uid key v :
  setting_at uid key {| s_user := uid; s_key := key; s_value := v |} = true.
Proof. unfold setting_at; simpl. now rewrite Z.eqb_refl, pystr_eqb_refl. Qed.

Lemma filter_negb_none {A} (p : A -> bool) l :
  filter p (filter (fun x => negb (p x)) l) = [].
Proof.
  induction l as [|x l IH]; simpl; [reflexivity|].
  destruct (p x) eqn:E; simpl; [|rewrite E]; exact IH.
Qed.

Lemma find_negb_none {A} (p : A -> bool) l :
  find p (filter (fun x => negb (p x)) l) = None.
Proof.
  induction l as [|x l IH]; simpl; [reflexivity|].
  destruct (p x) eqn:E; simpl; [|rewrite E]; exact IH.
Qed.

Lemma find_app {A} (p : A -> bool) l1 l2 :
  find p (l1 ++ l2) = match find p l1 with Some x => Some x | None => find p l2 end.
Proof. induction l1 as [|x l1 IH]; simpl; [reflexivity|]. now destruct (p x). Qed.

Lemma rows_after_insert uid key v t :
  filter (setting_at uid key) (insert_or_replace_setting uid key v t)
  = [{| s_user := uid; s_key := key; s_value := v |}].
Proof.
  unfold insert_or_replace_setting.
  rewrite filter_app, filter_negb_none. simpl. now rewrite setting_at_refl.
Qed.

Lemma select_after_insert uid key v t :
  select_setting uid key (insert_or_replace_setting uid key v t) = v.
Proof.
  unfold select_setting, insert_or_replace_setting.
  rewrite find_app, find_negb_none. simpl. now rewrite setting_at_refl.
Qed.

Lemma setting_at_other uid key uid' key' r :
  (uid', key') <> (uid, key) -> setting_at uid key r = true ->
  setting_at uid' key' r = false.
Proof.
  unfold setting_at. intros Hne Hr.
  apply andb_true_iff in Hr as [Hu Hk].
  apply Z.eqb_eq in Hu. apply pystr_eqb_eq in Hk.
  destruct (Z.eqb_spec (s_user r) uid'); simpl; [|reflexivity].
  apply pystr_eqb_neq. congruence.
Qed.

Lemma find_filter_other {A} (p q : A -> bool) l :
  (forall x, q x = true -> p x = false) ->
  find p (filter (fun x => negb (q x)) l) = find p l.
Proof.
  intros Hpq. induction l as [|x l IH]; simpl; [reflexivity|].
  destruct (q x) eqn:Eq; simpl.
  - now rewrite (Hpq x Eq).
  - now rewrite IH.
Qed.

(** A write leaves every other [(user, key)] pair as it was. *)
Lemma select_after_insert_other uid key v uid' key' t :
  (uid', key') <> (uid, key) ->
  select_setting uid' key' (insert_or_replace_setting uid key v t)
  = select_setting uid' key' t.
Proof.
  intros Hne. unfold select_setting, insert_or_replace_setting.
  rewrite find_app, find_filter_other
    by (intros x; apply setting_at_other, Hne).
  destruct (find (setting_at uid' key') t); [reflexivity|].
  simpl. rewrite (setting_at_other uid key uid' key' _ Hne); [reflexivity|].
  apply setting_at_refl.
Qed.

(** C8. Writing a setting twice for the same [(user, key)] leaves exactly
    one row for the pair, holding the second value: the read after the
    first write gives [v1], the read after the second gives [v2], and
    the table then has the single row [(user, key, v2)] for the pair. *)
Theorem save_twice_one_row_latest_value :
  forall (d : Store) (uid : Z) (key v1 v2 : pystr),
    let d1 := exec (save_user_setting uid key v1) d in
    let d2 := exec (save_user_setting uid key v2) d1 in
    eval (get_user_setting uid key) d1 = inr (Some v1) /\
    eval (get_user_setting uid key) d2 = inr (Some v2) /\
    setting_rows d2 uid key = [{| s_user := uid; s_key := key; s_value := Some v2 |}] /\
    List.length (setting_rows d2 uid key) = 1%nat.
Proof.
  intros d uid key v1 v2 d1 d2.
  unfold d2, d1, exec, eval, save_user_setting, get_user_setting, setting_rows,
    modify, bind, get_state, ret; simpl.
  rewrite !select_after_insert, !rows_after_insert. auto.
Qed.

(** ** The rotating page counter *)

Lemma int_or_zero_str_of_int z : int_or_zero (Some (str_of_int z)) = inr z.
Proof.
  unfold int_or_zero. rewrite int_of_str_of_int.
  destruct (str_of_int z) eqn:E; [|reflexivity].
  pose proof (int_of_str_of_int z) as Hz. rewrite E in Hz. discriminate.
Qed.

Lemma next_jobs_page_step d uid n :
  jobs_page_counter d uid = inr n ->
  eval (next_jobs_page uid) d = inr n /\
  jobs_page_counter (exec (next_jobs_page uid) d) uid
  = inr (if n <? 19 then n + 1 else 0).
Proof.
  unfold jobs_page_counter. intros Hn.
  unfold eval, exec, next_jobs_page, bind, get_user_setting, get_state, ret,
    lift_result, save_user_setting, modify; simpl.
  rewrite Hn; simpl. split; [reflexivity|].
  rewrite select_after_insert. apply int_or_zero_str_of_int.
Qed.

(** From a counter within [0, 19], successive calls walk the cycle. *)
Lemma next_jobs_pages_cycle uid :
  forall k d n, jobs_page_counter d uid = inr n -> 0 <= n <= 19 ->
    eval (next_jobs_pages k uid) d
    = inr (map (fun i => (n + Z.of_nat i) mod 20) (seq 0 k)).
Proof.
  induction k as [|k IH]; intros d n Hn Hrange.
  - reflexivity.
  - destruct (next_jobs_page_step d uid n Hn) as [Hret Hnext].
    cbn [next_jobs_pages]. unfold eval, bind in *.
    unfold exec in Hnext.
    destruct (next_jobs_page uid d) as [r d'] eqn:E; simpl in Hret, Hnext.
    subst r.
    assert (Hn' : 0 <= (if n <? 19 then n + 1 else 0) <= 19)
      by (destruct (Z.ltb_spec n 19); lia).
    specialize (IH d' _ Hnext Hn').
    destruct (next_jobs_pages k uid d') as [r2 d2]; simpl in IH; subst r2.
    cbn [fst seq map]. rewrite <- seq_shift, map_map. unfold ret; cbn [fst].
    f_equal. f_equal.
    + cbn [Z.of_nat]. rewrite Z.add_0_r, Z.mod_small; lia.
    + apply map_ext. intros i.
      replace (if n <? 19 then n + 1 else 0) with ((n + 1) mod 20).
      * rewrite Zplus_mod_idemp_l. apply (f_equal (fun x => x mod 20)). lia.
      * destruct (Z.ltb_spec n 19).
        -- apply Z.mod_small; lia.
        -- replace n with 19 by lia. reflexivity.
Qed.

(** C6. Each call of the page-advance operation returns the counter's
    prior value (0 for a user without a [jobs_page] setting) and stores
    prior + 1, or 0 once the prior value has reached 19; 21 calls from a
    user without the setting return 0, 1, ..., 19, 0. *)
Theorem next_jobs_page_cycles :
  forall (d : Store) (uid : Z),
    (forall n, jobs_page_counter d uid = inr n ->
       eval (next_jobs_page uid) d = inr n /\
       jobs_page_counter (exec (next_jobs_page uid) d) uid
       = inr (if n <? 19 then n + 1 else 0)) /\
    (eval (get_user_setting uid jobs_page_key) d = inr None ->
       jobs_page_counter d uid = inr 0 /\
       eval (next_jobs_pages 21 uid) d
       = inr [0; 1; 2; 3; 4; 5; 6; 7; 8; 9; 10; 11; 12; 13; 14; 15; 16; 17; 18; 19; 0]).
Proof.
  intros d uid. split.
  - intros n. apply next_jobs_page_step.
  - intros Hfresh.
    assert (H0 : jobs_page_counter d uid = inr 0).
    { unfold jobs_page_counter. unfold eval, get_user_setting, bind, get_state, ret in Hfresh.
      simpl in Hfresh. injection Hfresh as ->. reflexivity. }
    split; [exact H0|].
    rewrite (next_jobs_pages_cycle uid 21 d 0 H0) by lia. reflexivity.
Qed.

Lemma next_jobs_page_cycles_witness :
  eval (next_jobs_page 7) empty_store = inr 0 /\
  jobs_page_counter (exec (next_jobs_page 7) empty_store) 7 = inr 1 /\
  eval (next_jobs_pages 21 7) empty_store
  = inr [0; 1; 2; 3; 4; 5; 6; 7; 8; 9; 10; 11; 12; 13; 14; 15; 16; 17; 18; 19; 0].
Proof.
  destruct (next_jobs_page_cycles empty_store 7) as [Hstep Hfresh].
  destruct (Hstep 0 eq_refl) as [Hret Hnext].
  destruct (Hfresh eq_refl) as [_ Hseq].
  exact (conj Hret (conj Hnext Hseq)).
Defined.

(** ** Vacancy rendering *)

(** C7. The salary line is defined for every value of the salary field
    and takes one of four forms: with both bounds "from–to currency",
    with only the lower one "от from currency", with only the upper one
    "до to currency", otherwise the placeholder "не указана"; the three
    sample dicts render "100–200 RUR", "от 100 RUR", "до 200 RUR", and an
    absent ([None]) or non-dict salary renders the placeholder. *)
Theorem salary_line_four_cases :
  forall (L : PyLib),
    salary_line (salary_of (JInt 100) (JInt 200) (JStr (u "RUR"))) = u "100–200 RUR" /\
    salary_line (JDict [(u "from", JInt 100); (u "currency", JStr (u "RUR"))])
    = u "от 100 RUR" /\
    salary_line (JDict [(u "to", JInt 200); (u "currency", JStr (u "RUR"))])
    = u "до 200 RUR" /\
    salary_line JNull = placeholder /\
    (forall s, is_dict s = false -> salary_line s = placeholder) /\
    (forall s, exists fr to cur,
        salary_line s = py_str fr ++ u "–" ++ py_str to ++ u " " ++ py_str cur
        \/ salary_line s = u "от " ++ py_str fr ++ u " " ++ py_str cur
        \/ salary_line s = u "до " ++ py_str to ++ u " " ++ py_str cur
        \/ salary_line s = placeholder).
Proof.
  intros L. repeat split; try reflexivity.
  - intros s Hs. destruct s; try reflexivity; discriminate.
  - intros s. destruct s as [| | | | |d];
      try (exists JNull, JNull, JNull; now repeat right).
    exists (dict_get d (u "from") JNull), (dict_get d (u "to") JNull),
      (dict_get d (u "currency") (JStr [])).
    unfold salary_line.
    destruct (truthy (dict_get d (u "from") JNull)),
             (truthy (dict_get d (u "to") JNull)); simpl; auto.
Qed.

Lemma salary_line_four_cases_witness :
  @salary_line Sample.lib (JStr (u "по договорённости")) = placeholder.
Proof.
  destruct (salary_line_four_cases Sample.lib) as (_ & _ & _ & _ & Hother & _).
  apply Hother. reflexivity.
Defined.

Lemma zero_or_absent_falsy d k : zero_or_absent d k -> truthy (dict_get d k JNull) = false.
Proof. unfold dict_get; intros [-> | ->]; reflexivity. Qed.

(** C10. A salary bound equal to 0 counts as absent: from=0 with to=200
    renders "до 200 currency" and not "0–200 currency", and a dict whose
    bounds are both 0 or missing renders the placeholder. *)
Theorem salary_zero_bound_is_absent :
  forall (L : PyLib),
    (forall cur,
        salary_line (salary_of (JInt 0) (JInt 200) cur) = u "до 200 " ++ py_str cur /\
        salary_line (salary_of (JInt 0) (JInt 200) cur) <> u "0–200 " ++ py_str cur) /\
    (forall d, zero_or_absent d (u "from") -> zero_or_absent d (u "to") ->
        salary_line (JDict d) = placeholder).
Proof.
  intros L. split.
  - intros cur. split; [reflexivity|]. cbv - [py_str]. discriminate.
  - intros d Hf Ht. unfold salary_line.
    now rewrite (zero_or_absent_falsy _ _ Hf), (zero_or_absent_falsy _ _ Ht).
Qed.

Lemma salary_zero_bound_is_absent_witness :
  @salary_line Sample.lib (JDict [(u "from", JInt 0); (u "currency", JStr (u "RUR"))])
  = placeholder.
Proof.
  destruct (salary_zero_bound_is_absent Sample.lib) as [_ Hboth].
  apply Hboth; [right|left]; reflexivity.
Defined.

Lemma sub_tags_plain s : plain_text s -> forall fuel, sub_tags fuel s = s.
Proof.
  induction 1 as [|c r Hc Hr IH]; intros [|f]; simpl; try reflexivity.
  destruct (N.eqb_spec c lt_sign); [contradiction|]. now rewrite IH.
Qed.

Lemma strip_html_plain s : plain_text s -> strip_html (JStr s) = inr s.
Proof.
  intros Hs. unfold strip_html, py_or; simpl.
  destruct s; [reflexivity|]. now rewrite sub_tags_plain.
Qed.

Lemma len_firstn {A} (n : nat) (l : list A) :
  Z.of_nat n <= len l -> len (slice_to n l) = Z.of_nat n.
Proof. unfold len, slice_to. intros Hn. rewrite length_firstn. lia. Qed.

Section Truncation.
Context `{PyLib}.

Lemma description_block_long full :
  len full > 1200 ->
  description_block full = wrap_long (slice_to 1200 full) ++ ellipsis.
Proof.
  intros Hl. unfold description_block.
  destruct (Z.gtb_spec (len full) 1200); [reflexivity|lia].
Qed.

Lemma description_block_short full :
  len full <= 1200 -> description_block full = wrap_long full.
Proof.
  intros Hl. unfold description_block.
  destruct (Z.gtb_spec (len full) 1200); [lia|].
  unfold slice_to. rewrite firstn_all2, app_nil_r; [reflexivity|].
  unfold len in Hl. lia.
Qed.

Lemma format_vacancy_caption v d c logo :
  raw_description v = JStr d -> plain_text d ->
  format_vacancy v = inr (c, logo) ->
  exists title company url,
    c = caption_text title company (salary_line (dict_get v (u "salary") JNull))
          (description_block d) url.
Proof.
  intros Hraw Hplain. unfold format_vacancy.
  rewrite Hraw, (strip_html_plain d Hplain).
  destruct (dict_item v (u "name")) as [|title]; [discriminate|].
  destruct (py_get _ (u "name") _) as [|company]; [discriminate|].
  destruct (py_get _ (u "logo_urls") _) as [|lu]; [discriminate|].
  destruct (py_get lu _ _) as [|lg]; [discriminate|].
  destruct (dict_item v (u "url")) as [|url]; [discriminate|].
  intros [= <- _]. now exists title, company, url.
Qed.
End Truncation.



(** A description of 900 letters is wrapped and nothing else. *)
Example description_of_900_untouched :
  @description_block Sample.lib (Sample.plain_description 900)
  = @wrap_long Sample.lib (Sample.plain_description 900).
Proof. vm_compute. reflexivity. Qed.

(** ** Multi-value settings *)

Lemma lstrip_head_ok s : head_ok (lstrip s).
Proof.
  induction s as [|c r IH]; simpl; [exact I|].
  destruct (is_space c) eqn:E; [exact IH|exact E].
Qed.

Lemma lstrip_fixed s : head_ok s -> lstrip s = s.
Proof. destruct s as [|c r]; simpl; [reflexivity|]. now intros ->. Qed.

Lemma lstrip_snoc l x : is_space x = false -> lstrip (l ++ [x]) = lstrip l ++ [x].
Proof.
  intros Hx. induction l as [|c r IH]; simpl.
  - now rewrite Hx.
  - destruct (is_space c); [exact IH|reflexivity].
Qed.

Lemma lstrip_In c s : In c (lstrip s) -> In c s.
Proof.
  induction s as [|x r IH]; simpl; [tauto|].
  destruct (is_space x); simpl; tauto.
Qed.

Lemma strip_In c s : In c (strip s) -> In c s.
Proof.
  unfold strip, rstrip. intros Hc.
  apply in_rev, lstrip_In in Hc. apply in_rev in Hc. now apply lstrip_In.
Qed.

Lemma rstrip_idem s : rstrip (rstrip s) = rstrip s.
Proof.
  unfold rstrip. rewrite rev_involutive.
  now rewrite (lstrip_fixed _ (lstrip_head_ok _)).
Qed.

Lemma rstrip_head_ok s : head_ok s -> head_ok (rstrip s).
Proof.
  destruct s as [|x r]; [intros _; exact I|]. simpl. intros Hx.
  unfold rstrip. simpl. rewrite (lstrip_snoc _ _ Hx), rev_app_distr. exact Hx.
Qed.

Lemma strip_idem s : strip (strip s) = strip s.
Proof.
  unfold strip at 1.
  rewrite (lstrip_fixed (strip s)).
  - unfold strip. apply rstrip_idem.
  - unfold strip. apply rstrip_head_ok, lstrip_head_ok.
Qed.

Lemma comma_free_strip s : comma_free s -> comma_free (strip s).
Proof.
  unfold comma_free. rewrite !Forall_forall. intros Hs c Hc.
  apply Hs. now apply strip_In.
Qed.

Lemma split_comma_nonempty s : split_comma s <> [].
Proof.
  induction s as [|c r IH]; simpl; [discriminate|].
  destruct (c =? comma)%N; [discriminate|].
  destruct (split_comma r); [contradiction|discriminate].
Qed.

Lemma split_comma_pieces s : Forall comma_free (split_comma s).
Proof.
  induction s as [|c r IH]; simpl.
  - repeat constructor.
  - destruct (N.eqb_spec c comma) as [->|Hc].
    + constructor; [constructor|exact IH].
    + destruct (split_comma r) as [|p ps]; [repeat constructor; exact Hc|].
      inversion IH; subst. constructor; [constructor|]; assumption.
Qed.

Lemma split_comma_free p : comma_free p -> split_comma p = [p].
Proof.
  induction 1 as [|c r Hc Hr IH]; simpl; [reflexivity|].
  destruct (N.eqb_spec c comma); [contradiction|]. now rewrite IH.
Qed.

Lemma split_comma_app p rest :
  comma_free p -> split_comma (p ++ comma :: rest) = p :: split_comma rest.
Proof.
  induction 1 as [|c r Hc Hr IH]; simpl.
  - reflexivity.
  - destruct (N.eqb_spec c comma); [contradiction|]. now rewrite IH.
Qed.

Lemma split_join_comma l :
  l <> [] -> Forall comma_free l -> split_comma (join_comma l) = l.
Proof.
  induction l as [|p l IH]; intros Hne Hl; [congruence|].
  inversion Hl as [|? ? Hp Hl']; subst.
  destruct l as [|q l'].
  - simpl. now apply split_comma_free.
  - change (join_comma (p :: q :: l')) with (p ++ comma :: join_comma (q :: l')).
    rewrite split_comma_app by assumption. f_equal. apply IH; [discriminate|assumption].
Qed.

Lemma kept_split_join l :
  Forall comma_free l -> kept (split_comma (join_comma l)) = kept l.
Proof.
  intros Hl. destruct l as [|p l']; [reflexivity|].
  now rewrite split_join_comma.
Qed.

Lemma set_mem_In x s : set_mem x s = true <-> In x s.
Proof.
  unfold set_mem. rewrite existsb_exists. split.
  - intros (y & Hy & Hxy). apply pystr_eqb_eq in Hxy. now subst.
  - intros Hx. exists x. split; [assumption|apply pystr_eqb_refl].
Qed.

Lemma set_add_In x y s : In y (set_add x s) <-> y = x \/ In y s.
Proof.
  unfold set_add. destruct (set_mem x s) eqn:E.
  - apply set_mem_In in E. split; [tauto|]. intros [->|]; assumption.
  - rewrite in_app_iff. simpl. split; intros [|]; try tauto.
    + destruct H as [<-|[]]. now left.
    + subst. right. now left.
Qed.

Lemma set_remove_In x y s : In y (set_remove x s) <-> y <> x /\ In y s.
Proof.
  unfold set_remove. rewrite filter_In, negb_true_iff, pystr_eqb_neq.
  split; intros [? ?]; split; auto.
Qed.

Lemma set_of_list_acc l : forall acc x,
  In x (fold_left (fun s y => set_add y s) l acc) <-> In x acc \/ In x l.
Proof.
  induction l as [|y l IH]; intros acc x; simpl; [tauto|].
  rewrite IH, set_add_In. split; intros H; intuition (subst; auto).
Qed.

Lemma set_of_list_In x l : In x (set_of_list l) <-> In x l.
Proof. unfold set_of_list. rewrite set_of_list_acc. simpl. tauto. Qed.

Lemma kept_In x l :
  In x (kept l) <-> x <> [] /\ exists y, In y l /\ strip y = x.
Proof.
  unfold kept. rewrite filter_In, in_map_iff. split.
  - intros [(y & Hy & Hin) Hne]. split; [destruct x; [discriminate|congruence]|].
    now exists y.
  - intros [Hne (y & Hin & Hy)]. split; [now exists y|].
    destruct x; [congruence|reflexivity].
Qed.

Lemma parse_multi_In x curr :
  In x (parse_multi curr) <-> In x (kept (split_comma curr)).
Proof. unfold parse_multi. apply set_of_list_In. Qed.

Lemma parse_multi_clean x curr : In x (parse_multi curr) -> clean x.
Proof.
  rewrite parse_multi_In, kept_In. intros [Hne (y & Hy & <-)].
  split; [assumption|]. split.
  - apply comma_free_strip.
    pose proof (split_comma_pieces curr) as Hp. rewrite Forall_forall in Hp. auto.
  - apply strip_idem.
Qed.

Lemma kept_clean l : Forall clean l -> same_set (kept l) l.
Proof.
  intros Hl x. rewrite Forall_forall in Hl. rewrite kept_In. split.
  - intros [_ (y & Hy & <-)]. destruct (Hl y Hy) as (_ & _ & ->). assumption.
  - intros Hx. destruct (Hl x Hx) as (Hne & _ & Hs). split; [assumption|]. now exists x.
Qed.

Lemma kept_same_set a b : same_set a b -> same_set (kept a) (kept b).
Proof.
  intros Hab x. rewrite !kept_In. split; intros [Hne (y & Hy & Hs)];
    (split; [assumption|exists y; split; [now apply Hab|assumption]]).
Qed.

Section MultiValue.
Context `{PyLib}.

Lemma set_iter_same l : same_set (set_iter l) l.
Proof.
  intros x. split; apply Permutation_in;
    [apply set_iter_perm|apply Permutation_sym, set_iter_perm].
Qed.

(** Storing a set and reading it back. *)
Lemma parse_stored items :
  Forall comma_free items ->
  same_set (parse_multi (join_comma (set_iter items))) (kept items).
Proof.
  intros Hc x. rewrite parse_multi_In, kept_split_join.
  - apply kept_same_set, set_iter_same.
  - rewrite Forall_forall in *. intros y Hy. apply Hc. now apply set_iter_same.
Qed.
End MultiValue.

Lemma toggled_In v x s :
  In x (toggled v s) <-> (In x s /\ x <> v) \/ (x = v /\ ~ In v s).
Proof.
  unfold toggled. destruct (set_mem v s) eqn:E.
  - apply set_mem_In in E. rewrite set_remove_In. tauto.
  - assert (Hv : ~ In v s) by (rewrite <- set_mem_In, E; discriminate).
    rewrite set_add_In. split.
    + intros [->|Hx]; [tauto|]. left. split; [assumption|]. congruence.
    + tauto.
Qed.

Lemma kept_stripped l x :
  Forall stripped l -> (In x (kept l) <-> x <> [] /\ In x l).
Proof.
  intros Hl. rewrite Forall_forall in Hl. rewrite kept_In. split.
  - intros [Hne (y & Hy & Hxy)]. pose proof (Hl y Hy) as Hst. unfold stripped in Hst.
    rewrite Hst in Hxy. subst y. auto.
  - intros [Hne Hx]. split; [assumption|]. exists x. split; [assumption|apply (Hl x Hx)].
Qed.

Section Toggle.
Context `{PyLib}.

Lemma toggle_exec uid key value d :
  exec (toggle_multi_value uid key value) d
  = with_settings d
      (insert_or_replace_setting uid key
         (Some (join_comma (set_iter (toggled value (selected d uid key)))))
         (user_settings d)).
Proof. reflexivity. Qed.

Lemma selected_after_toggle uid key value d :
  selected (exec (toggle_multi_value uid key value) d) uid key
  = parse_multi (join_comma (set_iter (toggled value (selected d uid key)))).
Proof.
  rewrite toggle_exec. unfold selected at 1. simpl.
  now rewrite select_after_insert.
Qed.

(** After one toggle of a comma-free, stripped value: the old members
    other than the value, and the value if it was not a member. *)
Lemma selected_toggled_In uid key value d x :
  comma_free value -> stripped value ->
  Forall clean (selected d uid key) ->
  (In x (selected (exec (toggle_multi_value uid key value) d) uid key)
   <-> x <> [] /\ In x (toggled value (selected d uid key))).
Proof.
  intros Hc Hs Hclean. rewrite selected_after_toggle.
  set (S := selected d uid key) in *.
  assert (HS : forall y, In y (toggled value S) -> comma_free y /\ stripped y).
  { intros y Hy. apply toggled_In in Hy as [[Hy _]|[-> _]]; [|auto].
    rewrite Forall_forall in Hclean. destruct (Hclean y Hy) as (_ & ? & ?). auto. }
  assert (Hcf : Forall comma_free (toggled value S))
    by (rewrite Forall_forall; intros y Hy; now apply HS).
  assert (Hst : Forall stripped (toggled value S))
    by (rewrite Forall_forall; intros y Hy; now apply HS).
  rewrite <- (kept_stripped _ x Hst). apply (parse_stored _ Hcf x).
Qed.
End Toggle.

Lemma selected_clean d uid key : Forall clean (selected d uid key).
Proof. rewrite Forall_forall. intros x. apply parse_multi_clean. Qed.

(** C9, as the code has it. For a value without commas and without
    leading or trailing whitespace (every offered suggestion is one),
    toggling it twice for the same user and key brings the stored set
    of selected values back to its original contents. *)
Theorem toggle_twice_restores_selection :
  forall (L : PyLib) (d : Store) (uid : Z) (key value : pystr),
    comma_free value -> stripped value ->
    same_set
      (selected (exec (toggle_multi_value uid key value)
                   (exec (toggle_multi_value uid key value) d)) uid key)
      (selected d uid key).
Proof.
  intros L d uid key value Hc Hs x.
  set (d1 := exec (toggle_multi_value uid key value) d).
  rewrite (selected_toggled_In uid key value d1 x Hc Hs (selected_clean _ _ _)).
  rewrite toggled_In.
  assert (H1 : forall y, In y (selected d1 uid key)
                         <-> y <> [] /\ In y (toggled value (selected d uid key)))
    by (intros y; apply selected_toggled_In; auto using selected_clean).
  pose proof (selected_clean d uid key) as Hclean. rewrite Forall_forall in Hclean.
  rewrite !H1, !toggled_In.
  destruct (set_mem value (selected d uid key)) eqn:E.
  - apply set_mem_In in E. split.
    + intros [Hx [[[_ [[Hin _]|[-> _]]] Hne]|[-> _]]]; auto; congruence.
    + intros Hx. split; [apply (Hclean x Hx)|].
      destruct (list_eq_dec N.eq_dec x value) as [->|Hne].
      * right. split; [reflexivity|]. intros [_ [[_ Hv]|[_ Hv]]]; auto.
      * left. split; [|assumption]. split; [apply (Hclean x Hx)|]. left. auto.
  - assert (Hv : ~ In value (selected d uid key))
      by (rewrite <- set_mem_In, E; discriminate).
    split.
    + intros [Hx [[[_ [[Hin _]|[-> _]]] Hne]|[-> Hnot]]]; auto; try congruence.
      exfalso. apply Hnot. split; [assumption|]. right. auto.
    + intros Hx. split; [apply (Hclean x Hx)|].
      left. split; [|congruence]. split; [apply (Hclean x Hx)|]. left.
      split; [assumption|congruence].
Qed.

Lemma toggle_twice_restores_selection_witness :
  same_set
    (selected (exec (@toggle_multi_value Sample.lib 7 (u "work_format") (u "офис"))
                 (exec (@toggle_multi_value Sample.lib 7 (u "work_format") (u "офис"))
                    empty_store)) 7 (u "work_format"))
    (selected empty_store 7 (u "work_format")).
Proof.
  apply (toggle_twice_restores_selection Sample.lib).
  - unfold comma_free. apply Forall_forall. intros c Hc.
    vm_compute in Hc. intuition (subst; discriminate).
  - reflexivity.
Defined.

(** A value with a comma in it is split when it is read back: toggling
    it twice leaves two values selected that were not there before. *)
Lemma toggle_twice_with_comma :
  let d2 := exec (@toggle_multi_value Sample.lib 7 (u "work_format") (u "офис,гибрид"))
              (exec (@toggle_multi_value Sample.lib 7 (u "work_format") (u "офис,гибрид"))
                 empty_store) in
  selected empty_store 7 (u "work_format") = [] /\
  selected d2 7 (u "work_format") = [u "офис"; u "гибрид"] /\
  ~ same_set (selected d2 7 (u "work_format")) (selected empty_store 7 (u "work_format")).
Proof.
  assert (H2 : selected
                 (exec (@toggle_multi_value Sample.lib 7 (u "work_format") (u "офис,гибрид"))
                    (exec (@toggle_multi_value Sample.lib 7 (u "work_format")
                             (u "офис,гибрид")) empty_store)) 7 (u "work_format")
               = [u "офис"; u "гибрид"]) by (vm_compute; reflexivity).
  cbv zeta. rewrite H2. split; [reflexivity|]. split; [reflexivity|].
  intros Hsame. destruct (Hsame (u "офис")) as [Hin _].
  apply Hin. left. reflexivity.
Qed.

(** ** The auto-apply batch *)

Lemma readable_fields v :
  readable v = true ->
  py_item v (u "snippet") = inr (field v (u "snippet")) /\
  py_item v (u "name") = inr (field v (u "name")) /\
  py_item v (u "id") = inr (field v (u "id")).
Proof.
  unfold readable, has_key, field. destruct v as [| | | | |d]; try discriminate.
  unfold py_item, dict_item.
  destruct (dict_lookup d (u "snippet")); [|discriminate].
  destruct (dict_lookup d (u "name")); [|discriminate].
  destruct (dict_lookup d (u "id")); [|discriminate]. auto.
Qed.

Section Batch.
Context `{PyLib} `{Env}.
Variables (uid : Z) (resume : pystr).

Lemma loop_step v rest sent st :
  readable v = true ->
  auto_apply_loop uid resume (v :: rest) sent st
  = match respond (letter_request resume v) (world st) with
    | (g, w1) =>
        let st1 := {| db := db st; app := app st; world := w1;
                      trace := trace st ++ [(letter_request resume v, g)] |} in
        match letter_of g with
        | inl e => (inl e, st1)
        | inr cover =>
            match chosen_resume (db st) uid with
            | None =>
                auto_apply_loop uid resume rest sent
                  {| db := db st; app := app st; world := w1;
                     trace := trace st1 ++
                              [(LogWarning (field v (u "id"))
                                  (RuntimeError (u "Резюме не выбрано")), inr RNone)] |}
            | Some rid =>
                match respond (apply_request (db st) uid v rid cover) w1 with
                | (inr r, w2) =>
                    auto_apply_loop uid resume rest (sent + 1)
                      {| db := db st; app := app st; world := w2;
                         trace := trace st1 ++
                                  [(apply_request (db st) uid v rid cover, inr r)] |}
                | (inl e, w2) =>
                    auto_apply_loop uid resume rest sent
                      {| db := db st; app := app st; world := w2;
                         trace := (trace st1 ++
                                  [(apply_request (db st) uid v rid cover, inl e)])
                                  ++ [(LogWarning (field v (u "id")) e, inr RNone)] |}
                end
            end
        end
    end.
Proof.
  intros Hv. destruct (readable_fields v Hv) as (Hs & Hn & Hi).
  cbn [auto_apply_loop]. unfold bind at 1. unfold lift_result at 1. rewrite Hs.
  unfold bind at 1.
  assert (Hsub : (if truthy (field v (u "snippet")) then ret (field v (u "snippet"))
                  else lift_result (py_item v (u "name"))) st
                 = (inr (letter_subject v), st)).
  { unfold letter_subject. rewrite Hn. now destruct (truthy _). }
  rewrite Hsub.
  unfold bind at 1. unfold generate_cover_letter, bind at 1, perform.
  fold (letter_request resume v).
  destruct (respond (letter_request resume v) (world st)) as [g w1].
  destruct g as [e|g]; [reflexivity|].
  unfold lift_result at 1, letter_of.
  destruct (cover_of_reply g) as [e|cover]; [reflexivity|].
  unfold bind at 1, try_except, bind at 1, lift_result at 1. rewrite Hi.
  unfold bind at 1, send_apply, bind at 1, on_db at 1, get_user_token, bind at 1, get_state, ret.
  cbn [db app world trace fst snd].
  unfold bind at 1, on_db at 1, get_user_setting, bind at 1, get_state, ret.
  cbn [db app world trace fst snd].
  unfold chosen_resume.
  destruct (select_setting uid resume_key (user_settings (db st))) as [[|c r]|].
  - reflexivity.
  - unfold bind at 1, perform. cbn [db app world trace].
    fold (token_of (db st) uid). fold (apply_request (db st) uid v (c :: r) cover).
    destruct (respond (apply_request (db st) uid v (c :: r) cover) w1) as [[e|r0] w2].
    + reflexivity.
    + reflexivity.
  - reflexivity.
Qed.

Lemma successes_cons b flags :
  successes (b :: flags) = (if b then 1 else 0) + successes flags.
Proof. unfold successes. destruct b; cbn [filter List.length]; lia. Qed.

Lemma letter_of_inr g cover :
  letter_of g = inr cover -> exists r, g = inr r /\ cover_of_reply r = inr cover.
Proof. destruct g as [e|r]; simpl; [discriminate|]. intros Hr. now exists r. Qed.

(** The loop either works through all postings, or stops at the first
    posting whose letter cannot be generated. *)
Lemma loop_run : forall vs sent st,
  forallb readable vs = true ->
  let out := auto_apply_loop uid resume vs sent st in
  db (snd out) = db st /\
  ((exists flags evs,
       batch_events (db st) uid resume vs flags evs /\
       trace (snd out) = trace st ++ evs /\
       fst out = inr (sent + successes flags))
   \/
   (exists vs1 v vs2 flags evs g e,
       vs = vs1 ++ v :: vs2 /\
       batch_events (db st) uid resume vs1 flags evs /\
       trace (snd out) = trace st ++ evs ++ [(letter_request resume v, g)] /\
       letter_of g = inl e /\
       fst out = inl e)).
Proof.
  induction vs as [|v rest IH]; intros sent st Hvs.
  - simpl. split; [reflexivity|]. left. exists [], []. repeat split.
    + constructor.
    + now rewrite app_nil_r.
    + unfold ret, successes. simpl. f_equal. lia.
  - cbn [forallb] in Hvs. apply andb_true_iff in Hvs as [Hv Hrest].
    cbv zeta. rewrite (loop_step v rest sent st Hv).
    destruct (respond (letter_request resume v) (world st)) as [g w1].
    cbv zeta.
    destruct (letter_of g) as [e|cover] eqn:Hg.
    { split; [reflexivity|]. right.
      exists [], v, rest, [], [], g, e. repeat split; auto. constructor. }
    apply letter_of_inr in Hg as (g0 & -> & Hcover).
    destruct (chosen_resume (db st) uid) as [rid|] eqn:Hrid.
    + destruct (respond (apply_request (db st) uid v rid cover) w1) as [[e|r] w2].
      * match goal with |- context [auto_apply_loop uid resume rest sent ?s] =>
          specialize (IH sent s Hrest); set (st' := s) in * end.
        cbv zeta in IH. destruct IH as [Hdb IH]. split; [exact Hdb|].
        destruct IH as [(flags & evs & Hb & Ht & Hr)
                       |(vs1 & v' & vs2 & flags & evs & g' & e' & Hvs & Hb & Ht & Hg' & Hr)].
        -- left. eexists (false :: flags), (_ ++ evs). split; [|split].
           ++ apply batch_next; [|exact Hb]. eapply posting_refused; eauto.
           ++ rewrite Ht. subst st'. cbn [trace]. now rewrite <- !app_assoc.
           ++ rewrite Hr, successes_cons. f_equal.
        -- right. eexists (v :: vs1), v', vs2, (false :: flags), (_ ++ evs), g', e'.
           split; [now rewrite Hvs|]. split; [|split; [|split]]; auto.
           ++ apply batch_next; [|exact Hb]. eapply posting_refused; eauto.
           ++ rewrite Ht. subst st'. cbn [trace]. now rewrite <- !app_assoc.
      * match goal with |- context [auto_apply_loop uid resume rest (sent + 1) ?s] =>
          specialize (IH (sent + 1) s Hrest); set (st' := s) in * end.
        cbv zeta in IH. destruct IH as [Hdb IH]. split; [exact Hdb|].
        destruct IH as [(flags & evs & Hb & Ht & Hr)
                       |(vs1 & v' & vs2 & flags & evs & g' & e' & Hvs & Hb & Ht & Hg' & Hr)].
        -- left. eexists (true :: flags), (_ ++ evs). split; [|split].
           ++ apply batch_next; [|exact Hb]. eapply posting_sent; eauto.
           ++ rewrite Ht. subst st'. cbn [trace]. now rewrite <- !app_assoc.
           ++ rewrite Hr, successes_cons. f_equal. lia.
        -- right. eexists (v :: vs1), v', vs2, (true :: flags), (_ ++ evs), g', e'.
           split; [now rewrite Hvs|]. split; [|split; [|split]]; auto.
           ++ apply batch_next; [|exact Hb]. eapply posting_sent; eauto.
           ++ rewrite Ht. subst st'. cbn [trace]. now rewrite <- !app_assoc.
    + match goal with |- context [auto_apply_loop uid resume rest sent ?s] =>
        specialize (IH sent s Hrest); set (st' := s) in * end.
      cbv zeta in IH. destruct IH as [Hdb IH]. split; [exact Hdb|].
      destruct IH as [(flags & evs & Hb & Ht & Hr)
                     |(vs1 & v' & vs2 & flags & evs & g' & e' & Hvs & Hb & Ht & Hg' & Hr)].
      * left. eexists (false :: flags), (_ ++ evs). split; [|split].
        -- apply batch_next; [|exact Hb]. eapply posting_without_resume; eauto.
        -- rewrite Ht. subst st'. cbn [trace]. now rewrite <- !app_assoc.
        -- rewrite Hr, successes_cons. f_equal.
      * right. eexists (v :: vs1), v', vs2, (false :: flags), (_ ++ evs), g', e'.
        split; [now rewrite Hvs|]. split; [|split; [|split]]; auto.
        -- apply batch_next; [|exact Hb]. eapply posting_without_resume; eauto.
        -- rewrite Ht. subst st'. cbn [trace]. now rewrite <- !app_assoc.
Qed.
End Batch.

Lemma batch_events_flags `{PyLib} d uid resume vs flags evs :
  batch_events d uid resume vs flags evs -> List.length flags = List.length vs.
Proof. induction 1; simpl; congruence. Qed.

Lemma successes_failures flags :
  successes flags + failures flags = Z.of_nat (List.length flags).
Proof.
  unfold successes, failures. induction flags as [|[|] flags IH];
    cbn [filter negb List.length]; lia.
Qed.

Lemma auto_apply_batch_run `{PyLib} `{Env} uid resume vs st :
  auto_apply_batch uid resume vs st
  = match auto_apply_loop uid resume vs 0 st with
    | (inr sent, st1) =>
        match respond (SendMessage uid (auto_report sent) None None) (world st1) with
        | (rep, w) =>
            (match rep with inl e => inl e | inr _ => inr OkTrue end,
             {| db := db st1; app := app st1; world := w;
                trace := trace st1
                         ++ [(SendMessage uid (auto_report sent) None None, rep)] |})
        end
    | (inl e, st1) => (inl e, st1)
    end.
Proof.
  unfold auto_apply_batch, bind.
  destruct (auto_apply_loop uid resume vs 0 st) as [[e|sent] st1]; [reflexivity|].
  unfold perform.
  destruct (respond _ (world st1)) as [[e|r] w]; reflexivity.
Qed.

Lemma failures_cons b flags :
  failures (b :: flags) = (if b then 0 else 1) + failures flags.
Proof. unfold failures. destruct b; cbn [filter negb List.length]; lia. Qed.

Lemma batch_events_generations `{PyLib} d uid resume vs flags evs :
  batch_events d uid resume vs flags evs ->
  generations evs
  = map (fun v => cover_letter_prompt (py_str (letter_subject v)) resume) vs.
Proof.
  induction 1 as [|v vs b bs ev evs Hp Hb IH]; [reflexivity|].
  transitivity (generations ev ++ generations evs); [apply flat_map_app|].
  rewrite IH. now destruct Hp.
Qed.

Lemma batch_events_submissions `{PyLib} d uid resume vs flags evs rid :
  chosen_resume d uid = Some rid ->
  batch_events d uid resume vs flags evs ->
  submissions evs = map (fun v => field v (u "id")) vs.
Proof.
  intros Hrid. induction 1 as [|v vs b bs ev evs Hp Hb IH]; [reflexivity|].
  transitivity (submissions ev ++ submissions evs); [apply flat_map_app|].
  rewrite IH. destruct Hp; [reflexivity|reflexivity|congruence].
Qed.

Lemma batch_events_warnings `{PyLib} d uid resume vs flags evs :
  batch_events d uid resume vs flags evs ->
  Z.of_nat (List.length (warnings evs)) = failures flags.
Proof.
  induction 1 as [|v vs b bs ev evs Hp Hb IH]; [reflexivity|].
  replace (warnings (ev ++ evs)) with (warnings ev ++ warnings evs)
    by (symmetry; apply flat_map_app).
  rewrite length_app, Nat2Z.inj_add, IH, failures_cons.
  now destruct Hp.
Qed.

Lemma batch_events_sent_resume `{PyLib} d uid resume vs flags evs :
  batch_events d uid resume vs flags evs -> 0 < successes flags ->
  exists rid, chosen_resume d uid = Some rid.
Proof.
  induction 1 as [|v vs b bs ev evs Hp Hb IH]; [unfold successes; simpl; lia|].
  rewrite successes_cons. destruct Hp; eauto. 
Qed.



(** The run of the sample batch. *)
Example start_auto_reports_17_of_20 :
  let out := Sample.webhook Sample.twenty_three_refused
               (CallbackUpdate (Sample.press 7 (u "start_auto")))
               (Sample.start _ Sample.store_with_resume) in
  fst out = inr OkTrue /\
  reports (trace (snd out)) = [u "🚀 Автоотклики отправлены: 17/20"] /\
  List.length (generations (trace (snd out))) = 20%nat /\
  List.length (submissions (trace (snd out))) = 20%nat /\
  warnings (trace (snd out)) = [JStr (u "3"); JStr (u "7"); JStr (u "11")].
Proof. vm_compute. repeat split; reflexivity. Qed.


(** ** Observations kept by the handlers *)

Section Keeps.
Context `{PyLib} `{Env}.
Context {X : Type} (obs : Store -> X).

Lemma keeps_ret {A} (a : A) : keeps obs (ret a).
Proof. intros st. reflexivity. Qed.

Lemma keeps_raise {A} e : keeps obs (@raise St A e).
Proof. intros st. reflexivity. Qed.

Lemma keeps_lift_result {A} (r : result A) : keeps obs (lift_result r).
Proof. intros st. reflexivity. Qed.

Lemma keeps_bind {A B} (m : M St A) (k : A -> M St B) :
  keeps obs m -> (forall a, keeps obs (k a)) -> keeps obs (bind m k).
Proof.
  intros Hm Hk st. unfold bind. specialize (Hm st).
  destruct (m st) as [[e|a] st1]; [exact Hm|].
  rewrite (Hk a st1). exact Hm.
Qed.

Lemma keeps_try_except {A} (m : M St A) (h : exn -> M St A) :
  keeps obs m -> (forall e, keeps obs (h e)) -> keeps obs (try_except m h).
Proof.
  intros Hm Hh st. unfold try_except. specialize (Hm st).
  destruct (m st) as [[e|a] st1]; [|exact Hm].
  rewrite (Hh e st1). exact Hm.
Qed.

Lemma keeps_try_finally {A} (m : M St A) (f : M St unit) :
  keeps obs m -> keeps obs f -> keeps obs (try_finally m f).
Proof.
  intros Hm Hf st. unfold try_finally. specialize (Hm st).
  destruct (m st) as [r st1]. specialize (Hf st1).
  destruct (f st1) as [[e|[]] st2]; cbn [snd] in *; congruence.
Qed.

Lemma keeps_perform rq : keeps obs (perform rq).
Proof. intros st. unfold perform. now destruct (respond rq (world st)). Qed.

Lemma keeps_log id e : keeps obs (log_warning id e).
Proof. intros st. reflexivity. Qed.

Lemma keeps_get_app : keeps obs get_app.
Proof. intros st. reflexivity. Qed.

Lemma keeps_set_app a : keeps obs (set_app a).
Proof. intros st. reflexivity. Qed.

Lemma keeps_on_db {A} (m : M Store A) : db_keeps obs m -> keeps obs (on_db m).
Proof.
  intros Hm st. unfold on_db. specialize (Hm (db st)).
  now destruct (m (db st)).
Qed.
End Keeps.

Ltac keeps_step :=
  match goal with
  | |- keeps _ (bind _ _) => apply keeps_bind; [|intros ?]
  | |- keeps _ (ret _) => apply keeps_ret
  | |- keeps _ (raise _) => apply keeps_raise
  | |- keeps _ (lift_result _) => apply keeps_lift_result
  | |- keeps _ (try_except _ _) => apply keeps_try_except; [|intros ?]
  | |- keeps _ (try_finally _ _) => apply keeps_try_finally
  | |- keeps _ (perform _) => apply keeps_perform
  | |- keeps _ (log_warning _ _) => apply keeps_log
  | |- keeps _ get_app => apply keeps_get_app
  | |- keeps _ (set_app _) => apply keeps_set_app
  | |- keeps _ (if ?b then _ else _) => destruct b
  | |- keeps _ (match ?x with _ => _ end) => destruct x
  | |- keeps _ (let (_, _) := ?x in _) => destruct x
  end.

Section KeepsHandlers.
Context `{PyLib} `{Env}.
Context {X : Type} (obs : Store -> X).

Lemma keeps_answer id note alert : keeps obs (answer_callback_query id note alert).
Proof. unfold answer_callback_query. repeat keeps_step. Qed.

Lemma keeps_safe_edit_markup m mk : keeps obs (safe_edit_markup m mk).
Proof. unfold safe_edit_markup. repeat keeps_step. Qed.

Lemma keeps_safe_edit_text m body mk html : keeps obs (safe_edit_text m body mk html).
Proof. unfold safe_edit_text. repeat keeps_step. Qed.

Lemma keeps_safe_edit_media m p body mk : keeps obs (safe_edit_media m p body mk).
Proof. unfold safe_edit_media. repeat keeps_step; apply keeps_safe_edit_text. Qed.
End KeepsHandlers.

Section StoreKeeps.
Context `{PyLib}.
Context {X : Type} (obs : Store -> X).
Hypothesis obs_users : forall d t c, obs (with_users d t c) = obs d.
Hypothesis obs_favorites : forall d t, obs (with_favorites d t) = obs d.

Lemma db_keeps_ensure_user uid : db_keeps obs (ensure_user uid).
Proof.
  intros d. unfold ensure_user, modify. cbn [snd].
  destruct (existsb _ _); [reflexivity|apply obs_users].
Qed.

Lemma db_keeps_get_user_token uid : db_keeps obs (get_user_token uid).
Proof. intros d. reflexivity. Qed.

Lemma db_keeps_select_settings_msg_id uid : db_keeps obs (select_settings_msg_id uid).
Proof.
  intros d. unfold select_settings_msg_id, bind, get_state.
  now destruct (users_has_msg_col d).
Qed.

Lemma db_keeps_update_settings_msg_id m uid : db_keeps obs (update_settings_msg_id m uid).
Proof.
  intros d. unfold update_settings_msg_id, bind, get_state, modify.
  destruct (users_has_msg_col d); [apply obs_users|reflexivity].
Qed.

Lemma db_keeps_add_column : db_keeps obs add_settings_msg_column.
Proof. intros d. apply obs_users. Qed.

Lemma db_keeps_select_pending uid : db_keeps obs (select_pending_jobs uid).
Proof. intros d. reflexivity. Qed.

Lemma db_keeps_select_favorites uid : db_keeps obs (select_favorites uid).
Proof. intros d. reflexivity. Qed.

Lemma db_keeps_insert_favorite uid v t url : db_keeps obs (insert_favorite uid v t url).
Proof.
  intros d. unfold insert_favorite, modify. cbn [snd].
  destruct (existsb _ _); [reflexivity|apply obs_favorites].
Qed.

Lemma db_keeps_delete_favorite uid fid : db_keeps obs (delete_favorite uid fid).
Proof. intros d. apply obs_favorites. Qed.

Lemma db_keeps_get_user_setting uid key : db_keeps obs (get_user_setting uid key).
Proof. intros d. reflexivity. Qed.

Lemma db_keeps_get_pending uid : db_keeps obs (get_pending uid).
Proof. intros d. reflexivity. Qed.

Lemma db_keeps_set_pending uid v :
  blind_to_setting obs uid pending_key -> db_keeps obs (set_pending uid v).
Proof. intros Hb d. apply Hb. Qed.

Lemma db_keeps_save_user_setting uid key v :
  blind_to_setting obs uid key -> db_keeps obs (save_user_setting uid key v).
Proof. intros Hb d. apply Hb. Qed.

Lemma db_keeps_toggle uid key v :
  blind_to_setting obs uid key -> db_keeps obs (toggle_multi_value uid key v).
Proof. intros Hb d. apply Hb. Qed.

Lemma db_keeps_next_jobs_page uid :
  blind_to_setting obs uid jobs_page_key -> db_keeps obs (next_jobs_page uid).
Proof.
  intros Hb d. cbv [next_jobs_page bind get_user_setting get_state ret lift_result].
  destruct (int_or_zero (select_setting uid jobs_page_key (user_settings d)));
    [reflexivity|]. apply Hb.
Qed.

Lemma db_keeps_upsert_pending uid jobs :
  blind_to_pending_jobs obs -> db_keeps obs (upsert_pending_jobs uid jobs).
Proof. intros Hb d. apply Hb. Qed.

Lemma db_keeps_update_cursor c uid :
  blind_to_pending_jobs obs -> db_keeps obs (update_pending_cursor c uid).
Proof. intros Hb d. apply Hb. Qed.

Lemma db_keeps_delete_pending uid :
  blind_to_pending_jobs obs -> db_keeps obs (delete_pending_jobs uid).
Proof. intros Hb d. apply Hb. Qed.
End StoreKeeps.

Create HintDb keeps.
#[export] Hint Resolve db_keeps_ensure_user db_keeps_get_user_token
  db_keeps_select_settings_msg_id db_keeps_update_settings_msg_id
  db_keeps_add_column db_keeps_select_pending db_keeps_select_favorites
  db_keeps_insert_favorite db_keeps_delete_favorite db_keeps_get_user_setting
  db_keeps_get_pending db_keeps_set_pending db_keeps_save_user_setting
  db_keeps_toggle db_keeps_next_jobs_page db_keeps_upsert_pending
  db_keeps_update_cursor db_keeps_delete_pending : keeps.
#[export] Hint Resolve keeps_answer keeps_safe_edit_markup keeps_safe_edit_text
  keeps_safe_edit_media : keeps.

Ltac keeps_auto :=
  repeat first
    [ keeps_step
    | match goal with
      | |- keeps _ (on_db _) => apply keeps_on_db; solve [eauto with keeps]
      end
    | solve [eauto with keeps] ].

Section HandlerKeeps.
Context `{PyLib} `{Env}.
Context {X : Type} (obs : Store -> X).
Hypothesis obs_users : forall d t c, obs (with_users d t c) = obs d.
Hypothesis obs_favorites : forall d t, obs (with_favorites d t) = obs d.

Lemma keeps_get_settings_msg_id uid : keeps obs (get_settings_msg_id uid).
Proof. unfold get_settings_msg_id. keeps_auto. Qed.

Lemma keeps_set_settings_msg_id uid m : keeps obs (set_settings_msg_id uid m).
Proof. unfold set_settings_msg_id. keeps_auto. Qed.

Lemma keeps_sent_id r : keeps obs (sent_id r).
Proof. unfold sent_id. keeps_auto. Qed.

#[local] Hint Resolve keeps_get_settings_msg_id keeps_set_settings_msg_id keeps_sent_id : keeps.

Lemma keeps_safe_edit_text_by_id uid m body mk html :
  keeps obs (safe_edit_text_by_id uid m body mk html).
Proof. unfold safe_edit_text_by_id. keeps_auto. Qed.

Lemma keeps_safe_delete c m : keeps obs (safe_delete c m).
Proof. unfold safe_delete. keeps_auto. Qed.

Lemma keeps_update_app f : keeps obs (update_app f).
Proof. unfold update_app. keeps_auto. Qed.

Lemma keeps_generate v r : keeps obs (generate_cover_letter v r).
Proof. unfold generate_cover_letter. keeps_auto. Qed.

Lemma keeps_get_resume_summary uid : keeps obs (get_resume_summary uid).
Proof. unfold get_resume_summary. keeps_auto. Qed.

Lemma keeps_send_apply uid v c : keeps obs (send_apply uid v c).
Proof. unfold send_apply. keeps_auto. Qed.

Lemma keeps_send_card uid logo body kb : keeps obs (send_card uid logo body kb).
Proof. unfold send_card. keeps_auto. Qed.

#[local] Hint Resolve keeps_safe_edit_text_by_id keeps_safe_delete keeps_update_app
  keeps_generate keeps_get_resume_summary keeps_send_apply keeps_send_card : keeps.

Lemma keeps_auto_apply_loop uid resume vs :
  forall sent, keeps obs (auto_apply_loop uid resume vs sent).
Proof.
  induction vs as [|v rest IH]; intros sent; cbn [auto_apply_loop]; keeps_auto.
Qed.

#[local] Hint Resolve keeps_auto_apply_loop : keeps.

Lemma keeps_auto_apply_batch uid resume vs : keeps obs (auto_apply_batch uid resume vs).
Proof. unfold auto_apply_batch. keeps_auto. Qed.

#[local] Hint Resolve keeps_auto_apply_batch : keeps.

Lemma keeps_on_start_auto call uid : keeps obs (on_start_auto call uid).
Proof. unfold on_start_auto. keeps_auto. Qed.

Lemma keeps_show_prev_job call uid : keeps obs (show_prev_job call uid).
Proof. unfold show_prev_job. keeps_auto. Qed.

Lemma keeps_show_prev_fav call uid : keeps obs (show_prev_fav call uid).
Proof. unfold show_prev_fav. keeps_auto. Qed.

Lemma keeps_show_next_fav call uid : keeps obs (show_next_fav call uid).
Proof. unfold show_next_fav. keeps_auto. Qed.

Lemma keeps_build_filters_summary uid : keeps obs (build_filters_summary uid).
Proof. unfold build_filters_summary. keeps_auto. Qed.

#[local] Hint Resolve keeps_show_prev_job keeps_show_prev_fav keeps_show_next_fav
  keeps_build_filters_summary keeps_on_start_auto : keeps.

Lemma keeps_on_back_menu call uid : keeps obs (on_back_menu call uid).
Proof. unfold on_back_menu. keeps_auto. Qed.

Lemma keeps_on_open_settings call uid : keeps obs (on_open_settings call uid).
Proof. unfold on_open_settings. keeps_auto. Qed.

Lemma keeps_on_open_resumes call uid : keeps obs (on_open_resumes call uid).
Proof. unfold on_open_resumes. keeps_auto. Qed.

Lemma keeps_on_open_favorites call uid : keeps obs (on_open_favorites call uid).
Proof. unfold on_open_favorites. keeps_auto. Qed.

Lemma keeps_on_fav_del call uid : keeps obs (on_fav_del call uid).
Proof. unfold on_fav_del. keeps_auto. Qed.

Lemma keeps_on_show_filters call uid : keeps obs (on_show_filters call uid).
Proof. unfold on_show_filters. keeps_auto. Qed.

Lemma keeps_on_back_settings call uid : keeps obs (on_back_settings call uid).
Proof. unfold on_back_settings. keeps_auto. Qed.

Lemma keeps_on_find_jobs call uid : keeps obs (on_find_jobs call uid).
Proof. unfold on_find_jobs. keeps_auto. Qed.

Lemma keeps_on_job_apply call uid : keeps obs (on_job_apply call uid).
Proof. unfold on_job_apply. keeps_auto. Qed.

Lemma keeps_on_job_fav call uid : keeps obs (on_job_fav call uid).
Proof. unfold on_job_fav. keeps_auto. Qed.
End HandlerKeeps.

Section Triples.
Context `{PyLib} `{Env}.

Lemma triple_keeps {A} (m : M St A) P :
  keeps pending_jobs m -> triple P m (fun _ => P) P.
Proof.
  intros Hm st HP. specialize (Hm st).
  destruct (m st) as [[e|a] st']; cbn [snd] in Hm; now rewrite Hm.
Qed.

Lemma triple_bind {A B} (m : M St A) (k : A -> M St B) P Q1 Q R :
  triple P m Q1 R -> (forall a, triple (Q1 a) (k a) Q R) ->
  triple P (bind m k) Q R.
Proof.
  intros Hm Hk st HP. unfold bind. specialize (Hm st HP).
  destruct (m st) as [[e|a] st1]; [exact Hm|]. now apply Hk.
Qed.

Lemma triple_weaken {A} (m : M St A) (P P' : list pending_row -> Prop)
    (Q Q' : A -> list pending_row -> Prop) (R R' : list pending_row -> Prop) :
  triple P m Q R ->
  (forall t, P' t -> P t) -> (forall a t, Q a t -> Q' a t) -> (forall t, R t -> R' t) ->
  triple P' m Q' R'.
Proof.
  intros Hm HP HQ HR st HP'. specialize (Hm st (HP _ HP')).
  destruct (m st) as [[e|a] st']; auto.
Qed.

Lemma triple_ret {A} (a : A) (Q : A -> list pending_row -> Prop) R :
  triple (Q a) (ret a) Q R.
Proof. intros st HQ. exact HQ. Qed.

Lemma triple_lift {A} (r : result A) P :
  triple P (lift_result r) (fun a t => r = inr a /\ P t) P.
Proof. intros st HP. unfold lift_result. destruct r; auto. Qed.

Lemma triple_select uid P :
  triple P (on_db (select_pending_jobs uid))
    (fun r t => r = pending_row_of t uid /\ P t) P.
Proof. intros st HP. cbn. auto. Qed.

Lemma triple_update cur uid P :
  triple P (on_db (update_pending_cursor cur uid))
    (fun _ t' => exists t, P t /\ t' = set_pending_cursor cur uid t) P.
Proof. intros st HP. cbn. eauto. Qed.

Lemma triple_delete uid P :
  triple P (on_db (delete_pending_jobs uid))
    (fun _ t' => exists t, P t /\ t' = delete_pending_row uid t) P.
Proof. intros st HP. cbn. eauto. Qed.

Lemma triple_upsert uid jobs P :
  triple P (on_db (upsert_pending_jobs uid jobs))
    (fun _ t' => exists t, P t /\ t' = upsert_pending_row uid jobs t) P.
Proof. intros st HP. cbn. eauto. Qed.
End Triples.

(** ** The pending_jobs table *)

Lemma pending_row_of_some t uid row :
  pending_row_of t uid = Some row -> In row t /\ p_user row = uid.
Proof.
  unfold pending_row_of. intros Hf. apply find_some in Hf as [Hin Hu].
  split; [assumption|]. now apply Z.eqb_eq.
Qed.

Lemma nodup_key_unique (t : list pending_row) r1 r2 :
  NoDup (map p_user t) -> In r1 t -> In r2 t -> p_user r1 = p_user r2 -> r1 = r2.
Proof.
  induction t as [|x t IH]; simpl; [tauto|].
  intros Hnd H1 H2 Hk. inversion Hnd as [|? ? Hx Hnd']; subst.
  destruct H1 as [<-|H1], H2 as [<-|H2]; auto.
  - exfalso. apply Hx. rewrite Hk. now apply in_map.
  - exfalso. apply Hx. rewrite <- Hk. now apply in_map.
Qed.

Lemma set_pending_cursor_keys cur uid t :
  map p_user (set_pending_cursor cur uid t) = map p_user t.
Proof.
  unfold set_pending_cursor. rewrite map_map. apply map_ext.
  intros r. now destruct (p_user r =? uid).
Qed.

Lemma pending_ok_set_cursor cur uid t row :
  pending_ok t -> pending_row_of t uid = Some row ->
  0 <= cur < len (p_jobs row) ->
  pending_ok (set_pending_cursor cur uid t).
Proof.
  intros [Hnd Hall] Hrow Hcur. split.
  - now rewrite set_pending_cursor_keys.
  - unfold set_pending_cursor. rewrite Forall_map, Forall_forall.
    rewrite Forall_forall in Hall. intros r Hr.
    destruct (Z.eqb_spec (p_user r) uid) as [Hu|_]; [|auto].
    apply pending_row_of_some in Hrow as [Hin Hu'].
    assert (r = row) by (apply (nodup_key_unique t); congruence).
    subst r. exact Hcur.
Qed.

Lemma pending_row_of_set_cursor cur uid t :
  pending_row_of (set_pending_cursor cur uid t) uid
  = option_map (fun r => {| p_user := p_user r; p_jobs := p_jobs r; p_cursor := cur |})
      (pending_row_of t uid).
Proof.
  unfold pending_row_of, set_pending_cursor.
  induction t as [|r t IH]; simpl; [reflexivity|].
  destruct (Z.eqb_spec (p_user r) uid) as [Hu|Hu]; simpl.
  - apply Z.eqb_eq in Hu. now rewrite Hu.
  - apply Z.eqb_neq in Hu. now rewrite Hu.
Qed.

Lemma pending_ok_delete uid t : pending_ok t -> pending_ok (delete_pending_row uid t).
Proof.
  intros [Hnd Hall]. unfold delete_pending_row. split.
  - clear Hall. induction t as [|r t IH]; simpl; [constructor|].
    inversion Hnd as [|? ? Hx Hnd']; subst.
    destruct (negb (p_user r =? uid)); simpl; auto.
    constructor; auto. intros Hin. apply Hx.
    apply in_map_iff in Hin as (r' & Hr' & Hin). apply filter_In in Hin as [Hin _].
    rewrite <- Hr'. now apply in_map.
  - rewrite Forall_forall in *. intros r Hr. apply filter_In in Hr as [Hr _]. auto.
Qed.

Lemma pending_row_of_delete uid t : pending_row_of (delete_pending_row uid t) uid = None.
Proof.
  unfold pending_row_of, delete_pending_row.
  induction t as [|r t IH]; simpl; [reflexivity|].
  destruct (p_user r =? uid) eqn:E; simpl; [exact IH|]. now rewrite E.
Qed.

Lemma pending_ok_upsert uid jobs t :
  pending_ok t -> jobs <> [] -> pending_ok (upsert_pending_row uid jobs t).
Proof.
  intros [Hnd Hall] Hjobs. unfold upsert_pending_row.
  assert (Hfresh : cursor_in_range {| p_user := uid; p_jobs := jobs; p_cursor := 0 |}).
  { unfold cursor_in_range, len; simpl. destruct jobs; [congruence|simpl; lia]. }
  destruct (existsb (fun r => p_user r =? uid) t) eqn:E; split.
  - rewrite map_map.
    replace (map (fun x => p_user (if p_user x =? uid then _ else x)) t)
      with (map p_user t); [assumption|].
    apply map_ext. intros r. destruct (Z.eqb_spec (p_user r) uid); simpl; congruence.
  - rewrite Forall_map. rewrite Forall_forall in *. intros r Hr.
    destruct (p_user r =? uid); auto.
  - rewrite map_app. simpl. apply NoDup_app; auto.
    + repeat constructor. simpl. tauto.
    + intros k Hk [<-|[]].
      apply in_map_iff in Hk as (r & Hr & Hin).
      assert (existsb (fun r => p_user r =? uid) t = true)
        by (apply existsb_exists; exists r; split; [assumption|now apply Z.eqb_eq]).
      congruence.
  - apply Forall_app. split; [assumption|]. constructor; [exact Hfresh|constructor].
Qed.

Lemma pending_row_of_upsert uid jobs t :
  pending_row_of (upsert_pending_row uid jobs t) uid
  = Some {| p_user := uid; p_jobs := jobs; p_cursor := 0 |}.
Proof.
  unfold pending_row_of, upsert_pending_row.
  destruct (existsb (fun r => p_user r =? uid) t) eqn:E.
  - induction t as [|r t IH]; simpl in *; [discriminate|].
    destruct (p_user r =? uid) eqn:Er; simpl.
    + now rewrite Z.eqb_refl.
    + rewrite Er. apply IH. exact E.
  - rewrite find_app. 
    assert (Hn : find (fun r => p_user r =? uid) t = None).
    { destruct (find _ t) eqn:F; [|reflexivity].
      apply find_some in F as [Hin Hu].
      assert (existsb (fun r => p_user r =? uid) t = true)
        by (apply existsb_exists; eauto). congruence. }
    rewrite Hn. simpl. now rewrite Z.eqb_refl.
Qed.

Lemma skip_non_dicts_spec jobs : forall fuel cur c,
  0 <= cur -> len jobs - cur <= Z.of_nat fuel ->
  skip_non_dicts fuel jobs cur = inr c ->
  cur <= c /\
  (c < len jobs -> exists job, list_index jobs c = inr job /\ is_dict job = true).
Proof.
  induction fuel as [|f IH]; intros cur c Hpos Hfuel; simpl.
  - intros [= <-]. split; [lia|]. intros; lia.
  - destruct (Z.ltb_spec cur (len jobs)) as [Hlt|Hge].
    + destruct (list_index jobs cur) as [e|job] eqn:Hjob; [discriminate|].
      destruct (is_dict job) eqn:Hd; simpl.
      * intros [= <-]. split; [lia|]. intros _. now exists job.
      * intros Hrec. apply IH in Hrec; [|lia|lia]. split; [lia|apply Hrec].
    + intros [= <-]. split; [lia|]. intros; lia.
Qed.

Section Walk.
Context `{PyLib} `{Env}.

(** Rules for walking through a handler from a known table. *)
Lemma at_keeps {A B} (m : M St A) (k : A -> M St B) t Q (R : list pending_row -> Prop) :
  keeps pending_jobs m -> R t ->
  (forall a, triple (eq t) (k a) Q R) ->
  triple (eq t) (bind m k) Q R.
Proof.
  intros Hm HR Hk. apply triple_bind with (Q1 := fun _ => eq t); [|exact Hk].
  eapply triple_weaken; [apply (triple_keeps m (eq t) Hm)| | |]; simpl; auto.
  intros t' <-. exact HR.
Qed.

Lemma at_keeps_end {A} (m : M St A) t (Q : A -> list pending_row -> Prop)
    (R : list pending_row -> Prop) :
  keeps pending_jobs m -> R t -> (forall a, Q a t) -> triple (eq t) m Q R.
Proof.
  intros Hm HR HQ.
  eapply triple_weaken; [apply (triple_keeps m (eq t) Hm)| | |]; simpl; auto.
  - intros a t' <-. apply HQ.
  - intros t' <-. exact HR.
Qed.

Lemma at_lift {A B} (r : result A) (k : A -> M St B) t Q (R : list pending_row -> Prop) :
  R t -> (forall a, r = inr a -> triple (eq t) (k a) Q R) ->
  triple (eq t) (bind (lift_result r) k) Q R.
Proof.
  intros HR Hk st Ht. unfold bind, lift_result.
  destruct r as [e|a]; [now rewrite <- Ht|]. now apply Hk.
Qed.

Lemma at_select {B} uid (k : option pending_row -> M St B) t Q R :
  triple (eq t) (k (pending_row_of t uid)) Q R ->
  triple (eq t) (bind (on_db (select_pending_jobs uid)) k) Q R.
Proof.
  intros Hk st Ht. specialize (Hk st Ht).
  unfold bind at 1, on_db, select_pending_jobs, bind, get_state, ret.
  rewrite <- Ht.
  replace {| db := db st; app := app st; world := world st; trace := trace st |}
    with st by now destruct st.
  exact Hk.
Qed.

Lemma at_update {B} cur uid (k : unit -> M St B) t Q R :
  triple (eq (set_pending_cursor cur uid t)) (k tt) Q R ->
  triple (eq t) (bind (on_db (update_pending_cursor cur uid)) k) Q R.
Proof.
  intros Hk st Ht.
  unfold bind at 1, on_db.
  cbv [update_pending_cursor upsert_pending_jobs delete_pending_jobs modify].
  apply Hk. cbn [db pending_jobs with_pending]. now rewrite <- Ht.
Qed.

Lemma at_upsert {B} uid jobs (k : unit -> M St B) t Q R :
  triple (eq (upsert_pending_row uid jobs t)) (k tt) Q R ->
  triple (eq t) (bind (on_db (upsert_pending_jobs uid jobs)) k) Q R.
Proof.
  intros Hk st Ht.
  unfold bind at 1, on_db.
  cbv [update_pending_cursor upsert_pending_jobs delete_pending_jobs modify].
  apply Hk. cbn [db pending_jobs with_pending]. now rewrite <- Ht.
Qed.

Lemma at_delete {B} uid (k : unit -> M St B) t Q R :
  triple (eq (delete_pending_row uid t)) (k tt) Q R ->
  triple (eq t) (bind (on_db (delete_pending_jobs uid)) k) Q R.
Proof.
  intros Hk st Ht.
  unfold bind at 1, on_db.
  cbv [update_pending_cursor upsert_pending_jobs delete_pending_jobs modify].
  apply Hk. cbn [db pending_jobs with_pending]. now rewrite <- Ht.
Qed.

Lemma at_ret {A} (a : A) t (Q : A -> list pending_row -> Prop) R :
  Q a t -> triple (eq t) (ret a) Q R.
Proof. intros HQ st Ht. unfold ret. now rewrite <- Ht. Qed.

Lemma jobs_exhausted_at call uid t (Q : response -> list pending_row -> Prop)
    (R : list pending_row -> Prop) :
  R t -> (forall a, Q a (delete_pending_row uid t)) ->
  triple (eq t) (jobs_exhausted call uid) Q R.
Proof.
  intros HR HQ. unfold jobs_exhausted.
  apply at_keeps; [apply keeps_answer|exact HR|intros _].
  apply at_keeps; [apply keeps_safe_edit_markup|exact HR|intros _].
  apply at_delete. apply at_ret. apply HQ.
Qed.

(** [job_next]: the table stays sound; when the handler returns, the
    user's row is gone or its cursor has moved on to a dict entry
    inside the list. *)
Lemma on_job_next_at call uid t :
  pending_ok t ->
  triple (eq t) (on_job_next call uid)
    (fun _ t' => pending_ok t' /\
                 match pending_row_of t uid with
                 | None => t' = t
                 | Some row => advanced row t' uid
                 end)
    pending_ok.
Proof.
  intros Hok. unfold on_job_next. apply at_select.
  destruct (pending_row_of t uid) as [row|] eqn:Hrow.
  2:{ apply at_keeps_end; [|exact Hok|auto].
      apply keeps_bind; [apply keeps_answer|intros; apply keeps_ret]. }
  destruct (pending_row_of_some _ _ _ Hrow) as [Hin Huid].
  assert (Hrange : cursor_in_range row)
    by (destruct Hok as [_ Hall]; rewrite Forall_forall in Hall; auto).
  unfold cursor_in_range in Hrange.
  apply at_keeps; [apply keeps_update_app|exact Hok|intros _].
  destruct (Z.geb_spec (p_cursor row + 1) (len (p_jobs row))) as [Hend|Hin1].
  { apply jobs_exhausted_at; [exact Hok|]. intros _. split.
    - now apply pending_ok_delete.
    - left. apply pending_row_of_delete. }
  apply at_update.
  set (t1 := set_pending_cursor (p_cursor row + 1) uid t).
  assert (Hok1 : pending_ok t1)
    by (apply (pending_ok_set_cursor _ _ _ row); auto; lia).
  assert (Hrow1 : pending_row_of t1 uid
                  = Some {| p_user := p_user row; p_jobs := p_jobs row;
                            p_cursor := p_cursor row + 1 |})
    by (unfold t1; now rewrite pending_row_of_set_cursor, Hrow).
  apply at_lift; [exact Hok1|]. intros cur Hskip.
  apply skip_non_dicts_spec in Hskip as [Hge Hdict]; [|lia|lia].
  destruct (Z.geb_spec cur (len (p_jobs row))) as [Hend|Hin2].
  { apply jobs_exhausted_at; [exact Hok1|]. intros _. split.
    - now apply pending_ok_delete.
    - left. apply pending_row_of_delete. }
  apply at_update.
  set (t2 := set_pending_cursor cur uid t1).
  assert (Hok2 : pending_ok t2)
    by (eapply pending_ok_set_cursor; [exact Hok1|exact Hrow1|simpl; lia]).
  apply at_keeps_end; [|exact Hok2|].
  - apply keeps_bind; [apply keeps_update_app|intros _].
    apply keeps_bind; [apply keeps_lift_result|intros job].
    apply keeps_bind; [apply keeps_lift_result|intros card].
    apply keeps_bind; [apply keeps_lift_result|intros job_id].
    apply keeps_bind; [apply keeps_perform|intros _].
    apply keeps_bind; [apply keeps_send_card|intros _].
    apply keeps_bind; [apply keeps_answer|intros _]. apply keeps_ret.
  - intros _. split; [exact Hok2|]. right.
    exists {| p_user := p_user row; p_jobs := p_jobs row; p_cursor := cur |}.
    split; [|split; [reflexivity|split]].
    + unfold t2. now rewrite pending_row_of_set_cursor, Hrow1.
    + simpl. lia.
    + unfold points_at_dict. simpl. apply Hdict. lia.
Qed.
End Walk.

Section TextKeeps.
Context `{PyLib} `{Env}.
Context {X : Type} (obs : Store -> X).
Hypothesis obs_users : forall d t c, obs (with_users d t c) = obs d.
Hypothesis obs_favorites : forall d t, obs (with_favorites d t) = obs d.

#[local] Hint Resolve keeps_get_settings_msg_id keeps_set_settings_msg_id
  keeps_sent_id keeps_safe_edit_text_by_id keeps_safe_delete keeps_update_app
  keeps_send_card : keeps.

Lemma keeps_run_jobs uid :
  blind_to_setting obs uid jobs_page_key -> blind_to_pending_jobs obs ->
  keeps obs (run_jobs uid).
Proof. intros Hj Hp. unfold run_jobs. keeps_auto. Qed.

Lemma keeps_delete_on_exit pending target : keeps obs (delete_on_exit pending target).
Proof. unfold delete_on_exit. keeps_auto. Qed.

#[local] Hint Resolve keeps_run_jobs keeps_delete_on_exit : keeps.

Lemma keeps_on_start uid :
  blind_to_setting obs uid pending_key -> keeps obs (on_start uid).
Proof. intros Hp. unfold on_start. keeps_auto. Qed.

Lemma keeps_on_jobs uid :
  blind_to_setting obs uid pending_key ->
  blind_to_setting obs uid jobs_page_key -> blind_to_pending_jobs obs ->
  keeps obs (on_jobs uid).
Proof. intros Hp Hj Hpj. unfold on_jobs. keeps_auto. Qed.

Lemma keeps_on_menu uid :
  blind_to_setting obs uid pending_key -> keeps obs (on_menu uid).
Proof. intros Hp. unfold on_menu. keeps_auto. Qed.

Lemma keeps_on_settings uid pending msg :
  blind_to_setting obs uid pending_key -> keeps obs (on_settings uid pending msg).
Proof. intros Hp. unfold on_settings. keeps_auto. Qed.

Lemma keeps_store_pending_input uid key value :
  blind_to_setting obs uid pending_key -> blind_to_setting obs uid key ->
  keeps obs (store_pending_input uid key value).
Proof. intros Hp Hk. unfold store_pending_input. keeps_auto. Qed.

Lemma keeps_ask_for call uid field prompt :
  blind_to_setting obs uid pending_key -> keeps obs (ask_for call uid field prompt).
Proof. intros Hp. unfold ask_for. keeps_auto. Qed.

Lemma keeps_on_multi_suggest call uid m values val :
  blind_to_setting obs uid m -> keeps obs (on_multi_suggest call uid m values val).
Proof. intros Hm. unfold on_multi_suggest. keeps_auto. Qed.

Lemma keeps_on_region_suggest call uid :
  blind_to_setting obs uid (u "region") -> keeps obs (on_region_suggest call uid).
Proof. intros Hm. unfold on_region_suggest. keeps_auto. Qed.

Lemma keeps_on_select_resume call uid :
  blind_to_setting obs uid resume_key -> keeps obs (on_select_resume call uid).
Proof. intros Hm. unfold on_select_resume. keeps_auto. Qed.
End TextKeeps.

Lemma pystr_neq_by_eqb a b : pystr_eqb a b = false -> a <> b.
Proof. apply pystr_eqb_neq. Qed.

Lemma setting_blind_other uid key uid' key' :
  (uid', key') <> (uid, key) -> blind_to_setting (setting_of uid key) uid' key'.
Proof.
  intros Hne d v. unfold setting_of. simpl.
  apply select_after_insert_other. congruence.
Qed.

Lemma setting_blind_other_key uid key key' :
  pystr_eqb key' key = false -> blind_to_setting (setting_of uid key) uid key'.
Proof.
  intros Hk. apply setting_blind_other. intros [= Heq].
  apply pystr_eqb_neq in Hk. contradiction.
Qed.

Lemma setting_blind_pending_jobs uid key : blind_to_pending_jobs (setting_of uid key).
Proof. intros d t. reflexivity. Qed.

Section Reset.
Context `{PyLib} `{Env}.
Context {X : Type} (obs : Store -> X).

Lemma ends_with_bind {A B} v (m : M St A) (k : A -> M St B) :
  ends_with obs v m -> (forall a, keeps obs (k a)) -> ends_with obs v (bind m k).
Proof.
  intros Hm Hk st. unfold bind. specialize (Hm st).
  destruct (m st) as [[e|a] st1]; [exact Hm|]. rewrite (Hk a st1). exact Hm.
Qed.

Lemma ends_with_try_except {A} v (m : M St A) (h : exn -> M St A) :
  ends_with obs v m -> (forall e, keeps obs (h e)) -> ends_with obs v (try_except m h).
Proof.
  intros Hm Hh st. unfold try_except. specialize (Hm st).
  destruct (m st) as [[e|a] st1]; [|exact Hm]. rewrite (Hh e st1). exact Hm.
Qed.

Lemma ends_with_try_finally {A} v (m : M St A) (f : M St unit) :
  ends_with obs v m -> keeps obs f -> ends_with obs v (try_finally m f).
Proof.
  intros Hm Hf st. unfold try_finally. specialize (Hm st).
  destruct (m st) as [r st1]. specialize (Hf st1).
  destruct (f st1) as [[e|[]] st2]; cbn [snd] in *; congruence.
Qed.
End Reset.

Section Commands.
Context `{PyLib} `{Env}.

Lemma ends_with_reset {B} uid (k : unit -> M St B) :
  (forall a, keeps (setting_of uid pending_key) (k a)) ->
  ends_with (setting_of uid pending_key) None
    (bind (on_db (set_pending uid None)) k).
Proof.
  intros Hk st. unfold bind at 1, on_db, set_pending, modify. rewrite Hk.
  unfold setting_of. cbn [db user_settings with_settings].
  apply select_after_insert.
Qed.

Lemma command_resets_pending uid pending msg txt :
  is_command txt = true ->
  ends_with (setting_of uid pending_key) None
    (if pystr_eqb txt (u "/start")
     then try_finally (on_start uid)
            (delete_on_exit pending (Some (chat_id msg, message_id msg)))
     else if pystr_eqb txt (u "/jobs")
     then try_finally (on_jobs uid)
            (delete_on_exit pending (Some (chat_id msg, message_id msg)))
     else if pystr_eqb txt (u "/menu")
     then try_finally (on_menu uid)
            (delete_on_exit pending (Some (chat_id msg, message_id msg)))
     else if pystr_eqb txt (u "/settings") then on_settings uid pending msg
     else try_finally (on_pending_input uid pending txt)
            (delete_on_exit pending (Some (chat_id msg, message_id msg)))).
Proof.
  intros Hcmd. unfold is_command in Hcmd. cbn [existsb] in Hcmd.
  assert (Hu : forall d t c, setting_of uid pending_key (with_users d t c)
                             = setting_of uid pending_key d) by reflexivity.
  assert (Hf : forall d t, setting_of uid pending_key (with_favorites d t)
                           = setting_of uid pending_key d) by reflexivity.
  assert (Hj : blind_to_setting (setting_of uid pending_key) uid jobs_page_key)
    by (apply setting_blind_other_key; reflexivity).
  pose proof (setting_blind_pending_jobs uid pending_key) as Hpj.
  destruct (pystr_eqb txt (u "/start")).
  { apply ends_with_try_finally; [|apply keeps_delete_on_exit].
    unfold on_start. apply ends_with_reset. intros _. keeps_auto;
      eauto using keeps_sent_id, keeps_set_settings_msg_id. }
  destruct (pystr_eqb txt (u "/jobs")).
  { apply ends_with_try_finally; [|apply keeps_delete_on_exit].
    unfold on_jobs. apply ends_with_reset. intros _. keeps_auto.
    apply keeps_run_jobs; auto. }
  destruct (pystr_eqb txt (u "/menu")).
  { apply ends_with_try_finally; [|apply keeps_delete_on_exit].
    unfold on_menu. apply ends_with_reset. intros _. keeps_auto;
      eauto using keeps_sent_id, keeps_set_settings_msg_id. }
  destruct (pystr_eqb txt (u "/settings")); [|discriminate].
  unfold on_settings. apply ends_with_bind.
  - apply ends_with_try_except.
    + apply ends_with_reset. intros _. keeps_auto.
    + intros e. keeps_auto. apply keeps_delete_on_exit.
  - intros r. keeps_auto;
      eauto using keeps_sent_id, keeps_set_settings_msg_id, keeps_delete_on_exit.
Qed.
End Commands.

(** ** Soundness of the pending_jobs table under every handler *)

Lemma pending_jobs_blind uid key : blind_to_setting pending_jobs uid key.
Proof. intros d v. reflexivity. Qed.

#[export] Hint Resolve keeps_on_db pending_jobs_blind : keeps.

Lemma py_iter_nonempty x items :
  truthy x = true -> py_iter x = inr items -> items <> [].
Proof.
  destruct x as [| | |s|l|d]; simpl; try discriminate; intros Ht [= <-];
    [destruct s|destruct l|destruct d]; simpl in *; congruence.
Qed.

Section Sound.
Context `{PyLib} `{Env}.

Lemma normalize_all_nonempty items vs :
  normalize_all items = inr vs -> items <> [] -> vs <> [].
Proof.
  destruct items as [|v r]; [congruence|]. simpl.
  destruct (normalize_vacancy v); [discriminate|].
  destruct (normalize_all r); [discriminate|]. intros [= <-] _. discriminate.
Qed.

Lemma sound_keeps {A} (m : M St A) : keeps pending_jobs m -> sound m.
Proof. apply triple_keeps. Qed.

Lemma sound_bind {A B} (m : M St A) (k : A -> M St B) :
  sound m -> (forall a, sound (k a)) -> sound (bind m k).
Proof. intros Hm Hk. eapply triple_bind; [exact Hm|exact Hk]. Qed.

Lemma sound_try_finally {A} (m : M St A) (f : M St unit) :
  sound m -> keeps pending_jobs f -> sound (try_finally m f).
Proof.
  intros Hm Hf st Hok. unfold try_finally. specialize (Hm st Hok).
  destruct (m st) as [r st1]. specialize (Hf st1).
  destruct (f st1) as [[e|[]] st2]; cbn [snd] in Hf; rewrite Hf;
    destruct r; exact Hm.
Qed.

Lemma sound_at {A} (m : M St A) :
  (forall t, pending_ok t -> triple (eq t) m (fun _ => pending_ok) pending_ok) ->
  sound m.
Proof. intros Hm st Hok. now apply (Hm _ Hok st). Qed.

Lemma run_jobs_at uid t :
  pending_ok t ->
  triple (eq t) (run_jobs uid)
    (fun _ t' => pending_ok t' /\ created_by_run_jobs uid t t')
    (fun t' => pending_ok t' /\ created_by_run_jobs uid t t').
Proof.
  intros Hok. unfold run_jobs.
  assert (Hsame : pending_ok t /\ created_by_run_jobs uid t t)
    by (split; [assumption|now left]).
  apply at_keeps; [keeps_auto|exact Hsame|intros token].
  apply at_keeps;
    [apply keeps_on_db, db_keeps_next_jobs_page, pending_jobs_blind
    |exact Hsame|intros page].
  apply at_keeps; [keeps_auto|exact Hsame|intros keyword].
  apply at_keeps; [keeps_auto|exact Hsame|intros r].
  apply at_keeps; [keeps_auto|exact Hsame|intros raw_vacs].
  destruct (truthy raw_vacs) eqn:Htruthy; cbn [negb].
  2:{ apply at_keeps_end; [keeps_auto|exact Hsame|intros _; exact Hsame]. }
  apply at_lift; [exact Hsame|intros items Hitems].
  apply at_lift; [exact Hsame|intros vacancies Hvac].
  apply at_upsert.
  assert (Hne : vacancies <> [])
    by (eapply normalize_all_nonempty; eauto using py_iter_nonempty).
  assert (Hnew : pending_ok (upsert_pending_row uid vacancies t) /\
                 created_by_run_jobs uid t (upsert_pending_row uid vacancies t)).
  { split; [now apply pending_ok_upsert|]. right. now exists vacancies. }
  apply at_keeps_end; [|exact Hnew|intros _; exact Hnew].
  keeps_auto; eauto using keeps_update_app, keeps_send_card.
Qed.

Lemma sound_run_jobs uid : sound (run_jobs uid).
Proof.
  apply sound_at. intros t Hok.
  eapply triple_weaken; [apply (run_jobs_at uid t Hok)| | |]; simpl; tauto.
Qed.

Lemma sound_on_job_next call uid : sound (on_job_next call uid).
Proof.
  apply sound_at. intros t Hok.
  eapply triple_weaken; [apply (on_job_next_at call uid t Hok)| | |]; simpl; tauto.
Qed.
End Sound.

Ltac sound_leaf :=
  apply sound_keeps;
  first
    [ solve [eauto using keeps_on_back_menu, keeps_on_start_auto, keeps_on_open_settings,
               keeps_on_open_resumes, keeps_on_open_favorites, keeps_show_prev_fav,
               keeps_show_next_fav, keeps_on_fav_del, keeps_on_show_filters,
               keeps_on_back_settings, keeps_on_find_jobs, keeps_show_prev_job,
               keeps_on_job_apply, keeps_on_job_fav, keeps_ask_for,
               keeps_on_multi_suggest, keeps_on_region_suggest, keeps_on_select_resume,
               keeps_on_start, keeps_on_menu, keeps_on_settings,
               keeps_store_pending_input, keeps_delete_on_exit, pending_jobs_blind
             with keeps]
    | solve [keeps_auto; eauto using pending_jobs_blind with keeps] ].

Ltac sound_auto :=
  repeat first
    [ match goal with
      | |- sound (bind _ _) => apply sound_bind; [|intros ?]
      | |- sound (try_finally _ _) =>
          apply sound_try_finally; [|solve [apply keeps_delete_on_exit]]
      | |- sound (run_jobs _) => apply sound_run_jobs
      | |- sound (on_job_next _ _) => apply sound_on_job_next
      | |- sound (if ?b then _ else _) => destruct b
      | |- sound (match ?x with _ => _ end) => destruct x
      end
    | sound_leaf ].

Section SoundHandlers.
Context `{PyLib} `{Env}.

Lemma sound_on_start_manual call uid : sound (on_start_manual call uid).
Proof. unfold on_start_manual. sound_auto. Qed.

Lemma sound_on_jobs uid : sound (on_jobs uid).
Proof. unfold on_jobs. sound_auto. Qed.

Lemma sound_on_filter call uid : sound (on_filter call uid).
Proof. unfold on_filter. sound_auto. Qed.

Lemma sound_on_callback_rest call uid : sound (on_callback_rest call uid).
Proof. unfold on_callback_rest. sound_auto. Qed.

Lemma sound_on_callback call : sound (on_callback call).
Proof.
  unfold on_callback.
  apply sound_bind; [sound_leaf|intros _].
  repeat match goal with
         | |- sound (if ?b then _ else _) => destruct b
         end;
    try (apply sound_bind; [|intros ?; sound_leaf]);
    try sound_leaf;
    try apply sound_on_start_manual.
  - apply sound_bind; [apply sound_on_filter|intros r].
    destruct r; [sound_leaf|apply sound_on_callback_rest].
  - apply sound_on_callback_rest.
Qed.

Lemma sound_on_pending_input uid pending txt : sound (on_pending_input uid pending txt).
Proof. unfold on_pending_input. sound_auto. Qed.

Lemma sound_on_text msg raw : sound (on_text msg raw).
Proof.
  unfold on_text.
  apply sound_bind; [sound_leaf|intros pending].
  apply sound_bind; [sound_leaf|intros _].
  repeat match goal with
         | |- sound (if ?b then _ else _) => destruct b
         end;
    try (apply sound_try_finally; [|apply keeps_delete_on_exit]);
    try apply sound_on_jobs; try apply sound_on_pending_input; sound_leaf.
Qed.

Lemma sound_telegram_webhook token upd : sound (telegram_webhook token upd).
Proof.
  unfold telegram_webhook.
  destruct (negb (pystr_eqb token BOT_TOKEN)); [sound_leaf|].
  destruct upd as [call|msg|].
  - apply sound_bind; [apply sound_on_callback|intros r]. sound_leaf.
  - destruct (text msg) as [[|c r]|]; [sound_leaf|apply sound_on_text|sound_leaf].
  - sound_leaf.
Qed.
End SoundHandlers.

(** ** The pending_jobs cursor *)

Lemma pending_ok_empty : pending_ok [].
Proof. split; constructor. Qed.

Lemma advanced_without_dicts row t' uid :
  advanced row t' uid ->
  (forall i job, p_cursor row < i < len (p_jobs row) ->
                 list_index (p_jobs row) i = inr job -> is_dict job = false) ->
  pending_row_of t' uid = None.
Proof.
  intros [Hnone|(row' & _ & Hjobs & Hcur & job & Hjob & Hdict)] Hno; [assumption|].
  rewrite Hjobs in *. rewrite (Hno _ _ Hcur Hjob) in Hdict. discriminate.
Qed.


Lemma pending_ok_after_jobs : pending_ok (pending_jobs (db Sample.after_jobs)).
Proof.
  unfold Sample.after_jobs, Sample.webhook.
  pose proof (@sound_telegram_webhook Sample.lib (Sample.env Sample.one_found)
                (u "4242:token") (Sample.text_update 7 (u "/jobs"))
                (Sample.start Sample.one_found empty_store) pending_ok_empty) as Hs.
  destruct (telegram_webhook _ _ _) as [[e|r] st']; exact Hs.
Qed.


(** ** Commands and the pending field *)

Section CommandSettings.
Context `{PyLib} `{Env}.

Lemma is_command_slash txt : is_command txt = true -> startswith txt [slash] = true.
Proof.
  unfold is_command. cbn [existsb]. rewrite !orb_true_iff, !pystr_eqb_eq.
  intros [->|[->|[->|[->|Hf]]]]; try reflexivity. discriminate.
Qed.

Lemma is_command_nonempty raw : is_command (strip raw) = true -> raw <> [].
Proof. intros Hc ->. discriminate. Qed.

(** A command leaves every setting other than [pending] and
    [jobs_page] as it was. *)
Lemma command_keeps_setting uid key pending msg txt :
  is_command txt = true ->
  pystr_eqb pending_key key = false -> pystr_eqb jobs_page_key key = false ->
  keeps (setting_of uid key)
    (if pystr_eqb txt (u "/start")
     then try_finally (on_start uid)
            (delete_on_exit pending (Some (chat_id msg, message_id msg)))
     else if pystr_eqb txt (u "/jobs")
     then try_finally (on_jobs uid)
            (delete_on_exit pending (Some (chat_id msg, message_id msg)))
     else if pystr_eqb txt (u "/menu")
     then try_finally (on_menu uid)
            (delete_on_exit pending (Some (chat_id msg, message_id msg)))
     else if pystr_eqb txt (u "/settings") then on_settings uid pending msg
     else try_finally (on_pending_input uid pending txt)
            (delete_on_exit pending (Some (chat_id msg, message_id msg)))).
Proof.
  intros Hcmd Hp Hj. unfold is_command in Hcmd. cbn [existsb] in Hcmd.
  pose proof (setting_blind_other_key uid key _ Hp) as Bp.
  pose proof (setting_blind_other_key uid key _ Hj) as Bj.
  pose proof (setting_blind_pending_jobs uid key) as Bpj.
  destruct (pystr_eqb txt (u "/start"));
    [apply keeps_try_finally; [apply keeps_on_start|apply keeps_delete_on_exit]; auto|].
  destruct (pystr_eqb txt (u "/jobs"));
    [apply keeps_try_finally; [apply keeps_on_jobs|apply keeps_delete_on_exit]; auto|].
  destruct (pystr_eqb txt (u "/menu"));
    [apply keeps_try_finally; [apply keeps_on_menu|apply keeps_delete_on_exit]; auto|].
  destruct (pystr_eqb txt (u "/settings")); [|discriminate].
  apply keeps_on_settings; auto.
Qed.

Lemma on_text_run msg raw st :
  on_text msg raw st
  = (let txt := strip raw in
     let pending := setting_of (from_id msg) pending_key (db st) in
     let cleanup := delete_on_exit pending (Some (chat_id msg, message_id msg)) in
     (if startswith txt [slash] then
        if pystr_eqb txt (u "/start") then try_finally (on_start (from_id msg)) cleanup
        else if pystr_eqb txt (u "/jobs") then try_finally (on_jobs (from_id msg)) cleanup
        else if pystr_eqb txt (u "/menu") then try_finally (on_menu (from_id msg)) cleanup
        else if pystr_eqb txt (u "/settings")
        then on_settings (from_id msg) pending msg
        else try_finally (on_pending_input (from_id msg) pending txt) cleanup
      else try_finally (on_pending_input (from_id msg) pending txt) cleanup)
       (snd (on_db (ensure_user (from_id msg)) st))).
Proof. reflexivity. Qed.

Lemma setting_after_ensure_user uid key uid' st :
  setting_of uid key (db (snd (on_db (ensure_user uid') st))) = setting_of uid key (db st).
Proof.
  unfold on_db, ensure_user, modify. cbn [snd db].
  now destruct (existsb _ _).
Qed.
End CommandSettings.

(** C3, as the code has it. For a text message whose stripped text is
    one of /start, /jobs, /menu, /settings, the handler resets the
    pending field before it makes any request: whatever the services
    answer and whatever the outcome, [get_pending] returns [None]
    afterwards, and the region, salary and keyword settings are what
    they were. *)
Theorem commands_reset_pending :
  forall (L : PyLib) (E : Env) (msg : message) (raw : pystr) (st : St),
    text msg = Some raw -> is_command (strip raw) = true ->
    let out := telegram_webhook BOT_TOKEN (MessageUpdate msg) st in
    eval (get_pending (from_id msg)) (db (snd out)) = inr None /\
    (forall key, In key [u "region"; u "salary"; u "keyword"] ->
                 setting_of (from_id msg) key (db (snd out))
                 = setting_of (from_id msg) key (db st)).
Proof.
  intros L E msg raw st Htext Hcmd out.
  assert (Hout : out = on_text msg raw st).
  { subst out. unfold telegram_webhook. rewrite pystr_eqb_refl. cbn [negb].
    rewrite Htext. destruct raw as [|c r]; [|reflexivity].
    now apply is_command_nonempty in Hcmd. }
  rewrite Hout, on_text_run. cbv zeta.
  rewrite (is_command_slash _ Hcmd).
  split.
  - unfold eval, get_pending, bind, get_state, ret. cbn [fst].
    f_equal. apply (command_resets_pending _ _ _ _ Hcmd).
  - intros key Hkey.
    rewrite (command_keeps_setting (from_id msg) key _ msg _ Hcmd).
    + apply setting_after_ensure_user.
    + cbn [In] in Hkey. destruct Hkey as [<-|[<-|[<-|[]]]]; reflexivity.
    + cbn [In] in Hkey. destruct Hkey as [<-|[<-|[<-|[]]]]; reflexivity.
Qed.

Lemma commands_reset_pending_witness :
  let st := Sample.start Sample.all_well (Sample.store_awaiting 7 (u "region")) in
  let out := Sample.webhook Sample.all_well (Sample.text_update 7 (u " /menu ")) st in
  eval (get_pending 7) (db (snd out)) = inr None /\
  (forall key, In key [u "region"; u "salary"; u "keyword"] ->
               setting_of 7 key (db (snd out)) = setting_of 7 key (db st)).
Proof.
  apply (commands_reset_pending Sample.lib (Sample.env Sample.all_well)
           (Sample.some_message 9 7 (Some (u " /menu "))) (u " /menu ")).
  - reflexivity.
  - vm_compute. reflexivity.
Defined.

(** An unknown command sent while the region is awaited is stored as the
    region; sent while the salary is awaited it leaves the marker set. *)
Lemma unknown_command_taken_as_input :
  let out1 := Sample.webhook Sample.all_well (Sample.text_update 7 (u "/help"))
                (Sample.start Sample.all_well (Sample.store_awaiting 7 (u "region"))) in
  let out2 := Sample.webhook Sample.all_well (Sample.text_update 7 (u "/help"))
                (Sample.start Sample.all_well (Sample.store_awaiting 7 (u "salary"))) in
  startswith (u "/help") [slash] = true /\
  setting_of 7 (u "region") (db (snd out1)) = Some (u "/help") /\
  eval (get_pending 7) (db (snd out2)) = inr (Some (u "salary")).
Proof. vm_compute. repeat split; reflexivity. Qed.

(** ** The response of the webhook *)

(** C4. A request whose token differs from the configured one is
    refused with status 403 and changes nothing (store, caches, and
    requests made are as before).  With the right token the handler does
    not always answer [{"ok": True}]: a text that is no command, from a
    user with no pending field, and an update that is neither a button
    press nor a text message, get no body. *)
Theorem webhook_response_by_branch :
  forall (L : PyLib) (E : Env),
    (forall token upd st,
        pystr_eqb token BOT_TOKEN = false ->
        telegram_webhook token upd st
        = (inl (HTTPException 403 (u "Invalid token")), st)) /\
    (forall msg raw st,
        text msg = Some raw -> startswith (strip raw) [slash] = false ->
        setting_of (from_id msg) pending_key (db st) = None ->
        fst (telegram_webhook BOT_TOKEN (MessageUpdate msg) st) = inr NoBody) /\
    (forall st, telegram_webhook BOT_TOKEN OtherUpdate st = (inr NoBody, st)).
Proof.
  intros L E. split; [|split].
  - intros token upd st Htok. unfold telegram_webhook. now rewrite Htok.
  - intros msg raw st Htext Hslash Hpending.
    unfold telegram_webhook. rewrite pystr_eqb_refl. cbn [negb]. rewrite Htext.
    destruct raw as [|c r]; [reflexivity|].
    rewrite on_text_run. cbv zeta. rewrite Hslash, Hpending. reflexivity.
  - intros st. unfold telegram_webhook. rewrite pystr_eqb_refl. reflexivity.
Qed.

Lemma webhook_response_by_branch_witness :
  let st := Sample.start Sample.all_well empty_store in
  @telegram_webhook Sample.lib (Sample.env Sample.all_well) (u "0:wrong")
    (Sample.text_update 7 (u "/start")) st
  = (inl (HTTPException 403 (u "Invalid token")), st) /\
  fst (Sample.webhook Sample.all_well (Sample.text_update 7 (u "привет")) st)
  = inr NoBody.
Proof.
  destruct (webhook_response_by_branch Sample.lib (Sample.env Sample.all_well))
    as (Hforbidden & Hplain & _).
  split.
  - apply Hforbidden. reflexivity.
  - apply (Hplain (Sample.some_message 9 7 (Some (u "привет"))) (u "привет")).
    + reflexivity.
    + vm_compute. reflexivity.
    + reflexivity.
Defined.

(** A button press no branch answers gets no body either. *)
Example unknown_button_gets_no_body :
  fst (Sample.webhook Sample.all_well (CallbackUpdate (Sample.press 7 (u "filter_x")))
         (Sample.start Sample.all_well empty_store)) = inr NoBody.
Proof. vm_compute. reflexivity. Qed.

(** * Behaviour of the handlers *)

(** ** Tag removal *)

Lemma after_gt_length s rest :
  after_gt s = Some rest -> (List.length rest < List.length s)%nat.
Proof.
  revert rest. induction s as [|c r IH]; intros rest; simpl; [discriminate|].
  destruct (c =? gt_sign)%N.
  - intros [= ->]. lia.
  - intros Hr. apply IH in Hr. lia.
Qed.

Lemma after_gt_none s : after_gt s = None <-> ~ In gt_sign s.
Proof.
  induction s as [|c r IH]; simpl; [tauto|].
  destruct (N.eqb_spec c gt_sign) as [->|Hc].
  - split; [discriminate|]. intros Hn. exfalso. apply Hn. now left.
  - rewrite IH. split; [intros Hn [Hc'|Hr]; congruence|tauto].
Qed.

Lemma after_gt_In c s rest : after_gt s = Some rest -> In c rest -> In c s.
Proof.
  revert rest. induction s as [|y r IH]; intros rest; simpl; [discriminate|].
  destruct (y =? gt_sign)%N.
  - intros [= ->]. tauto.
  - intros Hr Hc. right. eapply IH; eauto.
Qed.

Lemma sub_tags_In c : forall fuel s, In c (sub_tags fuel s) -> In c s.
Proof.
  induction fuel as [|f IH]; intros s; [simpl; tauto|].
  destruct s as [|x r]; [simpl; tauto|]. cbn [sub_tags].
  assert (Hcons : In c (x :: sub_tags f r) -> In c (x :: r))
    by (intros [->|Hc]; [now left|right; now apply IH]).
  destruct (x =? lt_sign)%N; [|exact Hcons].
  destruct r as [|d r']; [tauto|].
  destruct (d =? gt_sign)%N; [exact Hcons|].
  destruct (after_gt r') as [rest|] eqn:Hrest; [|exact Hcons].
  intros Hc. apply IH in Hc. right. right. eapply after_gt_In; eauto.
Qed.

Lemma sub_tags_no_tag s : has_tag s = false -> forall fuel, sub_tags fuel s = s.
Proof.
  induction s as [|c r IH]; intros Ht [|f]; simpl; try reflexivity.
  simpl in Ht. apply orb_false_iff in Ht as [Hhead Hr].
  destruct (c =? lt_sign)%N; simpl in Hhead.
  - destruct r as [|d r']; [reflexivity|].
    destruct (d =? gt_sign)%N; simpl in Hhead.
    + now rewrite IH.
    + destruct (after_gt r'); [discriminate|]. now rewrite IH.
  - now rewrite IH.
Qed.

Lemma has_tag_cons_other c s : (c =? lt_sign)%N = false -> has_tag (c :: s) = has_tag s.
Proof. intros Hc. simpl. now rewrite Hc. Qed.

Lemma sub_tags_clean : forall fuel s,
  (List.length s <= fuel)%nat ->
  has_tag (sub_tags fuel s) = false /\
  (List.length (sub_tags fuel s) <= List.length s)%nat.
Proof.
  induction fuel as [|f IH]; intros s Hf.
  - destruct s; [simpl; auto|simpl in Hf; lia].
  - destruct s as [|c r]; [simpl; auto|].
    simpl in Hf. assert (Hr : (List.length r <= f)%nat) by lia.
    cbn [sub_tags]. destruct (N.eqb_spec c lt_sign) as [->|Hc].
    + destruct r as [|d r']; [simpl; auto|].
      destruct (N.eqb_spec d gt_sign) as [->|Hd].
      * destruct (IH _ Hr) as [Ht Hl]. split; [|simpl in *; lia].
        destruct f as [|f']; [simpl in Hr; lia|].
        cbn [sub_tags] in *. change (gt_sign =? lt_sign)%N with false in *.
        cbn [has_tag] in *. change (lt_sign =? lt_sign)%N with true.
        change (gt_sign =? gt_sign)%N with true. exact Ht.
      * destruct (after_gt r') as [rest|] eqn:Hrest.
        -- apply after_gt_length in Hrest. simpl in Hr.
           destruct (IH rest) as [Ht Hl]; [lia|]. split; [exact Ht|simpl; lia].
        -- destruct (IH _ Hr) as [Ht Hl]. split; [|simpl in *; lia].
           cbn [has_tag]. rewrite Ht, orb_false_r.
           change (lt_sign =? lt_sign)%N with true. cbn [andb].
           destruct (sub_tags f (d :: r')) as [|x y] eqn:Hx; [reflexivity|].
           assert (Hno : ~ In gt_sign (d :: r')).
           { intros [Hd'|Hin]; [congruence|]. now apply after_gt_none in Hrest. }
           assert (Hy : after_gt y = None).
           { apply after_gt_none. intros Hin. apply Hno.
             apply (sub_tags_In gt_sign f). rewrite Hx. now right. }
           rewrite Hy. apply andb_false_r.
    + destruct (IH _ Hr) as [Ht Hl]. split; [|simpl; lia].
      rewrite has_tag_cons_other; [exact Ht|]. now apply N.eqb_neq.
Qed.

(** X1. [strip_html] removes every tag: whatever the text, the result
    holds no match of the tag pattern any more, is no longer than the
    text and keeps only characters of it, so that stripping it again
    changes nothing; [None] and the empty string give the empty string. *)
Theorem strip_html_leaves_no_tag :
  forall s : pystr,
    exists t,
      strip_html (JStr s) = inr t /\
      has_tag t = false /\
      len t <= len s /\
      (forall c, In c t -> In c s) /\
      strip_html (JStr t) = inr t /\
      strip_html JNull = inr [].
Proof.
  intros s. exists (sub_tags (List.length s) s).
  destruct (sub_tags_clean (List.length s) s (le_n _)) as [Ht Hl].
  assert (Hs : forall x, strip_html (JStr x) = inr (sub_tags (List.length x) x))
    by (intros [|c r]; reflexivity).
  repeat split.
  - apply Hs.
  - exact Ht.
  - unfold len. lia.
  - intros c. apply sub_tags_In.
  - rewrite Hs. f_equal. now apply sub_tags_no_tag.
Qed.

(** ** Vacancies as [run_jobs] stores them *)

Lemma has_tag_app s t :
  has_tag s = false -> has_tag t = false -> ~ In gt_sign t -> has_tag (s ++ t) = false.
Proof.
  intros Hs Ht Hgt. induction s as [|c r IH]; [exact Ht|].
  rewrite <- app_comm_cons.
  cbn [has_tag] in *. apply orb_false_iff in Hs as [Hhead Hr].
  rewrite (IH Hr), orb_false_r.
  destruct (c =? lt_sign)%N; [|reflexivity]. cbn [andb] in *.
  destruct r as [|d r'].
  - rewrite app_nil_l. destruct t as [|x t']; [reflexivity|].
    destruct (after_gt t') eqn:E; [|apply andb_false_r].
    exfalso. apply Hgt. right.
    assert (Hn : after_gt t' <> None) by congruence.
    rewrite after_gt_none in Hn.
    destruct (in_dec N.eq_dec gt_sign t'); [assumption|contradiction].
  - rewrite <- app_comm_cons.
    destruct (d =? gt_sign)%N; [reflexivity|]. cbn [negb andb] in *.
    destruct (after_gt r') eqn:E; [discriminate|].
    destruct (after_gt (r' ++ t)) eqn:E'; [|reflexivity].
    exfalso. assert (Hn : after_gt (r' ++ t) <> None) by congruence.
    rewrite after_gt_none in Hn. apply Hn. intros Hin.
    apply in_app_or in Hin as [Hin|Hin]; [|contradiction].
    now apply after_gt_none in E.
Qed.

Lemma has_tag_firstn n : forall s, has_tag s = false -> has_tag (firstn n s) = false.
Proof.
  induction n as [|n IH]; intros s Hs; [reflexivity|].
  destruct s as [|c r]; [reflexivity|].
  cbn [firstn has_tag] in *. apply orb_false_iff in Hs as [Hhead Hr].
  rewrite (IH _ Hr), orb_false_r.
  destruct (c =? lt_sign)%N; [|reflexivity]. cbn [andb] in *.
  destruct r as [|d r']; [now destruct n|].
  destruct n as [|n']; [reflexivity|]. cbn [firstn].
  destruct (d =? gt_sign)%N; [reflexivity|]. cbn [negb andb] in *.
  destruct (after_gt r') eqn:E; [discriminate|].
  destruct (after_gt (firstn n' r')) eqn:E'; [|reflexivity].
  exfalso. assert (Hn : after_gt (firstn n' r') <> None) by congruence.
  rewrite after_gt_none in Hn. apply Hn. intros Hin.
  apply after_gt_none in E. apply E.
  rewrite <- (firstn_skipn n' r'). apply in_or_app. now left.
Qed.

Lemma stored_snippet_facts full :
  full <> [] -> has_tag full = false ->
  stored_snippet full <> [] /\ len (stored_snippet full) <= 1201 /\
  has_tag (stored_snippet full) = false.
Proof.
  intros Hne Ht. unfold stored_snippet.
  destruct (Z.gtb_spec (len full) 1200) as [Hlong|Hshort].
  - split; [|split].
    + intros Happ. apply app_eq_nil in Happ as [_ He]. discriminate.
    + unfold len, slice_to. rewrite length_app, length_firstn.
      change (List.length ellipsis) with 1%nat. unfold len in Hlong. lia.
    + apply has_tag_app; [now apply has_tag_firstn|reflexivity|].
      intros [H|[]]. discriminate.
  - split; [assumption|]. split; [lia|assumption].
Qed.

Section Stored.
Context `{PyLib}.

(** What a raw item must offer for [run_jobs] to build its vacancy, and
    what the vacancy then is. *)
Lemma normalize_vacancy_inv v v' :
  normalize_vacancy v = inr v' ->
  exists id name url salary employer full,
    v' = stored_vacancy id name url salary employer full /\
    py_item v (u "id") = inr id /\
    py_item v (u "name") = inr name /\
    py_item v (u "alternate_url") = inr url /\
    py_get v (u "salary") JNull = inr salary /\
    py_get v (u "employer") JNull = inr employer /\
    full <> [] /\ has_tag full = false.
Proof.
  unfold normalize_vacancy. destruct v as [| | | | |d]; try discriminate.
  cbn [py_get].
  destruct (py_get (dict_get d (u "snippet") (JDict [])) (u "responsibility") JNull)
    as [|resp1]; [discriminate|].
  destruct (py_get (dict_get d (u "snippet") (JDict [])) (u "requirement") JNull)
    as [|req1]; [discriminate|].
  set (raw := strip _).
  assert (Hs : strip_html (JStr raw) = inr (sub_tags (List.length raw) raw))
    by (destruct raw; reflexivity).
  rewrite Hs.
  destruct (sub_tags_clean (List.length raw) raw (le_n _)) as [Ht _].
  set (stripped := sub_tags (List.length raw) raw) in *.
  set (full := match stripped with [] => u "нет описания" | _ => stripped end).
  assert (Hfull : full <> [] /\ has_tag full = false).
  { unfold full. destruct stripped; [split; [discriminate|reflexivity]|].
    split; [discriminate|assumption]. }
  destruct (py_item (JDict d) (u "id")) as [|id]; [discriminate|].
  destruct (py_item (JDict d) (u "name")) as [|name]; [discriminate|].
  destruct (py_item (JDict d) (u "alternate_url")) as [|url]; [discriminate|].
  intros [= <-].
  exists id, name, url, (dict_get d (u "salary") JNull),
    (dict_get d (u "employer") JNull), full.
  repeat split; try reflexivity; apply Hfull.
Qed.
End Stored.

Section StoredCard.
Context `{PyLib}.

Lemma description_block_stored full :
  description_block (stored_snippet full) = description_block full.
Proof.
  unfold stored_snippet.
  destruct (Z.gtb_spec (len full) 1200) as [Hlong|Hshort]; [|reflexivity].
  unfold description_block.
  assert (Hl : List.length (slice_to 1200 full) = 1200%nat).
  { unfold slice_to. rewrite length_firstn. unfold len in Hlong. lia. }
  assert (Hlen : (len (slice_to 1200 full ++ ellipsis) >? 1200) = true).
  { apply Z.gtb_lt. unfold len. rewrite length_app, Hl.
    change (List.length ellipsis) with 1%nat. lia. }
  rewrite Hlen.
  destruct (Z.gtb_spec (len full) 1200) as [_|Hn]; [|lia].
  f_equal. f_equal. unfold slice_to at 1.
  rewrite firstn_app, Hl, Nat.sub_diag, firstn_O, app_nil_r.
  unfold slice_to. rewrite firstn_firstn. now rewrite Nat.min_id.
Qed.

Lemma stored_fields id name url salary employer full :
  let d := [ (u "id", id); (u "name", name); (u "url", url);
             (u "salary", salary); (u "employer", employer);
             (u "snippet", JStr (stored_snippet full)) ] in
  dict_lookup d (u "id") = Some id /\
  dict_lookup d (u "name") = Some name /\
  dict_lookup d (u "url") = Some url /\
  dict_lookup d (u "salary") = Some salary /\
  dict_lookup d (u "employer") = Some employer /\
  dict_lookup d (u "snippet") = Some (JStr (stored_snippet full)).
Proof. repeat split; reflexivity. Qed.

Lemma format_stored id name url salary employer full :
  full <> [] -> has_tag full = false ->
  format_vacancy_of (stored_vacancy id name url salary employer full)
  = match employer with
    | JDict e =>
        match dict_get e (u "logo_urls") (JDict []) with
        | JDict logos =>
            inr (caption_text name (dict_get e (u "name") (JStr (u "Без названия")))
                   (salary_line salary) (description_block full) url,
                 dict_get logos (u "240") JNull)
        | _ => inl AttributeError
        end
    | _ => inl AttributeError
    end.
Proof.
  intros Hne Ht.
  destruct (stored_snippet_facts full Hne Ht) as (Hsne & _ & Hst).
  destruct (stored_fields id name url salary employer full)
    as (Hid & Hname & Hurl & Hsal & Hemp & Hsnip).
  unfold stored_vacancy, format_vacancy_of, format_vacancy.
  unfold dict_item, raw_description, dict_get.
  rewrite Hname, Hurl, Hsal, Hemp, Hsnip.
  destruct employer as [| | | | |e]; try reflexivity.
  cbn [py_get]. fold (dict_get e (u "logo_urls") (JDict [])).
  destruct (dict_get e (u "logo_urls") (JDict [])) as [| | | | |logos]; try reflexivity.
  cbn [py_get].
  assert (Hraw : py_or (py_or (JStr (stored_snippet full))
                          match dict_lookup
                                  [ (u "id", id); (u "name", name); (u "url", url);
                                    (u "salary", salary); (u "employer", JDict e);
                                    (u "snippet", JStr (stored_snippet full)) ]
                                  (u "description") with
                          | Some v => v
                          | None => JStr []
                          end) (JStr [])
                 = JStr (stored_snippet full)).
  { unfold py_or. cbn [truthy]. destruct (stored_snippet full); [congruence|reflexivity]. }
  rewrite Hraw.
  assert (Hs : strip_html (JStr (stored_snippet full)) = inr (stored_snippet full)).
  { unfold strip_html, py_or. cbn [truthy].
    destruct (stored_snippet full) eqn:E; [reflexivity|].
    rewrite <- E in *. f_equal. now apply sub_tags_no_tag. }
  rewrite Hs, description_block_stored. reflexivity.
Qed.
End StoredCard.

(** X2. A vacancy built by [run_jobs] from a raw search item holds the
    item's id, name, URL, salary and employer and a snippet that is
    never empty, has at most 1201 characters and holds no tag; so the
    cover letter for it is always written from the snippet, never from
    the name, and the batch loop can read it. *)
Theorem stored_vacancy_shape :
  forall (L : PyLib) (v v' : json),
    normalize_vacancy v = inr v' ->
    exists id name url salary employer full,
      v' = stored_vacancy id name url salary employer full /\
      py_item v (u "id") = inr id /\
      py_item v (u "name") = inr name /\
      py_item v (u "alternate_url") = inr url /\
      py_get v (u "salary") JNull = inr salary /\
      py_get v (u "employer") JNull = inr employer /\
      stored_snippet full <> [] /\
      len (stored_snippet full) <= 1201 /\
      has_tag (stored_snippet full) = false /\
      letter_subject v' = JStr (stored_snippet full) /\
      readable v' = true.
Proof.
  intros L v v' Hv.
  destruct (normalize_vacancy_inv v v' Hv)
    as (id & name & url & salary & employer & full & -> & Hid & Hname & Hurl & Hsal
        & Hemp & Hne & Ht).
  destruct (stored_snippet_facts full Hne Ht) as (Hsne & Hlen & Hst).
  exists id, name, url, salary, employer, full.
  repeat split; try assumption.
  unfold letter_subject, field, stored_vacancy, py_item, dict_item.
  destruct (stored_fields id name url salary employer full)
    as (_ & _ & _ & _ & _ & Hsnip).
  cbv zeta in Hsnip. rewrite Hsnip. cbn [truthy].
  destruct (stored_snippet full); [congruence|reflexivity].
Qed.

Lemma stored_vacancy_shape_witness :
  exists id name url salary employer full,
    @normalize_vacancy Sample.lib Sample.raw_item
    = inr (stored_vacancy id name url salary employer full) /\
    stored_snippet full = u "Писать код" ++ [newline] ++ u "Опыт".
Proof.
  destruct (@normalize_vacancy Sample.lib Sample.raw_item) as [e|v'] eqn:Hv;
    [vm_compute in Hv; discriminate|].
  destruct (stored_vacancy_shape Sample.lib Sample.raw_item v' Hv)
    as (id & name & url & salary & employer & full & Hv' & _).
  exists id, name, url, salary, employer, full. subst v'.
  split; [reflexivity|].
  vm_compute in Hv. injection Hv as _ _ _ _ _ Hs. symmetry. exact Hs.
Defined.

Lemma normalize_dict `{PyLib} d snip :
  dict_get d (u "snippet") (JDict []) = JDict snip ->
  exists full,
    normalize_vacancy (JDict d)
    = let? id := dict_item d (u "id") in
      let? name := dict_item d (u "name") in
      let? url := dict_item d (u "alternate_url") in
      inr (stored_vacancy id name url (dict_get d (u "salary") JNull)
             (dict_get d (u "employer") JNull) full).
Proof.
  intros Hs. unfold normalize_vacancy. cbn [py_get py_item]. rewrite Hs. cbn [py_get].
  set (raw := strip _).
  assert (Hr : strip_html (JStr raw) = inr (sub_tags (List.length raw) raw))
    by (destruct raw; reflexivity).
  rewrite Hr. eexists. reflexivity.
Qed.

(** X3. [run_jobs] can build a vacancy from a raw item exactly when the
    item is a dict whose snippet is missing or a dict and which has an
    id, a name and an [alternate_url]: an item that is no dict, or whose
    snippet is present but no dict (null, say), raises [AttributeError],
    and a missing id raises [KeyError]. *)
Theorem item_stored_iff_storable :
  forall (L : PyLib) (v : json),
    ((exists v', normalize_vacancy v = inr v') <-> item_storable v = true) /\
    (is_dict v = false -> normalize_vacancy v = inl AttributeError) /\
    (forall d, v = JDict d -> is_dict (dict_get d (u "snippet") (JDict [])) = false ->
               normalize_vacancy v = inl AttributeError) /\
    (forall d, v = JDict d -> is_dict (dict_get d (u "snippet") (JDict [])) = true ->
               dict_lookup d (u "id") = None ->
               normalize_vacancy v = inl (KeyError (u "id"))).
Proof.
  intros L v.
  assert (Hnd : is_dict v = false -> normalize_vacancy v = inl AttributeError)
    by (destruct v; try reflexivity; discriminate).
  assert (Hsn : forall d, v = JDict d ->
                  is_dict (dict_get d (u "snippet") (JDict [])) = false ->
                  normalize_vacancy v = inl AttributeError).
  { intros d -> Hs. unfold normalize_vacancy. cbn [py_get].
    destruct (dict_get d (u "snippet") (JDict [])); try reflexivity; discriminate. }
  split; [|split; [exact Hnd|split; [exact Hsn|]]].
  - split.
    + intros [v' Hv]. destruct v as [| | | | |d];
        try (rewrite Hnd in Hv by reflexivity; discriminate).
      destruct (dict_get d (u "snippet") (JDict [])) as [| | | | |snip] eqn:Hs;
        try (rewrite (Hsn d eq_refl) in Hv by (rewrite Hs; reflexivity); discriminate).
      destruct (normalize_dict d snip Hs) as [full Hn]. rewrite Hn in Hv.
      unfold item_storable, has_key. rewrite Hs. unfold dict_item in Hv.
      destruct (dict_lookup d (u "id")); [|discriminate].
      destruct (dict_lookup d (u "name")); [|discriminate].
      destruct (dict_lookup d (u "alternate_url")); [|discriminate]. reflexivity.
    + unfold item_storable. destruct v as [| | | | |d]; try discriminate.
      rewrite !andb_true_iff. intros [[[Hs Hid] Hname] Hurl].
      destruct (dict_get d (u "snippet") (JDict [])) as [| | | | |snip] eqn:Hs';
        try discriminate.
      destruct (normalize_dict d snip Hs') as [full Hn]. rewrite Hn.
      unfold has_key in *. unfold dict_item.
      destruct (dict_lookup d (u "id")); [|discriminate].
      destruct (dict_lookup d (u "name")); [|discriminate].
      destruct (dict_lookup d (u "alternate_url")); [|discriminate]. eauto.
  - intros d -> Hs Hid.
    destruct (dict_get d (u "snippet") (JDict [])) as [| | | | |snip] eqn:Hs';
      try discriminate.
    destruct (normalize_dict d snip Hs') as [full Hn]. rewrite Hn.
    unfold dict_item. now rewrite Hid.
Qed.

(** X4. The card of a vacancy built by [run_jobs]: rendering raises
    [AttributeError] unless the raw item's employer is a dict whose
    [logo_urls] is missing or a dict (an item without employer, or with
    [logo_urls] null, cannot be shown); when it renders, the caption
    carries the item's name, the employer's name, the salary line and
    the description block of the full tag-free description, as if the
    description had not been cut when it was stored. *)
Theorem stored_vacancy_card :
  forall (L : PyLib) (v v' : json),
    normalize_vacancy v = inr v' ->
    exists name url salary employer full,
      py_item v (u "name") = inr name /\
      py_item v (u "alternate_url") = inr url /\
      py_get v (u "salary") JNull = inr salary /\
      py_get v (u "employer") JNull = inr employer /\
      full <> [] /\ has_tag full = false /\
      field v' (u "snippet") = JStr (stored_snippet full) /\
      (employer_renders employer = false ->
       format_vacancy_of v' = inl AttributeError) /\
      (employer_renders employer = true ->
       exists company logo,
         py_get employer (u "name") (JStr (u "Без названия")) = inr company /\
         format_vacancy_of v'
         = inr (caption_text name company (salary_line salary)
                  (description_block full) url, logo)).
Proof.
  intros L v v' Hv.
  destruct (normalize_vacancy_inv v v' Hv)
    as (id & name & url & salary & employer & full & -> & Hid & Hname & Hurl & Hsal
        & Hemp & Hne & Ht).
  exists name, url, salary, employer, full.
  repeat (split; [assumption|]).
  split; [reflexivity|].
  rewrite (format_stored id name url salary employer full Hne Ht).
  unfold employer_renders. split.
  - destruct employer as [| | | | |e]; try reflexivity.
    destruct (dict_get e (u "logo_urls") (JDict [])); try reflexivity. discriminate.
  - destruct employer as [| | | | |e]; try discriminate.
    destruct (dict_get e (u "logo_urls") (JDict [])) as [| | | | |logos];
      try discriminate.
    intros _. eexists _, _. split; reflexivity.
Qed.

Lemma stored_vacancy_card_witness :
  exists v' caption logo,
    @normalize_vacancy Sample.lib Sample.raw_item = inr v' /\
    @format_vacancy_of Sample.lib v' = inr (caption, logo).
Proof.
  destruct (@normalize_vacancy Sample.lib Sample.raw_item) as [e|v'] eqn:Hv;
    [vm_compute in Hv; discriminate|].
  destruct (stored_vacancy_card Sample.lib Sample.raw_item v' Hv)
    as (name & url & salary & employer & full & _ & _ & _ & Hemp & _ & _ & _ & _ & Hok).
  destruct Hok as (company & logo & _ & Hcard).
  - vm_compute in Hemp. injection Hemp as <-. reflexivity.
  - exists v'. eexists _, logo. split; [reflexivity|exact Hcard].
Defined.

(** ** Buttons and the data they carry *)

Lemma no_underscore_existsb s :
  ~ In underscore s -> existsb (N.eqb underscore) s = false.
Proof.
  intros Hs. destruct (existsb (N.eqb underscore) s) eqn:E; [|reflexivity].
  apply existsb_exists in E as (c & Hc & Heq). apply N.eqb_eq in Heq. now subst.
Qed.

Lemma after_last_underscore_app p s :
  ~ In underscore s -> after_last_underscore (p ++ underscore :: s) = s.
Proof.
  intros Hs. induction p as [|c p IH].
  - cbn [List.app after_last_underscore]. rewrite (no_underscore_existsb s Hs).
    now rewrite N.eqb_refl.
  - rewrite <- app_comm_cons. cbn [after_last_underscore].
    assert (He : existsb (N.eqb underscore) (p ++ underscore :: s) = true).
    { apply existsb_exists. exists underscore. split; [|apply N.eqb_refl].
      apply in_or_app. right. now left. }
    now rewrite He.
Qed.

Lemma str_of_int_no_underscore n : ~ In underscore (str_of_int n).
Proof.
  unfold str_of_int. intros Hin.
  assert (Hd : forall d, ~ In underscore (uint_chars d)).
  { intros d Hu. pose proof (uint_chars_digits d) as Hall.
    rewrite Forall_forall in Hall. apply Hall in Hu. unfold digit_char in Hu.
    unfold underscore in Hu. lia. }
  destruct (Z.to_int n) as [d|d].
  - now apply Hd in Hin.
  - destruct Hin as [Hm|Hin]; [discriminate|now apply Hd in Hin].
Qed.

Lemma trailing_int_app p s :
  ~ In underscore s -> trailing_int (p ++ underscore :: s) = int_of_text s.
Proof.
  intros Hs. unfold trailing_int, int_of_text. now rewrite after_last_underscore_app.
Qed.

(** X5. The data a card button carries leads back to the id it was
    built from.  For an id whose text has no underscore, the handler of
    [job_apply_] recovers exactly that text and the handler of
    [job_fav_] the number it denotes; for an integer id [n], [job_fav_]
    and the [fav_del_] button of a favourite card give back [n]
    itself.  An id with an underscore in its text is cut at the last
    one. *)
Theorem card_buttons_round_trip :
  forall (L : PyLib),
    (forall id : json,
        callback_data (build_job_kb id)
        = [u "job_apply_" ++ py_str id; u "job_fav_" ++ py_str id;
           u "job_prev"; u "job_next"; u "back_menu"]) /\
    (forall fid : Z,
        callback_data (build_fav_kb fid)
        = [u "fav_del_" ++ str_of_int fid; u "fav_prev"; u "fav_next"; u "back_menu"]) /\
    (forall id : json, ~ In underscore (py_str id) ->
        after_last_underscore (u "job_apply_" ++ py_str id) = py_str id /\
        trailing_int (u "job_fav_" ++ py_str id) = int_of_text (py_str id)) /\
    (forall n : Z,
        after_last_underscore (u "job_apply_" ++ py_str (JInt n)) = str_of_int n /\
        trailing_int (u "job_fav_" ++ py_str (JInt n)) = inr n /\
        trailing_int (u "fav_del_" ++ str_of_int n) = inr n) /\
    (forall a b : pystr, ~ In underscore b ->
        after_last_underscore (u "job_apply_" ++ py_str (JStr (a ++ underscore :: b))) = b).
Proof.
  intros L.
  assert (Happly : forall x, u "job_apply_" ++ x = u "job_apply" ++ underscore :: x)
    by reflexivity.
  assert (Hfav : forall x, u "job_fav_" ++ x = u "job_fav" ++ underscore :: x)
    by reflexivity.
  assert (Hdel : forall x, u "fav_del_" ++ x = u "fav_del" ++ underscore :: x)
    by reflexivity.
  split; [reflexivity|]. split; [reflexivity|]. split; [|split].
  - intros id Hid. rewrite Happly, Hfav.
    split; [now apply after_last_underscore_app|now apply trailing_int_app].
  - intros n. cbn [py_str py_repr]. rewrite Happly, Hfav, Hdel.
    pose proof (str_of_int_no_underscore n) as Hn.
    rewrite after_last_underscore_app, !trailing_int_app by assumption.
    unfold int_of_text. rewrite int_of_str_of_int. auto.
  - intros a b Hb. cbn [py_str]. rewrite app_assoc. now apply after_last_underscore_app.
Qed.

Lemma card_buttons_round_trip_witness :
  after_last_underscore (u "job_apply_" ++ @py_str Sample.lib (JStr (u "501"))) = u "501" /\
  trailing_int (u "job_fav_" ++ @py_str Sample.lib (JStr (u "501"))) = inr 501.
Proof.
  destruct (card_buttons_round_trip Sample.lib) as (_ & _ & Hid & _).
  destruct (Hid (JStr (u "501"))) as [Ha Hf].
  - vm_compute. intuition discriminate.
  - split; [exact Ha|]. rewrite Hf. reflexivity.
Defined.

(** ** The by-id cache of [run_jobs] *)

Lemma idkey_eqb_eq a b : idkey_eqb a b = true <-> a = b.
Proof.
  destruct a as [x|x], b as [y|y]; simpl.
  - rewrite pystr_eqb_eq. split; congruence.
  - split; discriminate.
  - split; discriminate.
  - rewrite Z.eqb_eq. split; congruence.
Qed.

Section Assoc.
Context {K V : Type} (eqb : K -> K -> bool).
Hypothesis eqb_eq : forall a b, eqb a b = true <-> a = b.

Lemma eqb_same k : eqb k k = true.
Proof. now apply eqb_eq. Qed.

Lemma eqb_other k k' : k <> k' -> eqb k k' = false.
Proof. intros Hne. destruct (eqb k k') eqn:E; [|reflexivity]. now apply eqb_eq in E. Qed.

Lemma assoc_get_set_same (m : list (K * V)) k v :
  assoc_get eqb (assoc_set eqb m k v) k = Some v.
Proof.
  induction m as [|[k' v'] r IH]; simpl.
  - now rewrite eqb_same.
  - destruct (eqb k' k) eqn:E; simpl; [now rewrite eqb_same|now rewrite E].
Qed.

Lemma assoc_get_set_other (m : list (K * V)) k v k' :
  k <> k' -> assoc_get eqb (assoc_set eqb m k v) k' = assoc_get eqb m k'.
Proof.
  intros Hne. induction m as [|[k0 v0] r IH]; simpl.
  - now rewrite (eqb_other _ _ Hne).
  - destruct (eqb k0 k) eqn:E; simpl.
    + apply eqb_eq in E. subst k0. now rewrite (eqb_other _ _ Hne).
    + now rewrite IH.
Qed.

Lemma assoc_get_del_same (m : list (K * V)) k : assoc_get eqb (assoc_del eqb m k) k = None.
Proof.
  unfold assoc_del. induction m as [|[k0 v0] r IH]; simpl; [reflexivity|].
  destruct (eqb k0 k) eqn:E; simpl; [exact IH|now rewrite E].
Qed.
End Assoc.

Section ById.
Context `{PyLib}.

Lemma field_of_item v k x : py_item v k = inr x -> field v k = x.
Proof. unfold field. now intros ->. Qed.

Lemma index_by_str_lookup vs : forall acc m,
  index_by_str vs acc = inr m ->
  forall k,
    (exists v', In v' vs /\ id_key v' = k /\ assoc_get idkey_eqb m k = Some v')
    \/ assoc_get idkey_eqb m k = assoc_get idkey_eqb acc k.
Proof.
  induction vs as [|v0 r IH]; intros acc m; cbn [index_by_str].
  - intros [= <-] k. now right.
  - destruct (py_item v0 (u "id")) as [e|id0] eqn:Hid; [discriminate|].
    intros Hm k. destruct (IH _ _ Hm k) as [(v' & Hin & Hk & Hget)|Hsame].
    + left. exists v'. split; [now right|auto].
    + destruct (idkey_eqb (KStr (py_str id0)) k) eqn:E.
      * apply idkey_eqb_eq in E. subst k. left. exists v0.
        split; [now left|]. split.
        -- unfold id_key. now rewrite (field_of_item _ _ _ Hid).
        -- rewrite Hsame. apply assoc_get_set_same, idkey_eqb_eq.
      * right. rewrite Hsame. apply assoc_get_set_other; [apply idkey_eqb_eq|].
        intros Heq. apply idkey_eqb_eq in Heq. congruence.
Qed.

Lemma index_by_str_covers vs : forall acc m,
  index_by_str vs acc = inr m ->
  forall v, In v vs ->
    exists v', In v' vs /\ id_key v' = id_key v /\
               assoc_get idkey_eqb m (id_key v) = Some v'.
Proof.
  induction vs as [|v0 r IH]; intros acc m Hm v Hv; [contradiction|].
  cbn [index_by_str] in Hm.
  destruct (py_item v0 (u "id")) as [e|id0] eqn:Hid; [discriminate|].
  destruct Hv as [<-|Hv].
  - destruct (index_by_str_lookup _ _ _ Hm (id_key v0))
      as [(v' & Hin & Hk & Hget)|Hsame].
    + exists v'. split; [now right|auto].
    + exists v0. split; [now left|]. split; [reflexivity|].
      rewrite Hsame. unfold id_key at 1. rewrite (field_of_item _ _ _ Hid).
      apply assoc_get_set_same, idkey_eqb_eq.
  - destruct (IH _ _ Hm v Hv) as (v' & Hin & Hk & Hget).
    exists v'. split; [now right|auto].
Qed.

Lemma index_by_int_keeps_str vs : forall acc m,
  index_by_int vs acc = inr m ->
  forall s, assoc_get idkey_eqb m (KStr s) = assoc_get idkey_eqb acc (KStr s).
Proof.
  induction vs as [|v0 r IH]; intros acc m; cbn [index_by_int].
  - now intros [= <-].
  - destruct (py_item v0 (u "id")) as [e|id0]; [discriminate|].
    destruct (py_int id0) as [e|n]; [discriminate|].
    intros Hm s. rewrite (IH _ _ Hm s).
    apply assoc_get_set_other; [apply idkey_eqb_eq|discriminate].
Qed.
End ById.

(** X6. The by-id cache of [run_jobs] answers the [job_apply_] button:
    for every vacancy of the list whose id text has no underscore, the
    text the [job_apply_] handler cuts out of the button's data is a key
    of the cache, and the entry under it is a vacancy of the list with
    that same id text (the last such one). *)
Theorem apply_button_finds_vacancy :
  forall (L : PyLib) (vs : list json) (by_str by_id : list (idkey * json)) (v : json),
    index_by_str vs [] = inr by_str ->
    index_by_int vs by_str = inr by_id ->
    In v vs ->
    ~ In underscore (py_str (field v (u "id"))) ->
    exists v',
      In v' vs /\
      py_str (field v' (u "id")) = py_str (field v (u "id")) /\
      assoc_get idkey_eqb by_id
        (KStr (after_last_underscore (u "job_apply_" ++ py_str (field v (u "id")))))
      = Some v'.
Proof.
  intros L vs by_str by_id v Hstr Hint Hv Hid.
  destruct (index_by_str_covers vs [] by_str Hstr v Hv) as (v' & Hin & Hk & Hget).
  exists v'. split; [assumption|]. split; [unfold id_key in Hk; congruence|].
  change (u "job_apply_" ++ py_str (field v (u "id")))
    with (u "job_apply" ++ underscore :: py_str (field v (u "id"))).
  rewrite after_last_underscore_app by assumption.
  rewrite (index_by_int_keeps_str vs by_str by_id Hint). exact Hget.
Qed.

Lemma apply_button_finds_vacancy_witness :
  exists by_id v',
    (let? by_str := @index_by_str Sample.lib Sample.postings20 [] in
     index_by_int Sample.postings20 by_str) = inr by_id /\
    assoc_get idkey_eqb by_id
      (KStr (after_last_underscore
               (u "job_apply_" ++ @py_str Sample.lib (field (Sample.posting 5) (u "id")))))
    = Some v'.
Proof.
  destruct (@index_by_str Sample.lib Sample.postings20 []) as [e|by_str] eqn:Hs;
    [vm_compute in Hs; discriminate|].
  destruct (index_by_int Sample.postings20 by_str) as [e|by_id] eqn:Hi.
  { vm_compute in Hs. injection Hs as <-. vm_compute in Hi. discriminate. }
  destruct (apply_button_finds_vacancy Sample.lib Sample.postings20 by_str by_id
              (Sample.posting 5) Hs Hi) as (v' & _ & _ & Hget).
  - vm_compute. tauto.
  - vm_compute. intuition discriminate.
  - exists by_id, v'. split; [reflexivity|exact Hget].
Defined.

(** ** Suggestion buttons *)

Lemma suggestions_clean m values v :
  In (m, values) MULTI_KEYS -> In v values -> clean v.
Proof.
  unfold MULTI_KEYS, SCHEDULE_SUGGESTIONS, WORK_FORMAT_SUGGESTIONS,
    EMPLOYMENT_TYPE_SUGGESTIONS.
  intros Hm Hv. cbn [In] in Hm.
  assert (Hc : forall x, In x values ->
                         negb (nonempty x) = false /\
                         forallb (fun c => negb (c =? comma)%N) x = true /\
                         pystr_eqb (strip x) x = true).
  { destruct Hm as [[= <- <-]|[[= <- <-]|[[= <- <-]|[]]]]; intros x Hx; cbn [In] in Hx;
      repeat (destruct Hx as [<-|Hx]; [vm_compute; auto|]); destruct Hx. }
  destruct (Hc v Hv) as (Hne & Hcf & Hst). split; [|split].
  - intros ->. discriminate.
  - unfold comma_free. apply Forall_forall. intros c Hin Hcomma. subst c.
    rewrite forallb_forall in Hcf. specialize (Hcf _ Hin). discriminate.
  - now apply pystr_eqb_eq.
Qed.

Lemma startswith_nil s : startswith s [] = true.
Proof. now destruct s. Qed.

Lemma startswith_app p s : startswith (p ++ s) p = true.
Proof.
  induction p as [|c p IH]; [apply startswith_nil|].
  cbn [List.app startswith]. now rewrite N.eqb_refl, IH.
Qed.

Lemma skipn_app_prefix {A} (p s : list A) : skipn (List.length p) (p ++ s) = s.
Proof. induction p as [|c p IH]; [reflexivity|exact IH]. Qed.

Lemma suggest_data m v : (m ++ u "_suggest") ++ u "_" ++ v = (m ++ u "_suggest_") ++ v.
Proof. change (u "_suggest_") with (u "_suggest" ++ u "_"). now rewrite !app_assoc. Qed.

(** The loop over [MULTI_KEYS] recognises the data of a suggestion
    button and cuts the value out of it. *)
Lemma multi_suggest_data m values v :
  In (m, values) MULTI_KEYS ->
  multi_suggest MULTI_KEYS ((m ++ u "_suggest") ++ u "_" ++ v) = Some (m, values, v).
Proof.
  intros Hm. rewrite suggest_data. unfold MULTI_KEYS in *. cbn [In] in Hm.
  cbn [multi_suggest].
  destruct Hm as [[= <- <-]|[[= <- <-]|[[= <- <-]|[]]]].
  - now rewrite startswith_app, skipn_app_prefix.
  - replace (startswith ((u "work_format" ++ u "_suggest_") ++ v)
               (u "schedule" ++ u "_suggest_")) with false by (vm_compute; reflexivity).
    now rewrite startswith_app, skipn_app_prefix.
  - replace (startswith ((u "employment_type" ++ u "_suggest_") ++ v)
               (u "schedule" ++ u "_suggest_")) with false by (vm_compute; reflexivity).
    replace (startswith ((u "employment_type" ++ u "_suggest_") ++ v)
               (u "work_format" ++ u "_suggest_")) with false by (vm_compute; reflexivity).
    now rewrite startswith_app, skipn_app_prefix.
Qed.

Section Suggest.
Context `{PyLib} `{Env}.

Lemma webhook_callback call st :
  telegram_webhook BOT_TOKEN (CallbackUpdate call) st
  = match on_callback call st with
    | (inr (Some r), st') => (inr r, st')
    | (inr None, st') => (inr NoBody, st')
    | (inl e, st') => (inl e, st')
    end.
Proof.
  unfold telegram_webhook. rewrite pystr_eqb_refl. cbn [negb]. unfold bind.
  destruct (on_callback call st) as [[e|[r|]] st']; reflexivity.
Qed.

Lemma on_callback_suggest call m values v :
  In (m, values) MULTI_KEYS ->
  cq_data call = (m ++ u "_suggest") ++ u "_" ++ v ->
  on_callback call
  = (on_db (ensure_user (cq_from call)) ;;
     (r <- on_multi_suggest call (cq_from call) m values v ;; ret (Some r))).
Proof.
  intros Hm Hdata. unfold on_callback, on_callback_rest. cbv zeta.
  rewrite Hdata, (multi_suggest_data m values v Hm).
  unfold MULTI_KEYS in Hm. cbn [In] in Hm.
  destruct Hm as [[= <- <-]|[[= <- <-]|[[= <- <-]|[]]]];
    repeat match goal with
           | |- context [pystr_eqb ?a ?b] =>
               replace (pystr_eqb a b) with false
                 by (symmetry; apply pystr_eqb_neq; vm_compute; discriminate)
           | |- context [startswith ?a ?b] =>
               replace (startswith a b) with false by (vm_compute; reflexivity)
           end; reflexivity.
Qed.
End Suggest.

Lemma callback_data_suggestions values prefix sel back :
  callback_data (build_inline_suggestions values prefix sel back)
  = map (fun v => prefix ++ u "_" ++ v) values
    ++ (if back then [u "back_settings"] else []).
Proof.
  unfold build_inline_suggestions, callback_data. rewrite flat_map_app.
  f_equal; [|now destruct back].
  induction values as [|x r IH]; [reflexivity|].
  cbn [map flat_map]. rewrite IH. reflexivity.
Qed.

Section SuggestPress.
Context `{PyLib} `{Env}.

Lemma on_multi_suggest_settings call uid m values v st :
  user_settings (db (snd (on_multi_suggest call uid m values v st)))
  = user_settings (exec (toggle_multi_value uid m v) (db st)).
Proof.
  unfold on_multi_suggest, bind at 1, on_db, exec.
  destruct (toggle_multi_value uid m v (db st)) as [[e|items] d'] eqn:E.
  - reflexivity.
  - cbn [snd].
    match goal with
    | |- user_settings (db (snd (?k ?s))) = _ =>
        assert (Hk : keeps user_settings k) by keeps_auto;
        now rewrite (Hk s)
    end.
Qed.

Lemma toggle_settings uid key v d d' :
  user_settings d = user_settings d' ->
  user_settings (exec (toggle_multi_value uid key v) d)
  = user_settings (exec (toggle_multi_value uid key v) d').
Proof.
  intros Hd. rewrite !toggle_exec. cbn [user_settings with_settings].
  unfold selected. now rewrite Hd.
Qed.

Lemma ensure_user_settings uid d :
  user_settings (exec (ensure_user uid) d) = user_settings d.
Proof. unfold exec, ensure_user, modify. cbn [snd]. now destruct (existsb _ _). Qed.
End SuggestPress.

(** X7. Pressing a suggestion button toggles exactly that value.  The
    data [build_inline_suggestions] puts on the button of value [v] of a
    multi-value key [m] is recognised by the webhook as a press for
    [m]; whatever the chat platform answers, the settings table is then
    the one [toggle_multi_value(uid, m, v)] leaves, so [v] has changed
    sides in the set selected for [m] and no other setting of any user
    has changed. *)
Theorem suggestion_press_toggles :
  forall (L : PyLib) (E : Env) (call : callback_query) (st : St)
         (m v : pystr) (values : list pystr),
    In (m, values) MULTI_KEYS -> In v values ->
    cq_data call = (m ++ u "_suggest") ++ u "_" ++ v ->
    let uid := cq_from call in
    let out := telegram_webhook BOT_TOKEN (CallbackUpdate call) st in
    (forall sel back,
        In (cq_data call)
          (callback_data (build_inline_suggestions values (m ++ u "_suggest") sel back))) /\
    user_settings (db (snd out))
    = user_settings (exec (toggle_multi_value uid m v) (db st)) /\
    same_set (selected (db (snd out)) uid m) (toggled v (selected (db st) uid m)) /\
    (forall uid' key, (uid', key) <> (uid, m) ->
        setting_of uid' key (db (snd out)) = setting_of uid' key (db st)).
Proof.
  intros L E call st m v values Hm Hv Hdata uid out.
  assert (Hset : user_settings (db (snd out))
                 = user_settings (exec (toggle_multi_value uid m v) (db st))).
  { subst out. rewrite webhook_callback, (on_callback_suggest call m values v Hm Hdata).
    fold uid. unfold bind at 1.
    destruct (on_db (ensure_user uid) st) as [[e|[]] st1] eqn:E1;
      [unfold on_db, ensure_user, modify in E1; discriminate|].
    assert (Hdb1 : user_settings (db st1) = user_settings (db st)).
    { unfold on_db, ensure_user, modify in E1. injection E1 as <-. cbn [db].
      now destruct (existsb _ _). }
    unfold bind at 1.
    pose proof (on_multi_suggest_settings call uid m values v st1) as Hs.
    destruct (on_multi_suggest call uid m values v st1) as [[e|r] st2];
      unfold ret; cbn [snd] in *; rewrite Hs; now apply toggle_settings. }
  split; [|split; [exact Hset|split]].
  - intros sel back. rewrite callback_data_suggestions, Hdata.
    apply in_or_app. left. apply in_map_iff. now exists v.
  - destruct (suggestions_clean m values v Hm Hv) as (Hne & Hcf & Hst).
    intros x. unfold selected at 1. rewrite Hset.
    fold (selected (exec (toggle_multi_value uid m v) (db st)) uid m).
    rewrite (selected_toggled_In uid m v (db st) x Hcf Hst (selected_clean _ _ _)).
    split; [tauto|]. intros Hx. split; [|assumption].
    apply toggled_In in Hx as [[Hx _]|[-> _]]; [|assumption].
    pose proof (selected_clean (db st) uid m) as Hclean.
    rewrite Forall_forall in Hclean. apply (Hclean x Hx).
  - intros uid' key Hne. unfold setting_of. rewrite Hset, toggle_exec.
    cbn [user_settings with_settings]. now apply select_after_insert_other.
Qed.

Lemma suggestion_press_toggles_witness :
  let call := Sample.press 7 (u "work_format_suggest_офис") in
  let out := Sample.webhook Sample.all_well (CallbackUpdate call)
               (Sample.start Sample.all_well empty_store) in
  same_set (selected (db (snd out)) 7 (u "work_format"))
    (toggled (u "офис") (selected empty_store 7 (u "work_format"))).
Proof.
  intros call out.
  destruct (suggestion_press_toggles Sample.lib (Sample.env Sample.all_well) call
              (Sample.start Sample.all_well empty_store)
              (u "work_format") (u "офис") WORK_FORMAT_SUGGESTIONS)
    as (_ & _ & Hsame & _).
  - right. left. reflexivity.
  - right. left. reflexivity.
  - vm_compute. reflexivity.
  - exact Hsame.
Defined.

(** ** The settings table: writes meet only their own row *)

Lemma setting_at_key uid key r :
  setting_at uid key r = true <-> (s_user r, s_key r) = (uid, key).
Proof.
  unfold setting_at. rewrite andb_true_iff, Z.eqb_eq, pystr_eqb_eq.
  split; [intros [-> ->]; reflexivity|intros [= -> ->]; auto].
Qed.

Lemma settings_keyed_insert uid key v t :
  settings_keyed t -> settings_keyed (insert_or_replace_setting uid key v t).
Proof.
  unfold settings_keyed, insert_or_replace_setting. intros Hnd.
  rewrite map_app. apply NoDup_app.
  - induction t as [|r t IH]; [constructor|].
    inversion Hnd as [|? ? Hr Hnd']; subst. cbn [filter].
    destruct (negb (setting_at uid key r)); [|auto]. cbn [map].
    constructor; [|auto]. intros Hin. apply Hr.
    apply in_map_iff in Hin as (r' & Hk & Hin). apply filter_In in Hin as [Hin _].
    apply in_map_iff. now exists r'.
  - repeat constructor. intros [].
  - intros k Hk [<-|[]]. apply in_map_iff in Hk as (r & Hr & Hin).
    apply filter_In in Hin as [_ Hneg]. cbn [s_user s_key] in Hr.
    apply negb_true_iff in Hneg.
    assert (Ht : setting_at uid key r = true) by now apply setting_at_key.
    congruence.
Qed.

(** X8. Settings are independent of one another.  A write to one
    [(user, key)] pair reads back at that pair and leaves the value of
    every other pair, the pending marker included, as it was; the
    marker is the row with key ["pending"], is read back after it is
    set, reads as absent after a reset, and setting it touches no other
    setting; and no write ever leaves two rows for one pair. *)
Theorem settings_independent :
  forall (d : Store) (uid : Z) (key value : pystr) (field : option pystr),
    let d1 := exec (save_user_setting uid key value) d in
    let d2 := exec (set_pending uid field) d in
    eval (get_user_setting uid key) d1 = inr (Some value) /\
    (forall uid' key', (uid', key') <> (uid, key) ->
        eval (get_user_setting uid' key') d1 = eval (get_user_setting uid' key') d) /\
    (forall uid', (uid', pending_key) <> (uid, key) ->
        eval (get_pending uid') d1 = eval (get_pending uid') d) /\
    eval (get_pending uid) d2 = inr field /\
    (forall uid' key', (uid', key') <> (uid, pending_key) ->
        eval (get_user_setting uid' key') d2 = eval (get_user_setting uid' key') d) /\
    (settings_keyed (user_settings d) ->
        settings_keyed (user_settings d1) /\ settings_keyed (user_settings d2)).
Proof.
  intros d uid key value field d1 d2. subst d1 d2.
  unfold eval, exec, save_user_setting, set_pending, get_user_setting, get_pending,
    modify, bind, get_state, ret.
  cbn [fst snd user_settings with_settings].
  rewrite !select_after_insert.
  split; [reflexivity|]. split; [|split; [|split; [reflexivity|split]]].
  - intros uid' key' Hne. f_equal. now apply select_after_insert_other.
  - intros uid' Hne. f_equal. now apply select_after_insert_other.
  - intros uid' key' Hne. f_equal. now apply select_after_insert_other.
  - intros Hk. split; now apply settings_keyed_insert.
Qed.

Lemma settings_independent_witness :
  let d := exec (save_user_setting 7 (u "region") (u "Москва")) empty_store in
  eval (get_user_setting 7 (u "region"))
    (exec (save_user_setting 7 (u "salary") (u "100000")) d) = inr (Some (u "Москва")) /\
  eval (get_user_setting 7 (u "region")) (exec (set_pending 7 (Some (u "salary"))) d)
  = inr (Some (u "Москва")) /\
  settings_keyed (user_settings (exec (save_user_setting 7 (u "salary") (u "100000")) d)).
Proof.
  intros d.
  destruct (settings_independent d 7 (u "salary") (u "100000") (Some (u "salary")))
    as (_ & Hother & _ & _ & Hpending & Hkeyed).
  split; [|split].
  - rewrite Hother; [reflexivity|]. intros [=].
  - rewrite Hpending; [reflexivity|]. intros [=].
  - refine (proj1 (Hkeyed _)). subst d. apply settings_keyed_insert. constructor.
Defined.

(** ** The favourites table *)

Lemma favourite_present d uid vac :
  existsb (fun r => (f_user r =? uid) && (f_vacancy r =? vac)) (user_favorites d) = true
  <-> In vac (map fav_id (favourites_of d uid)).
Proof.
  unfold favourites_of. rewrite existsb_exists, map_rev, <- in_rev, map_map.
  cbn [fav_id fst]. rewrite in_map_iff. split.
  - intros (r & Hin & Hr). apply andb_true_iff in Hr as [Hu Hv].
    exists r. split; [now apply Z.eqb_eq|]. apply filter_In. auto.
  - intros (r & Hv & Hin). apply filter_In in Hin as [Hin Hu].
    exists r. split; [assumption|]. rewrite Hu. now apply Z.eqb_eq.
Qed.

Lemma favourites_filter d uid (p : favorite_row -> bool) (q : favorite -> bool) :
  (forall r, f_user r = uid -> p r = q (f_vacancy r, f_title r, f_url r)) ->
  favourites_of (with_favorites d (filter p (user_favorites d))) uid
  = filter q (favourites_of d uid).
Proof.
  intros Hpq. unfold favourites_of. cbn [user_favorites with_favorites].
  rewrite filter_rev. f_equal.
  induction (user_favorites d) as [|r t IH]; [reflexivity|]. cbn [filter].
  destruct (Z.eqb_spec (f_user r) uid) as [Hu|Hu].
  - destruct (p r) eqn:Ep; cbn [filter map].
    + apply Z.eqb_eq in Hu. rewrite Hu. cbn [map filter].
      apply Z.eqb_eq in Hu. rewrite <- (Hpq r Hu), Ep. now rewrite IH.
    + rewrite <- (Hpq r Hu), Ep. exact IH.
  - destruct (p r); cbn [filter]; [|exact IH].
    apply Z.eqb_neq in Hu. now rewrite Hu.
Qed.

(** X9. Favourites form a list without repetition, newest first.  Adding
    a vacancy the user does not yet have puts it at the head of what
    [open_favorites] reads; adding one the user already has changes
    nothing, the title and URL stored first stay; deleting removes
    exactly the entries with that id and keeps the order of the rest;
    neither operation touches another user's favourites. *)
Theorem favourites_newest_first :
  forall (d : Store) (uid vac : Z) (title : pystr) (url : option pystr),
    let added := exec (insert_favorite uid vac title url) d in
    let removed := exec (delete_favorite uid vac) d in
    eval (select_favorites uid) d = inr (favourites_of d uid) /\
    (In vac (map fav_id (favourites_of d uid)) -> added = d) /\
    (~ In vac (map fav_id (favourites_of d uid)) ->
       favourites_of added uid = (vac, title, url) :: favourites_of d uid) /\
    favourites_of removed uid
    = filter (fun f => negb (fav_id f =? vac)) (favourites_of d uid) /\
    ~ In vac (map fav_id (favourites_of removed uid)) /\
    (forall uid', uid' <> uid ->
       favourites_of added uid' = favourites_of d uid' /\
       favourites_of removed uid' = favourites_of d uid').
Proof.
  intros d uid vac title url added removed. subst added removed.
  unfold exec, insert_favorite, delete_favorite, modify. cbn [snd].
  pose proof (favourite_present d uid vac) as Hpresent.
  assert (Hdel : favourites_of
                   (with_favorites d
                      (filter (fun r => negb ((f_user r =? uid) && (f_vacancy r =? vac)))
                         (user_favorites d))) uid
                 = filter (fun f => negb (fav_id f =? vac)) (favourites_of d uid)).
  { apply favourites_filter. intros r Hr. cbn [fav_id fst].
    apply Z.eqb_eq in Hr. now rewrite Hr. }
  split; [reflexivity|]. split; [|split; [|split; [exact Hdel|split]]].
  - intros Hin. apply Hpresent in Hin. now rewrite Hin.
  - intros Hnot.
    destruct (existsb _ (user_favorites d)) eqn:E;
      [exfalso; apply Hnot, Hpresent; reflexivity|].
    unfold favourites_of. cbn [user_favorites with_favorites].
    rewrite filter_app, map_app, rev_app_distr. cbn [filter f_user].
    now rewrite Z.eqb_refl.
  - rewrite Hdel. intros Hin. apply in_map_iff in Hin as (f & Hf & Hin).
    apply filter_In in Hin as [_ Hneg]. rewrite Hf, Z.eqb_refl in Hneg. discriminate.
  - intros uid' Hne. split.
    + destruct (existsb _ (user_favorites d)); [reflexivity|].
      unfold favourites_of. cbn [user_favorites with_favorites].
      rewrite filter_app. cbn [filter f_user].
      apply Z.eqb_neq in Hne. rewrite Z.eqb_sym, Hne. now rewrite app_nil_r.
    + rewrite (favourites_filter d uid' _ (fun _ => true)).
      * clear. induction (favourites_of d uid'); [reflexivity|]. cbn [filter]. now f_equal.
      * intros r Hr. assert (Hu : (f_user r =? uid) = false)
          by (apply Z.eqb_neq; congruence). now rewrite Hu.
Qed.

Lemma favourites_newest_first_witness :
  let d1 := exec (insert_favorite 7 1 (u "Инженер") None) empty_store in
  let d2 := exec (insert_favorite 7 2 (u "Аналитик") None) d1 in
  favourites_of d2 7 = [(2, u "Аналитик", None); (1, u "Инженер", None)] /\
  exec (insert_favorite 7 1 (u "Другое название") None) d2 = d2.
Proof.
  intros d1 d2.
  destruct (favourites_newest_first d1 7 2 (u "Аналитик") None)
    as (_ & _ & Hnew & _).
  destruct (favourites_newest_first d2 7 1 (u "Другое название") None)
    as (_ & Hold & _).
  split.
  - unfold d2. rewrite Hnew; [reflexivity|]. vm_compute. intuition discriminate.
  - apply Hold. vm_compute. tauto.
Defined.

(** ** The id of the settings message *)

Lemma find_map_update (t : list user_row) uid uid' mid :
  find (fun r => u_chat r =? uid')
    (map (fun r => if u_chat r =? uid
                   then {| u_chat := uid; u_settings_msg := Some mid |} else r) t)
  = if uid =? uid'
    then option_map (fun _ => {| u_chat := uid; u_settings_msg := Some mid |})
           (find (fun r => u_chat r =? uid') t)
    else find (fun r => u_chat r =? uid') t.
Proof.
  induction t as [|r t IH]; cbn [map find]; [now destruct (uid =? uid')|].
  rewrite IH. clear IH.
  destruct (Z.eqb_spec (u_chat r) uid) as [Hr|Hr]; cbn [u_chat];
    destruct (Z.eqb_spec uid uid') as [Hu|Hu];
    destruct (Z.eqb_spec (u_chat r) uid') as [Hr'|Hr'];
    try congruence; reflexivity.
Qed.

Section SettingsMessage.
Context `{PyLib} `{Env}.

Lemma no_such_column_seen :
  contains (lower (u "no such column: settings_msg_id")) (u "no such column") = true.
Proof. vm_compute. reflexivity. Qed.

Lemma get_settings_msg_id_run uid st :
  get_settings_msg_id uid st
  = if users_has_msg_col (db st)
    then (inr (settings_msg_of (db st) uid), st)
    else (inr None,
          {| db := with_users (db st) (users (db st)) true; app := app st;
             world := world st; trace := trace st |}).
Proof.
  unfold get_settings_msg_id, try_except, on_db, select_settings_msg_id, bind at 1,
    get_state.
  destruct (users_has_msg_col (db st)) eqn:Hcol.
  - unfold ret. destruct st; reflexivity.
  - unfold raise, no_such_column. rewrite no_such_column_seen.
    unfold bind, on_db, add_settings_msg_column, modify, ret. reflexivity.
Qed.

Lemma set_settings_msg_id_run uid mid st :
  set_settings_msg_id uid mid st
  = (inr tt,
     {| db := with_users (db st)
                (map (fun r => if u_chat r =? uid
                               then {| u_chat := uid; u_settings_msg := Some mid |}
                               else r) (users (db st))) true;
        app := app st; world := world st; trace := trace st |}).
Proof.
  unfold set_settings_msg_id, try_except, on_db, update_settings_msg_id, bind at 1,
    get_state.
  destruct (users_has_msg_col (db st)) eqn:Hcol.
  - unfold modify. reflexivity.
  - unfold raise, no_such_column. rewrite no_such_column_seen.
    unfold bind, on_db, add_settings_msg_column, modify, get_state.
    cbn [db users_has_msg_col with_users]. reflexivity.
Qed.
End SettingsMessage.

(** X10. The id of the settings message survives the missing column.
    [get_settings_msg_id] never raises: on a [users] table that has no
    [settings_msg_id] column yet it adds the column and returns [None].
    [set_settings_msg_id] never raises either and adds the column when
    needed; afterwards a read gives the id just stored if the user has
    a row in [users] and [None] if not, and every other user reads what
    was stored for them before.  Neither function makes a request. *)
Theorem settings_msg_id_round_trip :
  forall (L : PyLib) (E : Env) (uid mid : Z) (st : St),
    let got := get_settings_msg_id uid st in
    let st1 := snd (set_settings_msg_id uid mid st) in
    fst got = inr (if users_has_msg_col (db st) then settings_msg_of (db st) uid
                   else None) /\
    users_has_msg_col (db (snd got)) = true /\
    users (db (snd got)) = users (db st) /\
    fst (set_settings_msg_id uid mid st) = inr tt /\
    fst (get_settings_msg_id uid st1)
    = inr (if registered (db st) uid then Some mid else None) /\
    (forall uid', uid' <> uid ->
       fst (get_settings_msg_id uid' st1) = inr (settings_msg_of (db st) uid')) /\
    trace (snd got) = trace st /\ trace st1 = trace st.
Proof.
  intros L E uid mid st got st1. subst got st1.
  rewrite set_settings_msg_id_run. cbn [fst snd].
  rewrite !get_settings_msg_id_run.
  cbn [db users_has_msg_col with_users trace].
  split; [now destruct (users_has_msg_col (db st))|].
  split; [now destruct (users_has_msg_col (db st)) eqn:Hc|].
  split; [now destruct (users_has_msg_col (db st))|].
  split; [reflexivity|]. split; [|split].
  - cbn [fst]. f_equal. unfold settings_msg_of, registered. cbn [users with_users].
    rewrite find_map_update, Z.eqb_refl.
    destruct (find (fun r => u_chat r =? uid) (users (db st))) as [r|] eqn:Hf.
    + apply find_some in Hf as [Hin Hr].
      assert (He : existsb (fun r => u_chat r =? uid) (users (db st)) = true)
        by (apply existsb_exists; eauto).
      now rewrite He.
    + assert (He : existsb (fun r => u_chat r =? uid) (users (db st)) = false).
      { destruct (existsb _ _) eqn:He; [|reflexivity].
        apply existsb_exists in He as (r & Hin & Hr).
        now rewrite (find_none _ _ Hf r Hin) in Hr. }
      now rewrite He.
  - intros uid' Hne. intros. rewrite get_settings_msg_id_run.
    cbn [db users_has_msg_col with_users fst]. f_equal.
    unfold settings_msg_of. cbn [users with_users]. rewrite find_map_update.
    assert (Hu : (uid =? uid') = false) by (apply Z.eqb_neq; congruence).
    now rewrite Hu.
  - split; [now destruct (users_has_msg_col (db st))|reflexivity].
Qed.

Lemma settings_msg_id_round_trip_witness :
  let st := Sample.start Sample.all_well (exec (ensure_user 7) empty_store) in
  fst (@get_settings_msg_id Sample.lib (Sample.env Sample.all_well) 8
         (snd (@set_settings_msg_id Sample.lib (Sample.env Sample.all_well) 7 1001 st)))
  = inr None.
Proof.
  intros st.
  destruct (settings_msg_id_round_trip Sample.lib (Sample.env Sample.all_well) 7 1001 st)
    as (_ & _ & _ & _ & _ & Hother & _).
  rewrite (Hother 8); [reflexivity|discriminate].
Defined.

(** ** Requests, one at a time *)

Section Runs.
Context `{PyLib} `{Env}.

Lemma after_trace rq st : trace (after rq st) = trace st ++ [(rq, outcome rq st)].
Proof. reflexivity. Qed.

Lemma after_db rq st : db (after rq st) = db st.
Proof. reflexivity. Qed.

Lemma after_app rq st : app (after rq st) = app st.
Proof. reflexivity. Qed.

Lemma perform_run rq st : perform rq st = (outcome rq st, after rq st).
Proof. unfold perform, outcome, after. now destruct (respond rq (world st)). Qed.

Lemma answer_run id note alert st :
  answer_callback_query id note alert st
  = (match outcome (AnswerCallbackQuery id note alert) st with
     | inr _ => inr tt
     | inl e => inl e
     end, after (AnswerCallbackQuery id note alert) st).
Proof.
  unfold answer_callback_query, bind. rewrite perform_run.
  now destruct (outcome _ st).
Qed.

Lemma safe_edit_text_run m body mk html st :
  safe_edit_text m body mk html st
  = (forgiving
       (outcome (EditMessageText body (chat_id m) (message_id m) mk (html_mode html)) st),
     after (EditMessageText body (chat_id m) (message_id m) mk (html_mode html)) st).
Proof.
  unfold safe_edit_text, try_except, bind. rewrite perform_run.
  destruct (outcome _ st) as [e|r]; [|reflexivity].
  destruct e; try reflexivity. cbn [forgiving].
  now destruct (negb (contains msg not_modified)).
Qed.

Lemma safe_edit_markup_run m mk st :
  safe_edit_markup m mk st
  = (forgiving (outcome (EditMessageReplyMarkup (chat_id m) (message_id m) mk) st),
     after (EditMessageReplyMarkup (chat_id m) (message_id m) mk) st).
Proof.
  unfold safe_edit_markup, try_except, bind. rewrite perform_run.
  destruct (outcome _ st) as [e|r]; [|reflexivity].
  destruct e; try reflexivity. cbn [forgiving].
  now destruct (negb (contains msg not_modified)).
Qed.
End Runs.

(** Bring the final state of a run into the form "what it was, plus the
    events". *)
Ltac run_done Ht Hdb :=
  cbn [snd fst db trace app after]; unfold outcome; cbn [world after];
  rewrite ?Ht, ?Hdb, <- ?app_assoc; cbn [List.app].

(** ** Leafing through the favourites *)

Lemma filter_all_true {A} (p : A -> bool) l :
  Forall (fun x => p x = true) l -> filter p l = l.
Proof. induction 1 as [|x l Hx Hl IH]; [reflexivity|]. cbn [filter]. now rewrite Hx, IH. Qed.

Section Favourites.
Context `{PyLib} `{Env}.

Lemma show_next_fav_run call uid st f rest :
  cached_favs (app st) uid = Some (f :: rest) ->
  exists st1,
    db st1 = db st /\ world st1 = world st /\ trace st1 = trace st /\
    cached_favs (app st1) uid = Some rest /\
    show_next_fav call uid st
    = match rest with
      | [] =>
          (safe_edit_text (cq_message call) (u "⭐️ Избранное закончилось.") None false ;;
           answer_callback_query (cq_id call) (Some (u "Список пуст ✅")) false ;;
           a <- get_app ;;
           match favs_cache a with
           | None => raise AttributeError
           | Some cache =>
               set_app (set_favs_cache a (Some (assoc_del Z.eqb cache uid))) ;;
               ret OkTrue
           end) st1
      | f3 :: _ =>
          (safe_edit_text (cq_message call) (fav_card f3)
             (Some (fav_keyboard (fav_id f3) (u "⬅️ Назад"))) true ;;
           answer_callback_query (cq_id call) None false ;;
           ret OkTrue) st1
      end.
Proof.
  unfold cached_favs. destruct (favs_cache (app st)) as [cache|] eqn:Hc; [|discriminate].
  intros Hget. unfold show_next_fav.
  unfold bind at 1, get_app at 1. rewrite Hc, Hget. cbn [tl].
  unfold bind at 1, set_app at 1.
  destruct rest as [|[[fid title] url] more].
  - eexists. split; [|split; [|split; [|split]]]; [| | | |reflexivity]; try reflexivity.
    cbn [app favs_cache set_favs_cache]. apply assoc_get_set_same, Z.eqb_eq.
  - unfold bind at 1, get_app at 1. cbn [app favs_cache set_favs_cache].
    unfold bind at 1, set_app at 1. cbn [db app world trace].
    eexists. split; [|split; [|split; [|split]]]; [| | | |reflexivity]; try reflexivity.
    cbn [app favs_cache set_favs_cache]. apply assoc_get_set_same, Z.eqb_eq.
Qed.


Lemma cached_favs_cache a uid l :
  cached_favs a uid = Some l -> exists cache, favs_cache a = Some cache.
Proof. unfold cached_favs. destruct (favs_cache a); [eauto|discriminate]. Qed.

(** What a press of [fav_next] does when the user has cached
    favourites, the first of which is the card on screen. *)
Lemma show_next_fav_outcome call uid st f rest :
  cached_favs (app st) uid = Some (f :: rest) ->
  let out := show_next_fav call uid st in
  exists evs,
    trace (snd out) = trace st ++ evs /\
    db (snd out) = db st /\
    edits evs = [match rest with
                 | [] => u "⭐️ Избранное закончилось."
                 | f3 :: _ => fav_card f3
                 end] /\
    notes evs = match rest, evs with
                | [], _ :: _ :: _ => [u "Список пуст ✅"]
                | _, _ => []
                end /\
    (fst out = inr OkTrue ->
     cached_favs (app (snd out)) uid = match rest with [] => None | _ => Some rest end) /\
    (forall e, fst out = inl e -> cached_favs (app (snd out)) uid = Some rest).
Proof.
  intros Hc out. subst out.
  destruct (show_next_fav_run call uid st f rest Hc)
    as (st1 & Hdb & Hw & Ht & Hc1 & ->).
  destruct rest as [|f3 more].
  - match goal with |- context [snd (?k st1)] =>
      destruct (k st1) as [res stf] eqn:Hrun end.
    unfold bind at 1 in Hrun. rewrite safe_edit_text_run in Hrun.
    set (rq1 := EditMessageText _ _ _ _ _) in *.
    destruct (forgiving (outcome rq1 st1)) as [e|[]] eqn:E1.
    { injection Hrun as <- <-. exists [(rq1, outcome rq1 st1)]. run_done Ht Hdb.
      repeat split; try reflexivity; [discriminate|]. now intros. }
    unfold bind at 1 in Hrun. rewrite answer_run in Hrun.
    set (rq2 := AnswerCallbackQuery _ _ _) in *.
    destruct (outcome rq2 (after rq1 st1)) as [e|r2] eqn:E2.
    { injection Hrun as <- <-.
      exists [(rq1, outcome rq1 st1); (rq2, outcome rq2 (after rq1 st1))].
      run_done Ht Hdb.
      repeat split; try reflexivity; [discriminate|]. now intros. }
    unfold bind at 1, get_app at 1 in Hrun. rewrite !after_app in Hrun.
    destruct (cached_favs_cache _ _ _ Hc1) as [cache Hcache]. rewrite Hcache in Hrun.
    unfold bind, set_app, ret in Hrun. injection Hrun as <- <-.
    exists [(rq1, outcome rq1 st1); (rq2, outcome rq2 (after rq1 st1))].
    run_done Ht Hdb.
    repeat split; try reflexivity; [|now intros].
    intros _. unfold cached_favs. cbn [favs_cache set_favs_cache].
    apply assoc_get_del_same.
  - match goal with |- context [snd (?k st1)] =>
      destruct (k st1) as [res stf] eqn:Hrun end.
    unfold bind at 1 in Hrun. rewrite safe_edit_text_run in Hrun.
    set (rq1 := EditMessageText _ _ _ _ _) in *.
    destruct (forgiving (outcome rq1 st1)) as [e|[]] eqn:E1.
    { injection Hrun as <- <-. exists [(rq1, outcome rq1 st1)]. run_done Ht Hdb.
      repeat split; try reflexivity; [discriminate|]. now intros. }
    unfold bind at 1 in Hrun. rewrite answer_run in Hrun.
    set (rq2 := AnswerCallbackQuery _ _ _) in *.
    destruct (outcome rq2 (after rq1 st1)) as [e|r2] eqn:E2;
      unfold ret in Hrun; injection Hrun as <- <-;
      exists [(rq1, outcome rq1 st1); (rq2, outcome rq2 (after rq1 st1))];
      run_done Ht Hdb;
      repeat split; try reflexivity; try discriminate; now intros.
Qed.
End Favourites.

(** X11. [fav_next] drops the card on screen and shows the one after
    it.  When the user's cached favourites are [f :: rest], the handler
    makes exactly one edit request, whatever becomes of it: the card of
    the head of [rest], or the end-of-list text when [rest] is empty.
    The cached list has lost [f] by then, also when the handler raises;
    when it returns, an empty [rest] has been taken out of the cache
    altogether.  The store is never touched. *)
Theorem fav_next_drops_shown_card :
  forall (E : Env) (call : callback_query) (uid : Z) (st : St)
         (f : favorite) (rest : list favorite),
    cached_favs (app st) uid = Some (f :: rest) ->
    let out := show_next_fav call uid st in
    exists evs,
      trace (snd out) = trace st ++ evs /\
      db (snd out) = db st /\
      edits evs = [match rest with
                   | [] => u "⭐️ Избранное закончилось."
                   | f3 :: _ => fav_card f3
                   end] /\
      (fst out = inr OkTrue ->
       cached_favs (app (snd out)) uid
       = match rest with [] => None | _ => Some rest end) /\
      (forall e, fst out = inl e -> cached_favs (app (snd out)) uid = Some rest).
Proof.
  intros E call uid st f rest Hc out.
  destruct (show_next_fav_outcome call uid st f rest Hc)
    as (evs & Ht & Hdb & He & _ & Hok & Hfail).
  exists evs. auto.
Qed.

Lemma fav_next_drops_shown_card_witness :
  let st := @Build_St (Sample.env Sample.all_well) empty_store
              (set_favs_cache initial_app
                 (Some [(7, [(1, u "Инженер", None); (2, u "Аналитик", None)])]))
              0%nat [] in
  let out := @show_next_fav (Sample.env Sample.all_well)
               (Sample.press 7 (u "fav_next")) 7 st in
  exists evs,
    trace (snd out) = evs /\ edits evs = [fav_card (2, u "Аналитик", None)].
Proof.
  intros st out.
  destruct (fav_next_drops_shown_card (Sample.env Sample.all_well)
              (Sample.press 7 (u "fav_next")) 7 st (1, u "Инженер", None)
              [(2, u "Аналитик", None)] eq_refl)
    as (evs & Ht & _ & He & _).
  exists evs. split; [exact Ht|exact He].
Defined.

Section FavDel.
Context `{PyLib} `{Env}.

Lemma on_fav_del_run call uid st cache fid l :
  cq_data call = u "fav_del_" ++ str_of_int fid ->
  favs_cache (app st) = Some cache ->
  assoc_get Z.eqb cache uid = Some l ->
  exists st0,
    db st0 = with_favorites (db st)
               (filter (fun r => negb ((f_user r =? uid) && (f_vacancy r =? fid)))
                  (user_favorites (db st))) /\
    world st0 = world st /\ trace st0 = trace st /\
    cached_favs (app st0) uid = Some (filter (fun f => negb (fav_id f =? fid)) l) /\
    on_fav_del call uid st
    = (answer_callback_query (cq_id call) (Some (u "Удалено")) false ;;
       show_next_fav call uid) st0.
Proof.
  intros Hdata Hc Hget. unfold on_fav_del. rewrite Hdata.
  change (u "fav_del_" ++ str_of_int fid) with (u "fav_del" ++ underscore :: str_of_int fid).
  rewrite trailing_int_app by apply str_of_int_no_underscore.
  unfold int_of_text. rewrite int_of_str_of_int.
  unfold bind at 1, lift_result at 1.
  unfold bind at 1, on_db at 1, delete_favorite, modify.
  unfold bind at 1, get_app at 1. cbn [app db]. rewrite Hc, Hget.
  unfold bind at 1, set_app at 1. cbn [db app world trace].
  eexists. split; [|split; [|split; [|split]]]; [| | | |reflexivity]; try reflexivity.
  unfold cached_favs. cbn [app favs_cache set_favs_cache].
  apply assoc_get_set_same, Z.eqb_eq.
Qed.
End FavDel.

(** X12. Deleting the favourite on screen skips the one after it.  When
    the cached favourites are [f1 :: f2 :: rest], with [f1] on screen
    and no other cached entry carrying its id, pressing its delete
    button removes from the table the entries with the id of [f1] and
    no others; if the handler returns, the card then put on screen is
    the head of [rest] (or the end-of-list text), and the cache holds
    [rest]: [f2] has not been deleted, but it was never shown and is no
    longer in the cache. *)
Theorem deleting_shown_favourite_skips_next :
  forall (E : Env) (call : callback_query) (uid : Z) (st : St)
         (f1 f2 : favorite) (rest : list favorite),
    cached_favs (app st) uid = Some (f1 :: f2 :: rest) ->
    cq_data call = u "fav_del_" ++ str_of_int (fav_id f1) ->
    Forall (fun f => fav_id f <> fav_id f1) (f2 :: rest) ->
    let out := on_fav_del call uid st in
    exists evs,
      trace (snd out) = trace st ++ evs /\
      favourites_of (db (snd out)) uid
      = filter (fun f => negb (fav_id f =? fav_id f1)) (favourites_of (db st) uid) /\
      (fst out = inr OkTrue ->
       edits evs = [match rest with
                    | [] => u "⭐️ Избранное закончилось."
                    | f3 :: _ => fav_card f3
                    end] /\
       cached_favs (app (snd out)) uid
       = match rest with [] => None | _ => Some rest end).
Proof.
  intros E call uid st f1 f2 rest Hc Hdata Hids out. subst out.
  destruct (cached_favs_cache _ _ _ Hc) as [cache Hcache].
  assert (Hget : assoc_get Z.eqb cache uid = Some (f1 :: f2 :: rest))
    by (unfold cached_favs in Hc; now rewrite Hcache in Hc).
  destruct (on_fav_del_run call uid st cache (fav_id f1) _ Hdata Hcache Hget)
    as (st0 & Hdb0 & Hw0 & Ht0 & Hc0 & ->).
  assert (Hkept : filter (fun f => negb (fav_id f =? fav_id f1)) (f1 :: f2 :: rest)
                  = f2 :: rest).
  { cbn [filter]. rewrite Z.eqb_refl. cbn [negb].
    change (filter (fun f => negb (fav_id f =? fav_id f1)) (f2 :: rest) = f2 :: rest).
    apply filter_all_true. eapply Forall_impl; [|exact Hids].
    intros f Hf. apply negb_true_iff. now apply Z.eqb_neq. }
  rewrite Hkept in Hc0.
  assert (Hfavs : favourites_of (db st0) uid
                  = filter (fun f => negb (fav_id f =? fav_id f1))
                      (favourites_of (db st) uid)).
  { rewrite Hdb0. apply favourites_filter. intros r Hr. cbn [fav_id fst].
    apply Z.eqb_eq in Hr. now rewrite Hr. }
  match goal with |- context [snd (?k st0)] =>
    destruct (k st0) as [res stf] eqn:Hrun end.
  unfold bind at 1 in Hrun. rewrite answer_run in Hrun.
  set (rq0 := AnswerCallbackQuery _ _ _) in *.
  destruct (outcome rq0 st0) as [e|r0] eqn:E0.
  { injection Hrun as <- <-. exists [(rq0, outcome rq0 st0)].
    cbn [snd fst]. rewrite after_trace, after_db, Ht0, Hfavs.
    split; [reflexivity|]. split; [reflexivity|]. discriminate. }
  assert (Hc1 : cached_favs (app (after rq0 st0)) uid = Some (f2 :: rest))
    by (now rewrite after_app).
  destruct (show_next_fav_outcome call uid (after rq0 st0) f2 rest Hc1)
    as (evs & Ht & Hdb & He & Hn & Hok & _).
  rewrite Hrun in Ht, Hdb, Hok. cbn [snd fst] in *.
  exists ((rq0, outcome rq0 st0) :: evs).
  rewrite Ht, Hdb, after_trace, after_db, Ht0, Hfavs, <- app_assoc.
  split; [reflexivity|]. split; [reflexivity|].
  intros Hres. split; [|now apply Hok].
  change (edits ((rq0, outcome rq0 st0) :: evs)) with (edits evs). exact He.
Qed.

Lemma deleting_shown_favourite_skips_next_witness :
  let st := @Build_St (Sample.env Sample.all_well) empty_store
              (set_favs_cache initial_app
                 (Some [(7, [(1, u "Инженер", None); (2, u "Аналитик", None);
                             (3, u "Тестировщик", None)])]))
              0%nat [] in
  let out := @on_fav_del (Sample.env Sample.all_well)
               (Sample.press 7 (u "fav_del_1")) 7 st in
  fst out = inr OkTrue /\
  edits (trace (snd out)) = [fav_card (3, u "Тестировщик", None)] /\
  cached_favs (app (snd out)) 7 = Some [(3, u "Тестировщик", None)].
Proof.
  intros st out.
  destruct (deleting_shown_favourite_skips_next (Sample.env Sample.all_well)
              (Sample.press 7 (u "fav_del_1")) 7 st
              (1, u "Инженер", None) (2, u "Аналитик", None)
              [(3, u "Тестировщик", None)] eq_refl)
    as (evs & Ht & _ & Hok).
  - vm_compute. reflexivity.
  - repeat constructor; discriminate.
  - assert (Hres : fst out = inr OkTrue) by (vm_compute; reflexivity).
    destruct (Hok Hres) as [He Hcache].
    split; [exact Hres|]. split; [|exact Hcache].
    fold out in Ht. rewrite Ht. exact He.
Defined.

(** X13. Leafing before the favourites were ever opened.  As long as
    the process has no [favs_cache] attribute (it is created by
    [open_favorites] only), [fav_prev] raises [AttributeError] at once,
    without a request; [fav_next] first tells the user that the list is
    finished and only then fails: it never returns, and when both of
    its requests succeed the error is [AttributeError]. *)
Theorem leafing_without_cache_fails :
  forall (E : Env) (call : callback_query) (uid : Z) (st : St),
    favs_cache (app st) = None ->
    show_prev_fav call uid st = (inl AttributeError, st) /\
    (let out := show_next_fav call uid st in
     let rq1 := EditMessageText (u "⭐️ Избранное закончилось.")
                  (chat_id (cq_message call)) (message_id (cq_message call)) None None in
     let rq2 := AnswerCallbackQuery (cq_id call) (Some (u "Список пуст ✅")) false in
     (exists e, fst out = inl e) /\
     app (snd out) = app st /\ db (snd out) = db st /\
     (exists evs, trace (snd out) = trace st ++ (rq1, outcome rq1 st) :: evs) /\
     (forall r1 r2, outcome rq1 st = inr r1 -> outcome rq2 (after rq1 st) = inr r2 ->
        fst out = inl AttributeError /\
        trace (snd out) = trace st ++ [(rq1, inr r1); (rq2, inr r2)])).
Proof.
  intros E call uid st Hnone. split.
  - unfold show_prev_fav, bind, get_app. now rewrite Hnone.
  - cbv zeta.
    set (rq1 := EditMessageText _ _ _ _ _).
    set (rq2 := AnswerCallbackQuery _ _ _).
    destruct (show_next_fav call uid st) as [res stf] eqn:Hrun.
    unfold show_next_fav in Hrun.
    unfold bind at 1, get_app at 1 in Hrun. rewrite Hnone in Hrun.
    unfold bind at 1, ret at 1 in Hrun.
    unfold bind at 1 in Hrun. rewrite safe_edit_text_run in Hrun.
    change (html_mode false) with (@None pystr) in Hrun. fold rq1 in Hrun.
    destruct (outcome rq1 st) as [e1|r1] eqn:E1.
    { destruct (forgiving (inl e1)) as [e|[]] eqn:Ef.
      - injection Hrun as <- <-. cbn [fst snd].
        rewrite after_app, after_db, after_trace, E1.
        split; [eauto|]. split; [reflexivity|]. split; [reflexivity|].
        split; [now exists []|]. intros r1 r2 Hr1. discriminate.
      - unfold bind at 1 in Hrun. rewrite answer_run in Hrun. fold rq2 in Hrun.
        destruct (outcome rq2 (after rq1 st)) as [e2|r2] eqn:E2.
        + injection Hrun as <- <-. cbn [fst snd].
          rewrite !after_app, !after_db, !after_trace, E1, E2, <- app_assoc.
          split; [eauto|]. split; [reflexivity|]. split; [reflexivity|].
          split; [now eexists|]. intros r1 r2 Hr1. discriminate.
        + unfold bind at 1, get_app at 1 in Hrun. rewrite !after_app, Hnone in Hrun.
          injection Hrun as <- <-. cbn [fst snd].
          rewrite !after_app, !after_db, !after_trace, E1, E2, <- app_assoc.
          split; [eauto|]. split; [reflexivity|]. split; [reflexivity|].
          split; [now eexists|]. intros r1 r2' Hr1. discriminate. }
    cbn [forgiving] in Hrun.
    unfold bind at 1 in Hrun. rewrite answer_run in Hrun. fold rq2 in Hrun.
    destruct (outcome rq2 (after rq1 st)) as [e2|r2] eqn:E2.
    + injection Hrun as <- <-. cbn [fst snd].
      rewrite !after_app, !after_db, !after_trace, E1, E2, <- app_assoc.
      split; [eauto|]. split; [reflexivity|]. split; [reflexivity|].
      split; [now eexists|]. intros r1' r2 _ Hr2. discriminate.
    + unfold bind at 1, get_app at 1 in Hrun. rewrite !after_app, Hnone in Hrun.
      injection Hrun as <- <-. cbn [fst snd].
      rewrite !after_app, !after_db, !after_trace, E1, E2, <- app_assoc.
      split; [eauto|]. split; [reflexivity|]. split; [reflexivity|].
      split; [now eexists|]. intros r1' r2' [= <-] [= <-]. now split.
Qed.

Lemma leafing_without_cache_fails_witness :
  fst (Sample.webhook Sample.all_well (CallbackUpdate (Sample.press 7 (u "fav_prev")))
         (Sample.start Sample.all_well empty_store)) = inl AttributeError.
Proof.
  pose (st := snd (@on_db (Sample.env Sample.all_well) unit (ensure_user 7)
                     (Sample.start Sample.all_well empty_store))).
  destruct (leafing_without_cache_fails (Sample.env Sample.all_well)
              (Sample.press 7 (u "fav_prev")) 7 st eq_refl) as [Hprev _].
  change (Sample.webhook Sample.all_well (CallbackUpdate (Sample.press 7 (u "fav_prev")))
            (Sample.start Sample.all_well empty_store))
    with (match @show_prev_fav (Sample.env Sample.all_well)
                  (Sample.press 7 (u "fav_prev")) 7 st with
          | (inr r, s) => (inr r, s)
          | (inl e, s) => (inl e, s)
          end).
  now rewrite Hprev.
Defined.

(** X14. An apply button pressed when the process holds no vacancies
    for the user (after a restart, say): the handler answers that the
    vacancy was not found and does nothing else - no letter is asked
    for, no application is submitted, the store and the caches stay as
    they were. *)
Theorem apply_without_cache_not_found :
  forall (L : PyLib) (E : Env) (call : callback_query) (uid : Z) (st : St),
    assoc_get Z.eqb (jobs_by_id (app st)) uid = None ->
    assoc_get Z.eqb (jobs_cache (app st)) uid = None ->
    let rq := AnswerCallbackQuery (cq_id call) (Some (u "⛔️ Вакансия не найдена")) false in
    on_job_apply call uid st
    = (match outcome rq st with inr _ => inr OkTrue | inl e => inl e end, after rq st) /\
    generations (trace (after rq st)) = generations (trace st) /\
    submissions (trace (after rq st)) = submissions (trace st).
Proof.
  intros L E call uid st Hid Hcache rq. split.
  - unfold on_job_apply. unfold bind at 1, get_app at 1. rewrite Hid, Hcache.
    cbn [assoc_get truthy negb scan_jobs]. unfold bind at 1, lift_result at 1.
    cbn [truthy negb]. unfold bind. rewrite answer_run. fold rq.
    now destruct (outcome rq st).
  - rewrite after_trace. unfold generations, submissions. rewrite !flat_map_app.
    cbn [flat_map fst rq]. now rewrite !app_nil_r.
Qed.

Lemma apply_without_cache_not_found_witness :
  let st := Sample.start Sample.all_well empty_store in
  fst (@on_job_apply Sample.lib (Sample.env Sample.all_well)
         (Sample.press 7 (u "job_apply_501")) 7 st) = inr OkTrue.
Proof.
  intros st.
  destruct (apply_without_cache_not_found Sample.lib (Sample.env Sample.all_well)
              (Sample.press 7 (u "job_apply_501")) 7 st eq_refl eq_refl) as [Hrun _].
  rewrite Hrun. reflexivity.
Defined.

(** ** The batch of a user without a resume *)

Lemma submissions_app a b : submissions (a ++ b) = submissions a ++ submissions b.
Proof. apply flat_map_app. Qed.

Lemma warnings_app a b : warnings (a ++ b) = warnings a ++ warnings b.
Proof. apply flat_map_app. Qed.

Lemma generations_app a b : generations (a ++ b) = generations a ++ generations b.
Proof. apply flat_map_app. Qed.

Lemma reports_app a b : reports (a ++ b) = reports a ++ reports b.
Proof. apply flat_map_app. Qed.

Lemma batch_events_no_resume `{PyLib} d uid resume vs flags evs :
  chosen_resume d uid = None ->
  batch_events d uid resume vs flags evs ->
  successes flags = 0 /\ submissions evs = [] /\
  warnings evs = map (fun v => field v (u "id")) vs.
Proof.
  intros Hnone. induction 1 as [|v vs b bs ev evs Hp Hb IH].
  - repeat split; reflexivity.
  - destruct IH as (Hs & Hsub & Hw).
    destruct Hp as [g cover rid r _ Hrid|g cover rid e _ Hrid|g cover _ _];
      try congruence.
    rewrite successes_cons, Hs, submissions_app, warnings_app, Hsub, Hw.
    repeat split; reflexivity.
Qed.

Lemma batch_events_reports `{PyLib} d uid resume vs flags evs :
  batch_events d uid resume vs flags evs -> reports evs = [].
Proof.
  induction 1 as [|v vs b bs ev evs Hp Hb IH]; [reflexivity|].
  rewrite reports_app, IH. now destruct Hp.
Qed.



(** ** Text typed while a field is awaited *)

Section TypedText.
Context `{PyLib} `{Env}.

Lemma on_text_input msg raw st :
  is_command (strip raw) = false ->
  on_text msg raw st
  = try_finally
      (on_pending_input (from_id msg)
         (setting_of (from_id msg) pending_key (db st)) (strip raw))
      (delete_on_exit (setting_of (from_id msg) pending_key (db st))
         (Some (chat_id msg, message_id msg)))
      (snd (on_db (ensure_user (from_id msg)) st)).
Proof.
  intros Hcmd. rewrite on_text_run. cbv zeta.
  unfold is_command in Hcmd. cbn [existsb] in Hcmd.
  rewrite !orb_false_iff in Hcmd. destruct Hcmd as (H1 & H2 & H3 & H4 & _).
  rewrite H1, H2, H3, H4. now destruct (startswith (strip raw) [slash]).
Qed.

Lemma webhook_text msg raw st :
  text msg = Some raw -> raw <> [] ->
  telegram_webhook BOT_TOKEN (MessageUpdate msg) st = on_text msg raw st.
Proof.
  intros Ht Hne. unfold telegram_webhook. rewrite pystr_eqb_refl. cbn [negb].
  rewrite Ht. destruct raw; [congruence|reflexivity].
Qed.

Lemma store_pending_input_settings uid key value st :
  user_settings (db (snd (store_pending_input uid key value st)))
  = user_settings (exec (set_pending uid None)
                     (exec (save_user_setting uid key value) (db st))).
Proof.
  unfold store_pending_input.
  unfold bind at 1, on_db at 1, save_user_setting at 1, modify at 1.
  unfold bind at 1, on_db at 1, set_pending at 1, modify at 1.
  cbn [db app world trace].
  match goal with
  | |- user_settings (db (snd (?k ?s))) = _ =>
      assert (Hk : keeps user_settings k)
  end.
  { apply keeps_bind; [apply keeps_get_settings_msg_id; reflexivity|intros m].
    apply keeps_bind; [apply keeps_safe_edit_text_by_id; reflexivity|intros _].
    apply keeps_ret. }
  rewrite Hk. reflexivity.
Qed.

Lemma try_finally_settings {A} (m : M St A) pending target st :
  user_settings (db (snd (try_finally m (delete_on_exit pending target) st)))
  = user_settings (db (snd (m st))).
Proof.
  unfold try_finally. destruct (m st) as [r st1]. cbn [snd].
  pose proof (keeps_delete_on_exit user_settings pending target st1) as Hk.
  destruct (delete_on_exit pending target st1) as [[e|[]] st2]; exact Hk.
Qed.
End TypedText.

(** X16. Text typed while a field is awaited.  For a text message that
    is none of the four commands: if the region or the keyword is
    awaited, the stripped text becomes that setting and the pending
    marker is reset, whatever the chat platform answers afterwards; if
    the salary is awaited, the same happens when the stripped text
    consists of digits, and otherwise no setting changes, the marker
    stays, the user's message is deleted and the webhook returns no
    body.  No other setting of any user is touched. *)
Theorem typed_text_is_stored :
  forall (L : PyLib) (E : Env) (msg : message) (raw field : pystr) (st : St),
    text msg = Some raw -> raw <> [] ->
    is_command (strip raw) = false ->
    setting_of (from_id msg) pending_key (db st) = Some field ->
    let uid := from_id msg in
    let out := telegram_webhook BOT_TOKEN (MessageUpdate msg) st in
    let stored := user_settings (exec (set_pending uid None)
                                   (exec (save_user_setting uid field (strip raw))
                                      (db st))) in
    (field = u "region" \/ field = u "keyword" \/
     (field = u "salary" /\ isdigit (strip raw) = true) ->
     user_settings (db (snd out)) = stored /\
     setting_of uid field (db (snd out)) = Some (strip raw) /\
     setting_of uid pending_key (db (snd out)) = None /\
     (forall uid' key, (uid', key) <> (uid, field) -> (uid', key) <> (uid, pending_key) ->
        setting_of uid' key (db (snd out)) = setting_of uid' key (db st))) /\
    (field = u "salary" -> isdigit (strip raw) = false ->
     user_settings (db (snd out)) = user_settings (db st) /\
     fst out = inr NoBody /\
     trace (snd out)
     = trace st ++ [(DeleteMessage (chat_id msg) (message_id msg),
                     outcome (DeleteMessage (chat_id msg) (message_id msg)) st)]).
Proof.
  intros L E msg raw field st Htext Hne Hcmd Hpending uid out stored.
  subst out. rewrite (webhook_text msg raw st Htext Hne), (on_text_input msg raw st Hcmd).
  rewrite Hpending. fold uid.
  set (st0 := snd (on_db (ensure_user uid) st)).
  assert (Hs0 : user_settings (db st0) = user_settings (db st)).
  { subst st0. unfold on_db, ensure_user, modify. cbn [snd db].
    now destruct (existsb _ _). }
  assert (Hstored : forall key,
             user_settings (db (snd (store_pending_input uid key (strip raw) st0)))
             = user_settings (exec (set_pending uid None)
                                (exec (save_user_setting uid key (strip raw)) (db st)))).
  { intros key. rewrite store_pending_input_settings.
    unfold exec, set_pending, save_user_setting, modify. cbn [snd user_settings with_settings].
    now rewrite Hs0. }
  split.
  - intros Hfield. unfold setting_of. rewrite try_finally_settings.
    assert (Hrun : on_pending_input uid (Some field) (strip raw)
                   = store_pending_input uid field (strip raw)).
    { unfold on_pending_input, pending_is.
      destruct Hfield as [->|[->|[-> Hd]]].
      - reflexivity.
      - reflexivity.
      - rewrite Hd. reflexivity. }
    rewrite Hrun.
    assert (Hset : user_settings (db (snd (store_pending_input uid field (strip raw) st0)))
                   = stored) by apply Hstored.
    assert (Hpk : field <> pending_key).
    { destruct Hfield as [->|[->|[-> _]]]; discriminate. }
    split; [exact Hset|]. rewrite Hset. subst stored.
    unfold exec, set_pending, save_user_setting, modify.
    cbn [snd user_settings with_settings]. split; [|split].
    + rewrite select_after_insert_other by congruence. apply select_after_insert.
    + apply select_after_insert.
    + intros uid' key Hf Hp. now rewrite !select_after_insert_other.
  - intros -> Hd.
    assert (Hrun : on_pending_input uid (Some (u "salary")) (strip raw) = ret NoBody).
    { unfold on_pending_input, pending_is. rewrite Hd. reflexivity. }
    rewrite Hrun.
    change (delete_on_exit (Some (u "salary")) (Some (chat_id msg, message_id msg)))
      with (safe_delete (chat_id msg) (message_id msg)).
    unfold try_finally, safe_delete, try_except, bind, ret.
    rewrite perform_run.
    assert (Ho : outcome (DeleteMessage (chat_id msg) (message_id msg)) st0
                 = outcome (DeleteMessage (chat_id msg) (message_id msg)) st)
      by reflexivity.
    assert (Ht0 : trace st0 = trace st) by reflexivity.
    destruct (outcome (DeleteMessage (chat_id msg) (message_id msg)) st0) eqn:Eo;
      cbn [fst snd]; rewrite after_db, after_trace, Hs0, Ht0, Eo, <- Ho;
      repeat split; reflexivity.
Qed.

Lemma typed_text_is_stored_witness :
  let st := Sample.start Sample.all_well (Sample.store_awaiting 7 (u "region")) in
  let out := Sample.webhook Sample.all_well (Sample.text_update 7 (u " Москва ")) st in
  setting_of 7 (u "region") (db (snd out)) = Some (u "Москва") /\
  setting_of 7 pending_key (db (snd out)) = None.
Proof.
  intros st out.
  destruct (typed_text_is_stored Sample.lib (Sample.env Sample.all_well)
              (Sample.some_message 9 7 (Some (u " Москва "))) (u " Москва ") (u "region") st)
    as [Hstore _].
  - reflexivity.
  - discriminate.
  - vm_compute. reflexivity.
  - reflexivity.
  - destruct Hstore as (_ & Hregion & Hpending & _); [now left|].
    split; [|exact Hpending].
    change (u "Москва") with (strip (u " Москва ")). exact Hregion.
Defined.

(** ** The summary of the filters *)

Lemma markup_free_app a b : markup_free (a ++ b) = markup_free a && markup_free b.
Proof. apply forallb_app. Qed.

Lemma html_escape_markup_free s : markup_free (html_escape s) = true.
Proof.
  unfold html_escape. induction s as [|c r IH]; [reflexivity|].
  cbn [flat_map]. rewrite markup_free_app, IH, andb_true_r.
  destruct (N.eqb_spec c 38); [reflexivity|].
  destruct (N.eqb_spec c 60); [reflexivity|].
  destruct (N.eqb_spec c 62); [reflexivity|].
  destruct (N.eqb_spec c 34); [reflexivity|].
  destruct (N.eqb_spec c 39); [reflexivity|].
  unfold markup_free, is_markup_char. cbn [forallb].
  repeat match goal with
         | |- context [(c =? ?k)%N] => destruct (N.eqb_spec c k); [congruence|]
         end.
  reflexivity.
Qed.

Lemma esc_setting_markup_free x : markup_free (esc_setting x) = true.
Proof.
  destruct x as [[|c r]|]; try reflexivity. apply html_escape_markup_free.
Qed.

Lemma no_lt_no_tag s : (forall c, In c s -> c <> lt_sign) -> has_tag s = false.
Proof.
  induction s as [|c r IH]; intros Hs; [reflexivity|].
  cbn [has_tag]. rewrite IH by (intros x Hx; apply Hs; now right).
  assert (Hc : (c =? lt_sign)%N = false) by (apply N.eqb_neq, Hs; now left).
  now rewrite Hc.
Qed.

Section Summary.
Context `{PyLib} `{Env}.

Lemma bind_get_setting {B} uid key (k : option pystr -> M St B) st :
  (x <- on_db (get_user_setting uid key) ;; k x) st = k (setting_of uid key (db st)) st.
Proof.
  unfold bind, on_db, get_user_setting, bind, get_state, ret, setting_of.
  cbn [db]. now destruct st.
Qed.

Lemma build_filters_summary_run uid st s :
  fst (build_filters_summary uid st) = inr s ->
  exists region,
    markup_free region = true /\
    s = u "<b>📋 Ваши действующие фильтры</b>" ++ [newline]
        ++ u "• Регион: " ++ region ++ [newline]
        ++ u "• ЗП ≥ " ++ esc_setting (setting_of uid (u "salary") (db st)) ++ [newline]
        ++ u "• График: " ++ esc_setting (setting_of uid (u "schedule") (db st))
        ++ [newline]
        ++ u "• Формат работы: "
        ++ esc_setting (setting_of uid (u "work_format") (db st)) ++ [newline]
        ++ u "• Тип занятости: "
        ++ esc_setting (setting_of uid (u "employment_type") (db st)) ++ [newline]
        ++ u "• Ключевое слово: " ++ esc_setting (setting_of uid keyword_key (db st)).
Proof.
  unfold build_filters_summary. rewrite bind_get_setting.
  unfold bind at 1. rewrite perform_run.
  set (rq := HhAreaName _).
  destruct (outcome rq st) as [e|r]; [discriminate|].
  destruct r as [|mid|j|[|c t]|mk];
    try (unfold bind at 1, raise at 1; discriminate);
    [ set (region := u "—")
    | set (region := if truthy j then html_escape (py_str j) else u "—");
      replace (ret (if truthy j then html_escape (py_str j) else u "—"))
        with (@ret St _ region) by reflexivity
    | set (region := u "—")
    | set (region := html_escape (c :: t)) ];
    (unfold bind at 1, ret at 1;
     rewrite !bind_get_setting; unfold ret; cbn [fst]; rewrite !after_db;
     intros [= <-]; exists region; split; [|reflexivity]).
  - reflexivity.
  - subst region. destruct (truthy j); [apply html_escape_markup_free|reflexivity].
  - reflexivity.
  - apply html_escape_markup_free.
Qed.
End Summary.

(** X17. The summary of the filters cannot be broken by what the user
    has typed.  Whatever the settings hold and whatever name the job
    board gives the region, the text consists of the fixed heading
    [<b>...</b>] followed by lines in which no [<], [>] or quote occurs:
    every value passes through [html.escape] on its way in. *)
Theorem filters_summary_is_escaped :
  forall (L : PyLib) (E : Env) (uid : Z) (st : St) (s : pystr),
    fst (build_filters_summary uid st) = inr s ->
    exists rest,
      s = u "<b>📋 Ваши действующие фильтры</b>" ++ rest /\
      markup_free rest = true /\
      has_tag rest = false.
Proof.
  intros L E uid st s Hs.
  destruct (build_filters_summary_run uid st s Hs) as (region & Hfree & ->).
  eexists. split; [reflexivity|].
  assert (Hrest : markup_free
                    ([newline] ++ u "• Регион: " ++ region ++ [newline]
                     ++ u "• ЗП ≥ " ++ esc_setting (setting_of uid (u "salary") (db st))
                     ++ [newline]
                     ++ u "• График: "
                     ++ esc_setting (setting_of uid (u "schedule") (db st)) ++ [newline]
                     ++ u "• Формат работы: "
                     ++ esc_setting (setting_of uid (u "work_format") (db st))
                     ++ [newline]
                     ++ u "• Тип занятости: "
                     ++ esc_setting (setting_of uid (u "employment_type") (db st))
                     ++ [newline]
                     ++ u "• Ключевое слово: "
                     ++ esc_setting (setting_of uid keyword_key (db st))) = true).
  { rewrite !markup_free_app, Hfree, !esc_setting_markup_free. reflexivity. }
  split; [exact Hrest|].
  apply no_lt_no_tag. unfold markup_free in Hrest.
  rewrite forallb_forall in Hrest. intros c Hc Hlt. subst c.
  apply Hrest in Hc. discriminate.
Qed.

Lemma filters_summary_is_escaped_witness :
  let st := Sample.start Sample.all_well
              (exec (save_user_setting 7 (u "keyword") (u "<b>python</b>")) empty_store) in
  exists s rest,
    fst (@build_filters_summary Sample.lib (Sample.env Sample.all_well) 7 st) = inr s /\
    s = u "<b>📋 Ваши действующие фильтры</b>" ++ rest /\
    markup_free rest = true.
Proof.
  intros st.
  destruct (fst (@build_filters_summary Sample.lib (Sample.env Sample.all_well) 7 st))
    as [e|s] eqn:Hs; [vm_compute in Hs; discriminate|].
  destruct (filters_summary_is_escaped Sample.lib (Sample.env Sample.all_well) 7 st s Hs)
    as (rest & Hrest & Hfree & _).
  exists s, rest. auto.
Defined.

(** ** How many requests a handler makes *)

Section BoundRules.
Context `{PyLib} `{Env}.
Context {X : Type} (select : event -> list X).

Lemma bounded_weaken {A} n n' (m : M St A) :
  bounded select n m -> (n <= n')%nat -> bounded select n' m.
Proof.
  intros Hm Hn st. destruct (Hm st) as (evs & Ht & Hl). exists evs. split; [exact Ht|lia].
Qed.

Lemma bounded_silent {A} (m : M St A) n :
  (forall st, trace (snd (m st)) = trace st) -> bounded select n m.
Proof. intros Hm st. exists []. rewrite Hm, app_nil_r. split; [reflexivity|simpl; lia]. Qed.

Lemma bounded_ret {A} (a : A) n : bounded select n (ret a).
Proof. now apply bounded_silent. Qed.

Lemma bounded_raise {A} e n : bounded select n (@raise St A e).
Proof. now apply bounded_silent. Qed.

Lemma bounded_lift {A} (r : result A) n : bounded select n (lift_result r).
Proof. now apply bounded_silent. Qed.

Lemma bounded_get_app n : bounded select n get_app.
Proof. now apply bounded_silent. Qed.

Lemma bounded_set_app a n : bounded select n (set_app a).
Proof. now apply bounded_silent. Qed.

Lemma bounded_on_db {A} (m : M Store A) n : bounded select n (on_db m).
Proof. apply bounded_silent. intros st. unfold on_db. now destruct (m (db st)). Qed.

Lemma bounded_perform rq n :
  (forall r, List.length (select (rq, r)) <= n)%nat -> bounded select n (perform rq).
Proof.
  intros Hrq st. rewrite perform_run. exists [(rq, outcome rq st)].
  split; [reflexivity|]. cbn [flat_map]. rewrite app_nil_r. apply Hrq.
Qed.

Lemma bounded_log id e n :
  (List.length (select (LogWarning id e, inr RNone)) <= n)%nat ->
  bounded select n (log_warning id e).
Proof.
  intros Hn st. exists [(LogWarning id e, inr RNone)]. split; [reflexivity|].
  cbn [flat_map]. now rewrite app_nil_r.
Qed.

Lemma bounded_bind {A B} n1 n2 (m : M St A) (k : A -> M St B) :
  bounded select n1 m -> (forall a, bounded select n2 (k a)) ->
  bounded select (n1 + n2) (bind m k).
Proof.
  intros Hm Hk st. unfold bind. destruct (Hm st) as (e1 & Ht1 & H1).
  destruct (m st) as [[e|a] st1]; cbn [snd] in *.
  - exists e1. split; [exact Ht1|lia].
  - destruct (Hk a st1) as (e2 & Ht2 & H2). exists (e1 ++ e2).
    rewrite Ht2, Ht1, app_assoc, flat_map_app, length_app.
    split; [reflexivity|now apply Nat.add_le_mono].
Qed.

Lemma bounded_try_except {A} n1 n2 (m : M St A) (h : exn -> M St A) :
  bounded select n1 m -> (forall e, bounded select n2 (h e)) ->
  bounded select (n1 + n2) (try_except m h).
Proof.
  intros Hm Hh st. unfold try_except. destruct (Hm st) as (e1 & Ht1 & H1).
  destruct (m st) as [[e|a] st1]; cbn [snd] in *.
  - destruct (Hh e st1) as (e2 & Ht2 & H2). exists (e1 ++ e2).
    rewrite Ht2, Ht1, app_assoc, flat_map_app, length_app.
    split; [reflexivity|now apply Nat.add_le_mono].
  - exists e1. split; [exact Ht1|lia].
Qed.

Lemma bounded_try_finally {A} n1 n2 (m : M St A) (f : M St unit) :
  bounded select n1 m -> bounded select n2 f ->
  bounded select (n1 + n2) (try_finally m f).
Proof.
  intros Hm Hf st. unfold try_finally. destruct (Hm st) as (e1 & Ht1 & H1).
  destruct (m st) as [r st1]. cbn [snd] in *.
  destruct (Hf st1) as (e2 & Ht2 & H2).
  exists (e1 ++ e2).
  destruct (f st1) as [[e|[]] st2]; cbn [snd] in *;
    rewrite Ht2, Ht1, app_assoc, flat_map_app, length_app;
    (split; [reflexivity|now apply Nat.add_le_mono]).
Qed.

(** Steps that count for nothing do not change the bound. *)
Lemma bounded_bind_silent {A B} n (m : M St A) (k : A -> M St B) :
  bounded select 0 m -> (forall a, bounded select n (k a)) ->
  bounded select n (bind m k).
Proof. intros Hm Hk. change n with (0 + n)%nat. now apply bounded_bind. Qed.

Lemma bounded_bind_last {A B} n (m : M St A) (k : A -> M St B) :
  bounded select n m -> (forall a, bounded select 0 (k a)) ->
  bounded select n (bind m k).
Proof.
  intros Hm Hk. apply bounded_weaken with (n := (n + 0)%nat); [|lia].
  now apply bounded_bind.
Qed.
End BoundRules.

(** Steps that make no counted request. *)
Ltac silent_step :=
  match goal with
  | |- bounded _ _ (bind _ _) => apply bounded_bind_silent; [|intros ?]
  | |- bounded _ _ (ret _) => apply bounded_ret
  | |- bounded _ _ (raise _) => apply bounded_raise
  | |- bounded _ _ (lift_result _) => apply bounded_lift
  | |- bounded _ _ get_app => apply bounded_get_app
  | |- bounded _ _ (set_app _) => apply bounded_set_app
  | |- bounded _ _ (on_db _) => apply bounded_on_db
  | |- bounded _ _ (perform _) =>
      apply bounded_perform; intros ?; cbn; lia
  | |- bounded _ _ (log_warning _ _) => apply bounded_log; cbn; lia
  | |- bounded _ _ (try_except _ _) =>
      apply (bounded_try_except _ 0 0); [|intros ?]
  | |- bounded _ _ (try_finally _ _) => apply (bounded_try_finally _ 0 0)
  | |- bounded _ _ (if ?b then _ else _) => destruct b
  | |- bounded _ _ (match ?x with _ => _ end) => destruct x
  end.

Section StartAutoBounds.
Context `{PyLib} `{Env}.

Lemma silent_answer {X} (select : event -> list X) id note alert :
  (forall r, select (AnswerCallbackQuery id note alert, r) = []) ->
  bounded select 0 (answer_callback_query id note alert).
Proof.
  intros Hs. unfold answer_callback_query.
  apply bounded_bind_silent; [|intros; apply bounded_ret].
  apply bounded_perform. intros r. now rewrite Hs.
Qed.

Lemma silent_resume_summary {X} (select : event -> list X) uid :
  (forall tok rid r, select (HhGetResumeText tok rid, r) = []) ->
  bounded select 0 (get_resume_summary uid).
Proof.
  intros Hs. unfold get_resume_summary.
  apply bounded_bind_silent; [apply bounded_on_db|intros rid].
  destruct rid as [[|c r]|]; try apply bounded_ret.
  apply bounded_bind_silent; [apply bounded_on_db|intros token].
  apply bounded_bind_silent.
  - apply bounded_perform. intros r0. now rewrite Hs.
  - intros r0. destruct r0; try apply bounded_raise. apply bounded_ret.
Qed.

Lemma loop_generations uid resume vs :
  forall sent,
    bounded select_generation (List.length vs) (auto_apply_loop uid resume vs sent).
Proof.
  induction vs as [|v rest IH]; intros sent; cbn [auto_apply_loop List.length].
  - apply bounded_ret.
  - apply bounded_bind_silent; [apply bounded_lift|intros snippet].
    apply bounded_bind_silent; [destruct (truthy snippet); repeat silent_step|].
    intros vacancy. change (S (List.length rest)) with (1 + List.length rest)%nat.
    apply bounded_bind.
    + unfold generate_cover_letter. apply bounded_bind_last; [|intros; apply bounded_lift].
      apply bounded_perform. intros r. cbn. lia.
    + intros cover. apply bounded_bind_silent; [|intros; apply IH].
      unfold send_apply. repeat silent_step.
Qed.

Lemma loop_submissions uid resume vs :
  forall sent,
    bounded select_submission (List.length vs) (auto_apply_loop uid resume vs sent).
Proof.
  induction vs as [|v rest IH]; intros sent; cbn [auto_apply_loop List.length].
  - apply bounded_ret.
  - apply bounded_bind_silent; [apply bounded_lift|intros snippet].
    apply bounded_bind_silent; [destruct (truthy snippet); repeat silent_step|].
    intros vacancy.
    apply bounded_bind_silent.
    { unfold generate_cover_letter. repeat silent_step. }
    intros cover. change (S (List.length rest)) with (1 + List.length rest)%nat.
    apply bounded_bind; [|intros; apply IH].
    apply (bounded_try_except _ 1 0); [|intros e; repeat silent_step].
    apply bounded_bind_silent; [apply bounded_lift|intros id].
    apply bounded_bind_last; [|intros; apply bounded_ret].
    unfold send_apply.
    apply bounded_bind_silent; [apply bounded_on_db|intros token].
    apply bounded_bind_silent; [apply bounded_on_db|intros rid].
    destruct rid as [[|c r]|]; try (apply bounded_raise).
    apply bounded_bind_last; [|intros; apply bounded_ret].
    apply bounded_perform. intros r0. cbn. lia.
Qed.

Lemma loop_reports uid resume vs :
  forall sent, bounded select_report 0 (auto_apply_loop uid resume vs sent).
Proof.
  induction vs as [|v rest IH]; intros sent; cbn [auto_apply_loop].
  - apply bounded_ret.
  - apply bounded_bind_silent; [apply bounded_lift|intros snippet].
    apply bounded_bind_silent; [destruct (truthy snippet); repeat silent_step|].
    intros vacancy.
    apply bounded_bind_silent; [unfold generate_cover_letter; repeat silent_step|].
    intros cover. apply bounded_bind_silent; [|intros; apply IH].
    unfold send_apply. repeat silent_step.
Qed.

Lemma py_slice_to_length n x l : py_slice_to n x = inr l -> (List.length l <= n)%nat.
Proof.
  destruct x; try discriminate; cbn [py_slice_to]; intros [= <-].
  - rewrite length_map, length_firstn. lia.
  - rewrite length_firstn. lia.
Qed.

Lemma bounded_lift_then {A B X} (select : event -> list X) n (r : result A)
    (k : A -> M St B) :
  (forall a, r = inr a -> bounded select n (k a)) ->
  bounded select n (bind (lift_result r) k).
Proof.
  intros Hk. destruct r as [e|a].
  - apply bounded_silent. reflexivity.
  - intros st. unfold bind, lift_result. now apply Hk.
Qed.

Lemma on_start_auto_bounded {X} (select : event -> list X) n call uid :
  (forall id note alert r, select (AnswerCallbackQuery id note alert, r) = []) ->
  (forall u0 r, select (FetchVacancies u0, r) = []) ->
  (forall tok rid r, select (HhGetResumeText tok rid, r) = []) ->
  (forall resume batch, (List.length batch <= 20)%nat ->
      bounded select n (auto_apply_batch uid resume batch)) ->
  bounded select n (on_start_auto call uid).
Proof.
  intros Ha Hf Hr Hbatch. unfold on_start_auto.
  apply bounded_bind_silent; [now apply silent_answer|intros _].
  apply bounded_bind_silent;
    [apply bounded_perform; intros r; now rewrite Hf|intros r].
  apply bounded_bind_silent; [now apply silent_resume_summary|intros resume].
  destruct r as [|mid|j|s|mk];
    try (apply bounded_bind_silent; [apply bounded_raise|intros; now apply Hbatch]).
  - apply bounded_silent. reflexivity.
  - apply bounded_silent. reflexivity.
  - apply bounded_lift_then. intros batch Hb. apply Hbatch.
    now apply py_slice_to_length in Hb.
  - apply bounded_silent. reflexivity.
  - apply bounded_silent. reflexivity.
Qed.
End StartAutoBounds.

Section StartAuto.
Context `{PyLib} `{Env}.

Lemma ensure_user_run uid st :
  on_db (ensure_user uid) st
  = (inr tt, {| db := exec (ensure_user uid) (db st); app := app st;
                world := world st; trace := trace st |}).
Proof. reflexivity. Qed.

Lemma on_callback_start_auto call :
  cq_data call = u "start_auto" ->
  on_callback call
  = (on_db (ensure_user (cq_from call)) ;;
     (r <- on_start_auto call (cq_from call) ;; ret (Some r))).
Proof. intros Hdata. unfold on_callback. cbv zeta. rewrite Hdata. reflexivity. Qed.

Lemma batch_generations uid resume batch :
  (List.length batch <= 20)%nat ->
  bounded select_generation 20 (auto_apply_batch uid resume batch).
Proof.
  intros Hb. unfold auto_apply_batch.
  apply bounded_bind_last.
  - eapply bounded_weaken; [apply loop_generations|exact Hb].
  - intros sent. repeat silent_step.
Qed.

Lemma batch_submissions uid resume batch :
  (List.length batch <= 20)%nat ->
  bounded select_submission 20 (auto_apply_batch uid resume batch).
Proof.
  intros Hb. unfold auto_apply_batch.
  apply bounded_bind_last.
  - eapply bounded_weaken; [apply loop_submissions|exact Hb].
  - intros sent. repeat silent_step.
Qed.

Lemma batch_reports uid resume batch :
  bounded select_report 1 (auto_apply_batch uid resume batch).
Proof.
  unfold auto_apply_batch.
  apply bounded_bind_silent; [apply loop_reports|intros sent].
  apply bounded_bind_last; [|intros; apply bounded_ret].
  apply bounded_perform. intros r. cbn. lia.
Qed.
End StartAuto.

(** X18. One press of the start button costs at most twenty letters.
    Whatever the services return - however many postings the fetch
    yields, readable or not - the handling of [start_auto] asks for at
    most 20 cover letters, submits at most 20 applications and sends at
    most one report, and it writes nothing to the store beyond the
    user's row in [users]. *)
Theorem start_auto_at_most_twenty :
  forall (L : PyLib) (E : Env) (call : callback_query) (st : St),
    cq_data call = u "start_auto" ->
    let out := telegram_webhook BOT_TOKEN (CallbackUpdate call) st in
    exists evs,
      trace (snd out) = trace st ++ evs /\
      (List.length (generations evs) <= 20)%nat /\
      (List.length (submissions evs) <= 20)%nat /\
      (List.length (reports evs) <= 1)%nat /\
      db (snd out) = exec (ensure_user (cq_from call)) (db st).
Proof.
  intros L E call st Hdata out. subst out.
  destruct (telegram_webhook BOT_TOKEN (CallbackUpdate call) st) as [res stf] eqn:Hrun.
  rewrite webhook_callback, (on_callback_start_auto call Hdata) in Hrun.
  unfold bind at 1 in Hrun. rewrite ensure_user_run in Hrun.
  set (uid := cq_from call) in *.
  set (st0 := {| db := exec (ensure_user uid) (db st); app := app st;
                 world := world st; trace := trace st |}) in *.
  assert (Hg : bounded select_generation 20 (on_start_auto call uid))
    by (apply on_start_auto_bounded; try reflexivity; intros; now apply batch_generations).
  assert (Hs : bounded select_submission 20 (on_start_auto call uid))
    by (apply on_start_auto_bounded; try reflexivity; intros; now apply batch_submissions).
  assert (Hr : bounded select_report 1 (on_start_auto call uid))
    by (apply on_start_auto_bounded; try reflexivity; intros; apply batch_reports).
  assert (Hk : keeps (fun d => d) (on_start_auto call uid))
    by apply keeps_on_start_auto.
  specialize (Hk st0). cbn beta in Hk.
  destruct (Hg st0) as (evs & Ht & Hgl).
  destruct (Hs st0) as (evs' & Ht' & Hsl).
  destruct (Hr st0) as (evs'' & Ht'' & Hrl).
  assert (evs' = evs) by (rewrite Ht in Ht'; now apply app_inv_head in Ht').
  assert (evs'' = evs) by (rewrite Ht in Ht''; now apply app_inv_head in Ht'').
  subst evs' evs''.
  exists evs. unfold bind in Hrun.
  destruct (on_start_auto call uid st0) as [[e|r] st1]; cbn [snd] in *;
    unfold ret in Hrun; injection Hrun as <- <-; cbn [fst snd];
    rewrite Ht, Hk; auto.
Qed.

Lemma start_auto_at_most_twenty_witness :
  let E := Sample.env Sample.twenty_three_refused in
  let st := Sample.start Sample.twenty_three_refused Sample.store_with_resume in
  let out := @telegram_webhook Sample.lib E (@BOT_TOKEN E)
               (CallbackUpdate (Sample.press 7 (u "start_auto"))) st in
  exists evs,
    trace (snd out) = trace st ++ evs /\
    (List.length (generations evs) <= 20)%nat /\
    (List.length (reports evs) <= 1)%nat.
Proof.
  intros E st out.
  destruct (start_auto_at_most_twenty Sample.lib E (Sample.press 7 (u "start_auto")) st
              eq_refl) as (evs & Ht & Hg & _ & Hr & _).
  exists evs. split; [exact Ht|]. split; assumption.
Defined.

(** ** The settings message, when it has been lost *)

Lemma settings_msg_after_update d uid mid :
  settings_msg_of
    (with_users d
       (map (fun r => if u_chat r =? uid
                      then {| u_chat := uid; u_settings_msg := Some mid |}
                      else r) (users d)) true) uid
  = if registered d uid then Some mid else None.
Proof.
  unfold settings_msg_of, registered. cbn [users with_users].
  rewrite find_map_update, Z.eqb_refl.
  destruct (find (fun r => u_chat r =? uid) (users d)) as [r|] eqn:Hf.
  - apply find_some in Hf as [Hin Hr].
    assert (He : existsb (fun r => u_chat r =? uid) (users d) = true)
      by (apply existsb_exists; eauto).
    now rewrite He.
  - assert (He : existsb (fun r => u_chat r =? uid) (users d) = false).
    { destruct (existsb _ _) eqn:He; [|reflexivity].
      apply existsb_exists in He as (r & Hin & Hr).
      now rewrite (find_none _ _ Hf r Hin) in Hr. }
    now rewrite He.
Qed.

Section LostMessage.
Context `{PyLib} `{Env}.

Lemma send_and_store_run uid body mk st new :
  outcome (SendMessage uid body mk None) st = inr (RMessage new) ->
  (r <- perform (SendMessage uid body mk None) ;;
   new_id <- sent_id r ;;
   set_settings_msg_id uid new_id) st
  = (inr tt,
     {| db := with_users (db st)
                (map (fun r => if u_chat r =? uid
                               then {| u_chat := uid; u_settings_msg := Some new |}
                               else r) (users (db st))) true;
        app := app st;
        world := world (after (SendMessage uid body mk None) st);
        trace := trace st ++ [(SendMessage uid body mk None, inr (RMessage new))] |}).
Proof.
  intros Hout. unfold bind at 1. rewrite perform_run, Hout.
  unfold sent_id, bind, ret. rewrite set_settings_msg_id_run.
  unfold after. cbn [db app world trace]. unfold outcome in Hout. now rewrite Hout.
Qed.
End LostMessage.

(** X19. A settings message that is gone is replaced.  When the edit of
    the stored message is refused with "message to edit not found" and
    the chat platform accepts a new message, [safe_edit_text_by_id]
    returns normally after exactly these two requests; the new message
    carries the same text and keyboard but no parse mode, whatever
    [html] was; and the id of the new message is what
    [get_settings_msg_id] returns from then on, provided the user has a
    row in [users]. *)
Theorem lost_settings_message_is_replaced :
  forall (L : PyLib) (E : Env) (uid old new : Z) (body err : pystr)
         (mk : option markup) (html : bool) (st : St),
    let edit := EditMessageText body uid old mk (html_mode html) in
    let send := SendMessage uid body mk None in
    outcome edit st = inl (TelegramBadRequest err) ->
    contains (lower err) (u "message to edit not found") = true ->
    outcome send (after edit st) = inr (RMessage new) ->
    let out := safe_edit_text_by_id uid (Some old) body mk html st in
    fst out = inr tt /\
    trace (snd out)
    = trace st ++ [(edit, inl (TelegramBadRequest err)); (send, inr (RMessage new))] /\
    fst (get_settings_msg_id uid (snd out))
    = inr (if registered (db st) uid then Some new else None).
Proof.
  intros L E uid old new body err mk html st edit send Hedit Hlost Hsend out.
  assert (Hout : out
    = (inr tt,
       {| db := with_users (db st)
                  (map (fun r => if u_chat r =? uid
                                 then {| u_chat := uid; u_settings_msg := Some new |}
                                 else r) (users (db st))) true;
          app := app st;
          world := world (after send (after edit st));
          trace := (trace st ++ [(edit, inl (TelegramBadRequest err))])
                   ++ [(send, inr (RMessage new))] |})).
  { subst out. unfold safe_edit_text_by_id, try_except. unfold bind at 1.
    fold edit. rewrite perform_run, Hedit, Hlost.
    fold send. rewrite (send_and_store_run uid body mk (after edit st) new Hsend).
    rewrite after_trace, Hedit. reflexivity. }
  rewrite Hout. cbn [fst snd trace]. split; [reflexivity|].
  split; [now rewrite <- app_assoc|].
  rewrite get_settings_msg_id_run. cbn [db users_has_msg_col with_users fst].
  now rewrite settings_msg_after_update.
Qed.

Lemma lost_settings_message_is_replaced_witness :
  let E := Sample.env message_lost in
  let st := Sample.start message_lost (exec (ensure_user 7) empty_store) in
  let out := @safe_edit_text_by_id Sample.lib E 7 (Some 55) (u "Ваши фильтры:") None true st in
  fst out = inr tt /\
  fst (@get_settings_msg_id Sample.lib E 7 (snd out)) = inr (Some 1001).
Proof.
  intros E st out.
  destruct (lost_settings_message_is_replaced Sample.lib E 7 55 1001 (u "Ваши фильтры:")
              (u "Bad Request: message to edit not found") None true st)
    as (Hr & _ & Hid).
  - reflexivity.
  - vm_compute. reflexivity.
  - reflexivity.
  - split; [exact Hr|exact Hid].
Defined.

(** ** The search of [run_jobs] *)

Section Search.
Context `{PyLib} `{Env}.

Lemma bind_get_token {B} uid (k : option pystr -> M St B) st :
  (x <- on_db (get_user_token uid) ;; k x) st = k (token_of (db st) uid) st.
Proof.
  unfold bind, on_db, get_user_token, bind, get_state, ret, token_of.
  cbn [db]. now destruct st.
Qed.

Lemma bind_next_page {B} uid (k : Z -> M St B) st n :
  jobs_page_counter (db st) uid = inr n ->
  (p <- on_db (next_jobs_page uid) ;; k p) st
  = k n {| db := exec (next_jobs_page uid) (db st); app := app st;
           world := world st; trace := trace st |}.
Proof.
  intros Hn. pose proof (next_jobs_page_step (db st) uid n Hn) as [Hev _].
  unfold eval in Hev. unfold exec, bind, on_db.
  destruct (next_jobs_page uid (db st)) as [res d1]. cbn [fst snd] in *.
  now subst res.
Qed.

Lemma next_jobs_page_exec uid d n :
  jobs_page_counter d uid = inr n ->
  exec (next_jobs_page uid) d
  = with_settings d
      (insert_or_replace_setting uid jobs_page_key
         (Some (str_of_int (if n <? 19 then n + 1 else 0))) (user_settings d)).
Proof.
  unfold jobs_page_counter. intros Hn.
  unfold exec, next_jobs_page, bind, get_user_setting, get_state, ret,
    lift_result, save_user_setting, modify; simpl.
  rewrite Hn; simpl. reflexivity.
Qed.

Lemma next_page_keeps_keyword uid d n :
  jobs_page_counter d uid = inr n ->
  setting_of uid keyword_key (exec (next_jobs_page uid) d) = setting_of uid keyword_key d.
Proof.
  intros Hn. rewrite (next_jobs_page_exec uid d n Hn).
  unfold setting_of. cbn [user_settings with_settings].
  apply select_after_insert_other. intros [=].
Qed.

(** What follows the search request in [run_jobs]. *)
Lemma run_jobs_page uid st n :
  jobs_page_counter (db st) uid = inr n ->
  exists k : reply -> M St unit,
    (forall r, keeps (setting_of uid jobs_page_key) (k r)) /\
    (forall r, bounded no_selection 0 (k r)) /\
    run_jobs uid st
    = (r <- perform (HhGetVacancies (client_token (token_of (db st) uid))
                       (or_empty (setting_of uid keyword_key (db st))) 20 n) ;;
       k r)
        {| db := exec (next_jobs_page uid) (db st); app := app st;
           world := world st; trace := trace st |}.
Proof.
  intros Hn.
  eexists (fun r =>
    raw_vacs <- match r with
                | RJson body => lift_result (py_get body (u "items") (JList []))
                | _ => raise AttributeError
                end ;;
    if negb (truthy raw_vacs) then
      perform (SendMessage uid (u "По вашим фильтрам вакансий не найдено 😕") None None) ;;
      ret tt
    else
      items <- lift_result (py_iter raw_vacs) ;;
      vacancies <- lift_result (normalize_all items) ;;
      on_db (upsert_pending_jobs uid vacancies) ;;
      update_app (fun a => set_jobs_cache a uid vacancies) ;;
      by_str <- lift_result (index_by_str vacancies []) ;;
      by_id <- lift_result (index_by_int vacancies by_str) ;;
      update_app (fun a => set_jobs_by_id a uid by_id) ;;
      update_app (fun a => set_cursor a uid jobs_name 0) ;;
      first <- lift_result (list_index vacancies 0) ;;
      card <- lift_result (format_vacancy_of first) ;;
      first_id <- lift_result (py_item first (u "id")) ;;
      send_card uid (snd card) (fst card) (build_job_kb first_id)).
  split; [|split].
  - intros r.
    pose proof (setting_blind_pending_jobs uid jobs_page_key) as Hp.
    assert (Hu : forall d t c, setting_of uid jobs_page_key (with_users d t c)
                               = setting_of uid jobs_page_key d) by reflexivity.
    assert (Hf : forall d t, setting_of uid jobs_page_key (with_favorites d t)
                             = setting_of uid jobs_page_key d) by reflexivity.
    pose proof (keeps_update_app (setting_of uid jobs_page_key)) as Ha.
    pose proof (keeps_send_card (setting_of uid jobs_page_key)) as Hc.
    keeps_auto.
  - intros r. unfold update_app, send_card. repeat silent_step.
  - unfold run_jobs. rewrite bind_get_token, (bind_next_page uid _ st n Hn).
    rewrite bind_get_setting. cbn [db].
    now rewrite (next_page_keeps_keyword uid (db st) n Hn).
Qed.
End Search.

(** X20. Every call of [run_jobs] uses up a page.  With a readable page
    counter [n], the first request of [run_jobs] is the search for page
    [n], twenty per page, with the stored keyword (or the empty text)
    and the user's token; and whatever the search and the steps after it
    do (the search may fail, find nothing, or return items that cannot
    be stored), the counter read afterwards is [n + 1], or [0] after
    page 19.  With a counter that is no number, [run_jobs] raises before
    any request and changes nothing. *)
Theorem run_jobs_consumes_a_page :
  forall (L : PyLib) (E : Env) (uid : Z) (st : St),
    let out := run_jobs uid st in
    match jobs_page_counter (db st) uid with
    | inr n =>
        let search := HhGetVacancies (client_token (token_of (db st) uid))
                        (or_empty (setting_of uid keyword_key (db st))) 20 n in
        (exists rest,
            trace (snd out) = trace st ++ (search, outcome search st) :: rest) /\
        jobs_page_counter (db (snd out)) uid = inr (if n <? 19 then n + 1 else 0)
    | inl e => out = (inl e, st)
    end.
Proof.
  intros L E uid st out.
  destruct (jobs_page_counter (db st) uid) as [e|n] eqn:Hn.
  - subst out. unfold run_jobs. rewrite bind_get_token.
    unfold bind at 1, on_db, next_jobs_page, bind at 1, get_user_setting, bind at 1,
      get_state, ret. cbn [fst snd].
    unfold jobs_page_counter in Hn. unfold bind at 1, lift_result. rewrite Hn.
    now destruct st.
  - intros search.
    destruct (run_jobs_page uid st n Hn) as (k & Hk & Hb & Heq).
    pose proof (next_jobs_page_step (db st) uid n Hn) as [_ Hnext].
    set (st1 := {| db := exec (next_jobs_page uid) (db st); app := app st;
                   world := world st; trace := trace st |}) in *.
    subst out. rewrite Heq. clear Heq. fold search.
    destruct ((r <- perform search ;; k r) st1) as [res stf] eqn:Hrun.
    unfold bind at 1 in Hrun.
    rewrite perform_run in Hrun.
    change (outcome search st1) with (outcome search st) in Hrun.
    assert (Hafter : trace (after search st1) = trace st ++ [(search, outcome search st)])
      by reflexivity.
    destruct (outcome search st) as [e|r] eqn:Hout.
    + cbv beta iota in Hrun. injection Hrun as <- <-. cbn [snd].
      rewrite Hafter, after_db.
      split; [now exists []|exact Hnext].
    + destruct (Hb r (after search st1)) as (evs & Ht & _).
      pose proof (Hk r (after search st1)) as Hdb.
      cbv beta iota in Hrun. rewrite Hrun in Ht, Hdb. cbn [snd] in *.
      split.
      * exists evs. rewrite Ht, Hafter. now rewrite <- app_assoc.
      * unfold jobs_page_counter in *. unfold setting_of in Hdb.
        rewrite Hdb, after_db. exact Hnext.
Qed.

(** ** Buttons that ask for a value or store one *)

(** Decide the tests of the dispatch chain on data that is known up to
    its tail. *)
Ltac decide_dispatch :=
  repeat match goal with
         | |- context [pystr_eqb ?a ?b] =>
             replace (pystr_eqb a b) with false
               by (symmetry; apply pystr_eqb_neq; vm_compute; discriminate)
         | |- context [startswith ?a ?b] =>
             replace (startswith a b) with false by (vm_compute; reflexivity)
         end.

Section Choices.
Context `{PyLib} `{Env}.

Lemma on_callback_filter call field :
  In field [u "region"; u "salary"; u "keyword"] ->
  cq_data call = u "filter_" ++ field ->
  exists prompt, forall st,
    on_callback call st
    = (on_db (ensure_user (cq_from call)) ;;
       (r <- ask_for call (cq_from call) field prompt ;; ret (Some r))) st.
Proof.
  intros Hf Hdata. cbn [In] in Hf.
  destruct Hf as [<-|[<-|[<-|[]]]];
    [exists (u "Введите название региона:")
    |exists (u "Введите минимальную зарплату (число):")
    |exists (u "Введите ключевое слово:")];
    intros st;
    unfold on_callback; cbv zeta; rewrite Hdata;
    rewrite (startswith_app (u "filter_")); decide_dispatch;
    unfold on_filter; rewrite Hdata;
    match goal with
    | |- context [after_first_underscore ?d] =>
        let v := eval vm_compute in (after_first_underscore d) in
        change (after_first_underscore d) with v
    end; cbv iota;
    repeat match goal with
           | |- context [pystr_eqb ?a ?b] =>
               let v := eval vm_compute in (pystr_eqb a b) in
               change (pystr_eqb a b) with v
           end; cbv iota;
    unfold bind;
    (destruct (on_db (ensure_user (cq_from call)) st) as [[e|[]] st1];
     [reflexivity|]);
    match goal with
    | |- context [ask_for ?c ?i ?f ?p st1] =>
        destruct (ask_for c i f p st1) as [[e|r] st2]; reflexivity
    end.
Qed.

Lemma ask_for_run call uid field prompt st :
  let edit := EditMessageText prompt (chat_id (cq_message call))
                (message_id (cq_message call)) None None in
  let st1 := {| db := exec (set_pending uid (Some field)) (db st); app := app st;
                world := world st; trace := trace st |} in
  ask_for call uid field prompt st
  = (match forgiving (outcome edit st) with
     | inr _ => inr OkTrue
     | inl e => inl e
     end, after edit st1).
Proof.
  intros edit st1. unfold ask_for. unfold bind at 1.
  change (on_db (set_pending uid (Some field)) st) with (@inr exn unit tt, st1).
  cbv iota. unfold bind. rewrite safe_edit_text_run.
  change (html_mode false) with (@None pystr). fold edit.
  change (outcome edit st1) with (outcome edit st).
  now destruct (forgiving (outcome edit st)) as [e|[]].
Qed.
End Choices.

(** X21. Pressing a filter button of a typed field marks the field as
    awaited.  For [filter_region], [filter_salary] and [filter_keyword]
    the webhook stores the field as the user's pending marker before it
    edits the pressed message into the prompt, so the marker is set
    whatever becomes of that edit; the edit is the only request, it
    removes the keyboard, and the response is [{"ok": True}] unless the
    edit fails with something other than "message is not modified".
    No other setting of any user changes. *)
Theorem filter_press_awaits_field :
  forall (L : PyLib) (E : Env) (call : callback_query) (st : St) (field : pystr),
    In field [u "region"; u "salary"; u "keyword"] ->
    cq_data call = u "filter_" ++ field ->
    let uid := cq_from call in
    let out := telegram_webhook BOT_TOKEN (CallbackUpdate call) st in
    eval (get_pending uid) (db (snd out)) = inr (Some field) /\
    (forall uid' key, (uid', key) <> (uid, pending_key) ->
        setting_of uid' key (db (snd out)) = setting_of uid' key (db st)) /\
    exists prompt,
      let edit := EditMessageText prompt (chat_id (cq_message call))
                    (message_id (cq_message call)) None None in
      trace (snd out) = trace st ++ [(edit, outcome edit st)] /\
      fst out = match forgiving (outcome edit st) with
                | inr _ => inr OkTrue
                | inl e => inl e
                end.
Proof.
  intros L E call st field Hf Hdata uid out.
  destruct (on_callback_filter call field Hf Hdata) as (prompt & Hcb).
  set (edit := EditMessageText prompt (chat_id (cq_message call))
                 (message_id (cq_message call)) None None).
  set (st0 := {| db := exec (ensure_user uid) (db st); app := app st;
                 world := world st; trace := trace st |}).
  set (st1 := {| db := exec (set_pending uid (Some field)) (db st0); app := app st0;
                 world := world st0; trace := trace st0 |}).
  assert (Hout : out = (match forgiving (outcome edit st) with
                        | inr _ => inr OkTrue
                        | inl e => inl e
                        end, after edit st1)).
  { subst out. rewrite webhook_callback, Hcb. fold uid. unfold bind at 1.
    rewrite ensure_user_run. fold st0. cbv iota. unfold bind at 1.
    rewrite (ask_for_run call uid field prompt st0). fold edit st1.
    change (outcome edit st0) with (outcome edit st).
    now destruct (forgiving (outcome edit st)). }
  rewrite Hout. cbn [fst snd]. rewrite after_db, after_trace.
  change (outcome edit st1) with (outcome edit st). cbn [db st1 st0 trace].
  split; [|split].
  - unfold eval, get_pending, bind, get_state, ret, exec, set_pending, modify.
    cbn [fst snd user_settings with_settings]. f_equal.
    apply select_after_insert.
  - intros uid' key Hne. unfold setting_of, exec, set_pending, modify.
    cbn [snd user_settings with_settings].
    rewrite select_after_insert_other by exact Hne.
    now rewrite <- (ensure_user_settings uid (db st)).
  - exists prompt. split; reflexivity.
Qed.

Lemma filter_press_awaits_field_witness :
  let call := Sample.press 7 (u "filter_salary") in
  let out := Sample.webhook Sample.all_well (CallbackUpdate call)
               (Sample.start Sample.all_well empty_store) in
  eval (get_pending 7) (db (snd out)) = inr (Some (u "salary")).
Proof.
  intros call out.
  destruct (filter_press_awaits_field Sample.lib (Sample.env Sample.all_well) call
              (Sample.start Sample.all_well empty_store) (u "salary"))
    as (Hp & _).
  - right. left. reflexivity.
  - vm_compute. reflexivity.
  - exact Hp.
Defined.

Section Stores.
Context `{PyLib} `{Env}.

Lemma on_callback_select_resume call rid st :
  cq_data call = u "select_resume_" ++ rid ->
  on_callback call st
  = (on_db (ensure_user (cq_from call)) ;;
     (r <- on_select_resume call (cq_from call) ;; ret (Some r))) st.
Proof.
  intros Hdata. unfold on_callback, on_callback_rest, MULTI_KEYS. cbv zeta.
  cbn [multi_suggest]. rewrite Hdata.
  rewrite (startswith_app (u "select_resume_")). decide_dispatch. reflexivity.
Qed.

Lemma on_callback_region_suggest call s st :
  cq_data call = u "region_suggest_" ++ s ->
  on_callback call st
  = (on_db (ensure_user (cq_from call)) ;;
     (r <- on_region_suggest call (cq_from call) ;; ret (Some r))) st.
Proof.
  intros Hdata. unfold on_callback, on_callback_rest, MULTI_KEYS. cbv zeta.
  cbn [multi_suggest]. rewrite Hdata.
  rewrite (startswith_app (u "region_suggest_")). decide_dispatch. reflexivity.
Qed.
Lemma webhook_callback_state call st :
  snd (telegram_webhook BOT_TOKEN (CallbackUpdate call) st) = snd (on_callback call st).
Proof.
  rewrite webhook_callback. now destruct (on_callback call st) as [[e|[r|]] st'].
Qed.

Lemma bind_some_state {A} (k : M St A) st :
  snd ((r <- k ;; ret (Some r)) st) = snd (k st).
Proof. unfold bind. now destruct (k st) as [[e|r] st']. Qed.

Lemma on_region_suggest_settings call uid st z :
  trailing_int (cq_data call) = inr z ->
  user_settings (db (snd (on_region_suggest call uid st)))
  = user_settings (exec (save_user_setting uid (u "region") (str_of_int z)) (db st)).
Proof.
  intros Hz. unfold on_region_suggest. unfold bind at 1. rewrite Hz.
  unfold lift_result. cbv iota. unfold bind at 1, on_db at 1, save_user_setting at 1,
    modify at 1. cbv iota.
  match goal with
  | |- user_settings (db (snd (?k ?s))) = _ =>
      assert (Hk : keeps user_settings k) by keeps_auto;
      now rewrite (Hk s)
  end.
Qed.

Lemma on_region_suggest_refused call uid st e :
  trailing_int (cq_data call) = inl e ->
  on_region_suggest call uid st = (inl e, st).
Proof.
  intros He. unfold on_region_suggest. unfold bind at 1. now rewrite He.
Qed.
End Stores.

Lemma select_resume_tail rid :
  u "select_resume_" ++ rid = u "select_resume" ++ underscore :: rid.
Proof. reflexivity. Qed.

Lemma region_suggest_tail s :
  u "region_suggest_" ++ s = u "region_suggest" ++ underscore :: s.
Proof. reflexivity. Qed.

(** X22. Choosing a resume stores what follows the last underscore of
    the button data.  After a press of [select_resume_<rid>] the
    [resume] setting of the user holds the text after the last
    underscore of the data, which is [rid] itself when [rid] has no
    underscore; the only request is the answer "Резюме сохранено", sent
    after the write, so the value is stored whatever becomes of the
    answer, and an empty [rid] is stored and confirmed as well although
    no resume then counts as chosen.  No other setting of any user
    changes. *)
Theorem resume_choice_is_stored :
  forall (L : PyLib) (E : Env) (call : callback_query) (st : St) (rid : pystr),
    cq_data call = u "select_resume_" ++ rid ->
    let uid := cq_from call in
    let out := telegram_webhook BOT_TOKEN (CallbackUpdate call) st in
    let answer := AnswerCallbackQuery (cq_id call) (Some (u "Резюме сохранено")) false in
    setting_of uid resume_key (db (snd out))
    = Some (after_last_underscore (cq_data call)) /\
    (~ In underscore rid ->
       setting_of uid resume_key (db (snd out)) = Some rid /\
       chosen_resume (db (snd out)) uid
       = match rid with [] => None | _ => Some rid end) /\
    (forall uid' key, (uid', key) <> (uid, resume_key) ->
        setting_of uid' key (db (snd out)) = setting_of uid' key (db st)) /\
    trace (snd out) = trace st ++ [(answer, outcome answer st)].
Proof.
  intros L E call st rid Hdata uid out answer.
  set (st0 := {| db := exec (ensure_user uid) (db st); app := app st;
                 world := world st; trace := trace st |}).
  set (st1 := {| db := exec (save_user_setting uid resume_key
                               (after_last_underscore (cq_data call))) (db st0);
                 app := app st0; world := world st0; trace := trace st0 |}).
  assert (Hout : snd out = after answer st1).
  { subst out. rewrite webhook_callback, (on_callback_select_resume call rid st Hdata).
    fold uid. unfold bind at 1. rewrite ensure_user_run. fold st0. cbv iota.
    unfold bind at 1, on_select_resume. unfold bind at 1.
    change (on_db (save_user_setting uid resume_key
                     (after_last_underscore (cq_data call))) st0)
      with (@inr exn unit tt, st1).
    cbv iota. unfold bind at 1. rewrite answer_run. fold answer.
    now destruct (outcome answer st1). }
  assert (Hset : setting_of uid resume_key (db (snd out))
                 = Some (after_last_underscore (cq_data call))).
  { rewrite Hout, after_db. unfold setting_of, exec, save_user_setting, modify.
    cbn [db st1 st0 snd user_settings with_settings]. apply select_after_insert. }
  split; [exact Hset|]. split; [|split].
  - intros Hrid.
    assert (Hcut : after_last_underscore (cq_data call) = rid)
      by (rewrite Hdata, select_resume_tail; now apply after_last_underscore_app).
    rewrite Hcut in Hset. split; [exact Hset|].
    unfold chosen_resume. unfold setting_of in Hset. rewrite Hset.
    now destruct rid.
  - intros uid' key Hne. rewrite Hout, after_db.
    unfold setting_of. cbn [db st1 st0].
    unfold exec at 1, save_user_setting, modify.
    cbn [snd user_settings with_settings].
    rewrite select_after_insert_other by exact Hne.
    now rewrite <- (ensure_user_settings uid (db st)).
  - rewrite Hout, after_trace. reflexivity.
Qed.

Lemma resume_choice_is_stored_witness :
  let call := Sample.press 7 (u "select_resume_r-1") in
  let out := Sample.webhook Sample.all_well (CallbackUpdate call)
               (Sample.start Sample.all_well empty_store) in
  setting_of 7 resume_key (db (snd out)) = Some (u "r-1").
Proof.
  intros call out.
  destruct (resume_choice_is_stored Sample.lib (Sample.env Sample.all_well) call
              (Sample.start Sample.all_well empty_store) (u "r-1"))
    as (_ & Hrid & _).
  - vm_compute. reflexivity.
  - apply Hrid. vm_compute. intros [H|[H|[H|[]]]]; discriminate.
Defined.



(** ** Buttons that leave the store alone *)

(** Evaluate the tests of the dispatch chain on known data. *)
Ltac compute_dispatch :=
  repeat match goal with
         | |- context [pystr_eqb ?a ?b] =>
             let v := eval vm_compute in (pystr_eqb a b) in
             change (pystr_eqb a b) with v
         | |- context [startswith ?a ?b] =>
             let v := eval vm_compute in (startswith a b) in
             change (startswith a b) with v
         | |- context [multi_suggest ?a ?b] =>
             let v := eval vm_compute in (multi_suggest a b) in
             change (multi_suggest a b) with v
         end; cbv iota.

Section ReadOnly.
Context `{PyLib} `{Env}.

Lemma registered_then {A} uid (k : M St A) st :
  keeps (fun d => d) k ->
  db (snd ((on_db (ensure_user uid) ;; (r <- k ;; ret (Some r))) st))
  = exec (ensure_user uid) (db st).
Proof.
  intros Hk. unfold bind at 1. rewrite ensure_user_run. cbv iota.
  rewrite bind_some_state. now rewrite (Hk _).
Qed.

Lemma on_callback_job_apply call id st :
  cq_data call = u "job_apply_" ++ id ->
  on_callback call st
  = (on_db (ensure_user (cq_from call)) ;;
     (r <- on_job_apply call (cq_from call) ;; ret (Some r))) st.
Proof.
  intros Hdata. unfold on_callback, on_callback_rest, MULTI_KEYS. cbv zeta.
  cbn [multi_suggest]. rewrite Hdata.
  rewrite (startswith_app (u "job_apply_")). decide_dispatch. reflexivity.
Qed.
End ReadOnly.

(** X24. Looking, leafing and applying leave no mark in the store.  For
    the buttons [start_auto], [open_favorites], [fav_prev], [fav_next],
    [show_filters], [find_jobs], [job_prev] and every [job_apply_...],
    whatever the services answer and however the handler ends, the store
    after the webhook is the store before it with the user registered in
    [users] if they were not: no setting, pending list, favourite or
    token changes, and nothing records that an application was sent. *)
Theorem browsing_and_applying_write_nothing :
  forall (L : PyLib) (E : Env) (call : callback_query) (st : St),
    In (cq_data call)
       [u "start_auto"; u "open_favorites"; u "fav_prev"; u "fav_next";
        u "show_filters"; u "find_jobs"; u "job_prev"]
    \/ (exists id, cq_data call = u "job_apply_" ++ id) ->
    db (snd (telegram_webhook BOT_TOKEN (CallbackUpdate call) st))
    = exec (ensure_user (cq_from call)) (db st).
Proof.
  intros L E call st Hdata. rewrite webhook_callback_state.
  destruct Hdata as [Hdata|(id & Hdata)].
  - cbn [In] in Hdata.
    destruct Hdata as [Hd|[Hd|[Hd|[Hd|[Hd|[Hd|[Hd|[]]]]]]]];
      unfold on_callback, on_callback_rest; cbv zeta; rewrite <- Hd;
      compute_dispatch; apply registered_then.
    + apply keeps_on_start_auto.
    + apply keeps_on_open_favorites.
    + apply keeps_show_prev_fav.
    + apply keeps_show_next_fav.
    + apply keeps_on_show_filters.
    + apply keeps_on_find_jobs.
    + apply keeps_show_prev_job.
  - rewrite (on_callback_job_apply call id st Hdata). apply registered_then.
    apply keeps_on_job_apply.
Qed.

Lemma browsing_and_applying_write_nothing_witness :
  let call := Sample.press 7 (u "job_apply_501") in
  db (snd (Sample.webhook Sample.one_found (CallbackUpdate call) Sample.after_jobs))
  = exec (ensure_user 7) (db Sample.after_jobs).
Proof.
  intros call.
  apply (browsing_and_applying_write_nothing Sample.lib (Sample.env Sample.one_found)
           call Sample.after_jobs).
  right. exists (u "501"). vm_compute. reflexivity.
Defined.
